(** * Cue-light system: channel state machine, confirmation handshake and
    cue sequencer of [main_app.py], embedded in Rocq.

    The development follows the Python source function by function.
    Qt widgets are reduced to the fields the control flow reads back
    (a column widget's [current_status], the enabled flag of the ARM and
    GO buttons); dictionaries are finite maps; the MQTT worker is an
    outbox of published messages; [QTimer.singleShot] is a list of
    pending one-shot timers over a logical clock in milliseconds. *)

From Stdlib Require Import ZArith QArith String List.
From stdpp Require Import gmap strings pretty list fin_maps sorting.

Local Open Scope string_scope.
Local Open Scope list_scope.
Local Open Scope Z_scope.

(** ** Data model *)

(** The four status strings ever passed to [handle_status_change]. *)
Inductive Status := idle | standby_master | standby_solo | go.

Global Instance Status_eq_dec : EqDecision Status.
Proof. solve_decision. Defined.

Definition status_str (s : Status) : string :=
  match s with
  | idle => "idle"
  | standby_master => "standby_master"
  | standby_solo => "standby_solo"
  | go => "go"
  end.

(** Python's [needle in hay] on strings. *)
Fixpoint py_in (needle hay : string) : bool :=
  String.prefix needle hay ||
  match hay with
  | EmptyString => false
  | String _ rest => py_in needle rest
  end.

(** ["standby" in status] *)
Definition is_standby (s : Status) : bool := py_in "standby" (status_str s).

(** [uuid.uuid4()] draws a fresh 128-bit token.  The supply is modelled by
    a counter carried in the state: every draw is distinct from all
    earlier ones (the collision-free idealisation of random UUIDs). *)
Abbreviation Uuid := N.

(** One entry of [channels_data].  The keys ['status'] and
    ['confirmed_subscribers'] are absent right after
    [create_default_config], hence the options. *)
Record Channel := mkChannel {
  label : string;
  colorName : string;
  colorHex : string;
  textColorHex : string;
  status : option Status;
  confirmed_subscribers : option (list string)
}.

Definition with_status (s : Status) (ch : Channel) : Channel :=
  mkChannel (label ch) (colorName ch) (colorHex ch) (textColorHex ch)
            (Some s) (confirmed_subscribers ch).

Definition with_confirmed_subscribers (l : list string) (ch : Channel) : Channel :=
  mkChannel (label ch) (colorName ch) (colorHex ch) (textColorHex ch)
            (status ch) (Some l).

(** [data.get('status', 'idle')] *)
Definition get_status (ch : Channel) : Status := default idle (status ch).

(** [data.get('confirmed_subscribers', [])] *)
Definition get_confirmed (ch : Channel) : list string :=
  default [] (confirmed_subscribers ch).

(** A Python float as the cue list reads it: NaN, an infinity, or a
    finite value, given by the rational that the binary64 value denotes.
    [float()] returns the first three for the texts ['nan'], ['-inf'] and
    ['inf'], so [on_save] accepts them as cue numbers.  Rounding happens
    where [float()] reads the text (in the dialog, or in [json.load] for
    a show file), before the value enters the cue list; the list only
    compares keys.  The rational is not restricted to the binary64
    values, so that what holds for every key holds for every float. *)
Inductive PyFloat :=
  | float_nan
  | float_neg_inf
  | float_finite (value : Q)
  | float_inf.

(** [a < b] on floats: every comparison with NaN is false. *)
Definition float_lt (a b : PyFloat) : bool :=
  match a, b with
  | float_nan, _ | _, float_nan => false
  | _, float_neg_inf => false
  | float_neg_inf, _ => true
  | float_inf, _ => false
  | _, float_inf => true
  | float_finite x, float_finite y => negb (Qle_bool y x)
  end.

(** [a <= b] on floats. *)
Definition float_le (a b : PyFloat) : bool :=
  match a, b with
  | float_nan, _ | _, float_nan => false
  | float_neg_inf, _ => true
  | _, float_neg_inf => false
  | _, float_inf => true
  | float_inf, _ => false
  | float_finite x, float_finite y => Qle_bool x y
  end.

(** One entry of the cue list.  [cueNumberFloat] is the sort key,
    [float(x.get('cueNumberFloat', x.get('cueNumber', 0)))]. *)
Record Cue := mkCue {
  cue_id : option Uuid;
  cueNumber : string;
  cueNumberFloat : PyFloat;
  cue_label : string;
  channelsInCue : list Z
}.

(** MQTT topics, [f"{MQTT_APP_ID}/..."]. *)
Inductive Topic :=
  | channel_status_topic (numeric_id : Z)      (* .../channel/{id}/status *)
  | confirmations_topic (transmitter_id : string) (* .../confirmations/{tx} *)
  | config_channel_topic (numeric_id : Z)      (* .../config/channel/{id} *)
  | cue_info_topic.                            (* .../system/cue_info *)

Global Instance Topic_eq_dec : EqDecision Topic.
Proof. solve_decision. Defined.

(** Payload of a channel-status message: a copy of the channel entry plus
    the optional keys added by [handle_status_change]. *)
Record StatusPayload := mkStatusPayload {
  payload_channel : Channel;
  request_id : option Uuid;
  response_topic : option Topic;
  cueLabel : option string
}.

(** Payload of a confirmation message as the transmitter decodes it:
    [data.get("request_id")], [data.get("receiver_name", ...)]. *)
Record ConfirmationData := mkConfirmationData {
  conf_request_id : option Uuid;
  conf_receiver_id : option string;
  conf_receiver_name : option string
}.

(** The fields of [TransmitterWindow] that the control flow reads or
    writes, followed by its environment.  [channels_data] is keyed in the
    source by [str(numeric_id)]; [str] is injective on integers and
    [int(str(i)) = i], so the table is indexed here by the numeric id
    itself.  A finite map keeps no insertion order: where the source
    iterates over a dictionary the model visits the same keys in the
    map's own order. *)
Record TransmitterWindow := mkTransmitter {
  channels_data : gmap Z Channel;        (* keyed by str(numeric_id) *)
  cues : list Cue;
  transmitter_id : string;
  pending_requests : gmap Uuid Z;
  current_cue_index : Z;
  is_current_cue_armed : bool;
  channel_widgets : gmap Z Status;       (* ChannelColumnWidget.current_status *)
  btn_arm_cue_enabled : bool;
  btn_go_cue_enabled : bool;
  uuid_next : Uuid;                      (* supply of uuid4 *)
  published : list (Topic * StatusPayload); (* mqtt_worker.publish calls *)
  timers : list (Z * Z);                 (* singleShot: (due time, channel) *)
  clock : Z                              (* ms *)
}.

Definition GO_DURATION_MS : Z := 5000.

Section Setters.
Variable self : TransmitterWindow.

Definition set_channels_data (m : gmap Z Channel) : TransmitterWindow :=
  mkTransmitter m (cues self) (transmitter_id self) (pending_requests self)
    (current_cue_index self) (is_current_cue_armed self) (channel_widgets self)
    (btn_arm_cue_enabled self) (btn_go_cue_enabled self) (uuid_next self)
    (published self) (timers self) (clock self).

Definition set_cues (l : list Cue) : TransmitterWindow :=
  mkTransmitter (channels_data self) l (transmitter_id self) (pending_requests self)
    (current_cue_index self) (is_current_cue_armed self) (channel_widgets self)
    (btn_arm_cue_enabled self) (btn_go_cue_enabled self) (uuid_next self)
    (published self) (timers self) (clock self).

Definition set_pending_requests (p : gmap Uuid Z) : TransmitterWindow :=
  mkTransmitter (channels_data self) (cues self) (transmitter_id self) p
    (current_cue_index self) (is_current_cue_armed self) (channel_widgets self)
    (btn_arm_cue_enabled self) (btn_go_cue_enabled self) (uuid_next self)
    (published self) (timers self) (clock self).

Definition set_current_cue_index (i : Z) : TransmitterWindow :=
  mkTransmitter (channels_data self) (cues self) (transmitter_id self)
    (pending_requests self) i (is_current_cue_armed self) (channel_widgets self)
    (btn_arm_cue_enabled self) (btn_go_cue_enabled self) (uuid_next self)
    (published self) (timers self) (clock self).

Definition set_is_current_cue_armed (b : bool) : TransmitterWindow :=
  mkTransmitter (channels_data self) (cues self) (transmitter_id self)
    (pending_requests self) (current_cue_index self) b (channel_widgets self)
    (btn_arm_cue_enabled self) (btn_go_cue_enabled self) (uuid_next self)
    (published self) (timers self) (clock self).

Definition set_channel_widgets (w : gmap Z Status) : TransmitterWindow :=
  mkTransmitter (channels_data self) (cues self) (transmitter_id self)
    (pending_requests self) (current_cue_index self) (is_current_cue_armed self) w
    (btn_arm_cue_enabled self) (btn_go_cue_enabled self) (uuid_next self)
    (published self) (timers self) (clock self).

Definition set_cue_buttons (arm go_ : bool) : TransmitterWindow :=
  mkTransmitter (channels_data self) (cues self) (transmitter_id self)
    (pending_requests self) (current_cue_index self) (is_current_cue_armed self)
    (channel_widgets self) arm go_ (uuid_next self)
    (published self) (timers self) (clock self).

Definition set_uuid_next (u : Uuid) : TransmitterWindow :=
  mkTransmitter (channels_data self) (cues self) (transmitter_id self)
    (pending_requests self) (current_cue_index self) (is_current_cue_armed self)
    (channel_widgets self) (btn_arm_cue_enabled self) (btn_go_cue_enabled self) u
    (published self) (timers self) (clock self).

Definition set_published (l : list (Topic * StatusPayload)) : TransmitterWindow :=
  mkTransmitter (channels_data self) (cues self) (transmitter_id self)
    (pending_requests self) (current_cue_index self) (is_current_cue_armed self)
    (channel_widgets self) (btn_arm_cue_enabled self) (btn_go_cue_enabled self)
    (uuid_next self) l (timers self) (clock self).

Definition set_timers (l : list (Z * Z)) : TransmitterWindow :=
  mkTransmitter (channels_data self) (cues self) (transmitter_id self)
    (pending_requests self) (current_cue_index self) (is_current_cue_armed self)
    (channel_widgets self) (btn_arm_cue_enabled self) (btn_go_cue_enabled self)
    (uuid_next self) (published self) l (clock self).

Definition set_clock (t : Z) : TransmitterWindow :=
  mkTransmitter (channels_data self) (cues self) (transmitter_id self)
    (pending_requests self) (current_cue_index self) (is_current_cue_armed self)
    (channel_widgets self) (btn_arm_cue_enabled self) (btn_go_cue_enabled self)
    (uuid_next self) (published self) (timers self) t.
End Setters.

(** ** Slots that may raise

    An uncaught [IndexError] aborts the running slot; what it had already
    written stays written.  [Raised] carries the state at the raise. *)
Inductive Outcome :=
  | Done (self : TransmitterWindow)
  | Raised (self : TransmitterWindow).

Definition state_of (o : Outcome) : TransmitterWindow :=
  match o with Done s | Raised s => s end.

Definition and_then (o : Outcome) (k : TransmitterWindow → Outcome) : Outcome :=
  match o with
  | Done s => k s
  | Raised s => Raised s
  end.

(** [for x in l: body(x)] *)
Fixpoint for_each {A} (l : list A) (body : A → TransmitterWindow → Outcome)
    (self : TransmitterWindow) : Outcome :=
  match l with
  | [] => Done self
  | x :: rest => and_then (body x self) (for_each rest body)
  end.

(** [l[i]] with Python's negative indices; [None] is [IndexError]. *)
Definition py_index {A} (l : list A) (i : Z) : option A :=
  if 0 <=? i then l !! Z.to_nat i
  else if - Z.of_nat (length l) <=? i then l !! Z.to_nat (Z.of_nat (length l) + i)
  else None.

(** ** Transmitter: status changes *)

(** [[req_id for req_id, ch_id in pending_requests.items() if ch_id == numeric_id]] *)
Definition requests_to_remove (numeric_id : Z) (p : gmap Uuid Z) : list Uuid :=
  (filter (λ rc, rc.2 = numeric_id) (map_to_list p)).*1.

(** [for req_id in requests_to_remove: del pending_requests[req_id]] *)
Definition revoke_requests (numeric_id : Z) (p : gmap Uuid Z) : gmap Uuid Z :=
  foldl (λ m req_id, delete req_id m) p (requests_to_remove numeric_id p).

Definition uuid4 (self : TransmitterWindow) : Uuid * TransmitterWindow :=
  (uuid_next self, set_uuid_next self (N.succ (uuid_next self))).

(** Each column widget present in [channel_widgets] whose channel is
    configured takes over the channel's status ([update_display]). *)
Definition update_all_channel_displays (self : TransmitterWindow) : TransmitterWindow :=
  set_channel_widgets self
    (map_imap (λ i w, Some (match channels_data self !! i with
                            | Some ch => get_status ch
                            | None => w
                            end)) (channel_widgets self)).

Definition publish (topic : Topic) (payload : StatusPayload)
    (self : TransmitterWindow) : TransmitterWindow :=
  set_published self (published self ++ [(topic, payload)]).

(** [QTimer.singleShot(ms, lambda: self.revert_go_to_idle(numeric_id))] *)
Definition single_shot (ms : Z) (numeric_id : Z)
    (self : TransmitterWindow) : TransmitterWindow :=
  set_timers self (timers self ++ [(clock self + ms, numeric_id)]).

Definition handle_status_change (numeric_id : Z) (new_status : Status)
    (self : TransmitterWindow) : Outcome :=
  match channels_data self !! numeric_id with
  | None => Done self
  | Some ch =>
    let old_status := get_status ch in
    let self :=
      if is_standby old_status && negb (is_standby new_status)
      then set_pending_requests self (revoke_requests numeric_id (pending_requests self))
      else self in
    let ch := with_status new_status ch in
    let self := set_channels_data self (<[numeric_id := ch]> (channels_data self)) in
    let '(req, self) :=
      if is_standby new_status
      then let '(rid, self) := uuid4 self in
           (Some (rid, confirmations_topic (transmitter_id self)),
            set_pending_requests self (<[rid := numeric_id]> (pending_requests self)))
      else (None, self) in
    let publish_and_finish (cue_lbl : option string) :=
      let payload := mkStatusPayload ch (fst <$> req) (snd <$> req) cue_lbl in
      let self := publish (channel_status_topic numeric_id) payload self in
      let self := update_all_channel_displays self in
      Done (if decide (new_status = go)
            then single_shot GO_DURATION_MS numeric_id self else self) in
    if decide (current_cue_index self = -1) then publish_and_finish None
    else match py_index (cues self) (current_cue_index self) with
         | None => Raised self
         | Some cue => publish_and_finish (Some (cue_label cue))
         end
  end.

(** [revert_go_to_idle], the callback of the one-shot timer. *)
Definition revert_go_to_idle (numeric_id : Z) (self : TransmitterWindow) : Outcome :=
  match channels_data self !! numeric_id with
  | Some ch =>
    if decide (status ch = Some go) then
      let self :=
        match confirmed_subscribers ch with
        | Some _ => set_channels_data self
                      (<[numeric_id := with_confirmed_subscribers [] ch]> (channels_data self))
        | None => self
        end in
      handle_status_change numeric_id idle self
    else Done self
  | None => Done self
  end.

(** [fire_master_go]: the loop body reads the entry's live status; the
    loop visits the keys of [channels_data]. *)
Definition master_go_body (i : Z) (self : TransmitterWindow) : Outcome :=
  match channels_data self !! i with
  | Some data =>
    if decide (status data = Some standby_master)
    then handle_status_change i go self else Done self
  | None => Done self
  end.

Definition fire_master_go (self : TransmitterWindow) : Outcome :=
  for_each (map_to_list (channels_data self)).*1 master_go_body self.

(** ** Column widgets: the two standby buttons

    A click reads the widget's own [current_status] and emits
    [status_change_requested], which is connected to
    [handle_status_change].  Only the widgets in [channel_widgets] exist. *)
Definition master_sb_clicked (numeric_id : Z) (self : TransmitterWindow) : Outcome :=
  match channel_widgets self !! numeric_id with
  | Some current_status =>
    if decide (current_status = standby_master)
    then handle_status_change numeric_id idle self
    else handle_status_change numeric_id standby_master self
  | None => Done self
  end.

Definition solo_op_clicked (numeric_id : Z) (self : TransmitterWindow) : Outcome :=
  match channel_widgets self !! numeric_id with
  | Some current_status =>
    if decide (current_status = standby_solo)
    then handle_status_change numeric_id go self
    else handle_status_change numeric_id standby_solo self
  | None => Done self
  end.

(** ** Cue sequencer *)

(** [update_cue_header_display]: enables ARM when not armed and GO when
    armed; both are disabled without a current cue. *)
Definition update_cue_header_display (self : TransmitterWindow) : Outcome :=
  if decide (current_cue_index self ≠ -1 ∧ cues self ≠ []) then
    match py_index (cues self) (current_cue_index self) with
    | None => Raised self
    | Some _ =>
      Done (set_cue_buttons self (negb (is_current_cue_armed self))
                                 (is_current_cue_armed self))
    end
  else Done (set_cue_buttons self false false).

Definition arm_current_cue (self : TransmitterWindow) : Outcome :=
  if decide (current_cue_index self = -1 ∨ cues self = []) then Done self
  else match py_index (cues self) (current_cue_index self) with
       | None => Raised self
       | Some cue =>
         and_then
           (for_each (channelsInCue cue)
              (λ channel_id, handle_status_change channel_id standby_master) self)
           (λ self, update_cue_header_display (set_is_current_cue_armed self true))
       end.

Definition next_cue (self : TransmitterWindow) : Outcome :=
  if decide (length (cues self) = 0%nat) then Done self
  else
    let self :=
      if decide (current_cue_index self < Z.of_nat (length (cues self)) - 1)
      then set_current_cue_index self (current_cue_index self + 1)
      else set_current_cue_index self 0 in
    update_cue_header_display (set_is_current_cue_armed self false).

Definition prev_cue (self : TransmitterWindow) : Outcome :=
  if decide (length (cues self) = 0%nat) then Done self
  else
    let self :=
      if decide (current_cue_index self > 0)
      then set_current_cue_index self (current_cue_index self - 1)
      else set_current_cue_index self (Z.of_nat (length (cues self)) - 1) in
    update_cue_header_display (set_is_current_cue_armed self false).

Definition go_current_cue (self : TransmitterWindow) : Outcome :=
  if decide (is_current_cue_armed self = false ∨ current_cue_index self = -1)
  then Done self
  else match py_index (cues self) (current_cue_index self) with
       | None => Raised self
       | Some cue =>
         and_then
           (for_each (channelsInCue cue)
              (λ channel_id, handle_status_change channel_id go) self)
           (λ self, next_cue (set_is_current_cue_armed self false))
       end.

(** The ARM CUE and GO CUE buttons: a disabled button emits no [clicked]. *)
Definition btn_arm_cue_clicked (self : TransmitterWindow) : Outcome :=
  if btn_arm_cue_enabled self then arm_current_cue self else Done self.

Definition btn_go_cue_clicked (self : TransmitterWindow) : Outcome :=
  if btn_go_cue_enabled self then go_current_cue self else Done self.

(** ** Confirmations

    [decoded] is the result of [json.loads]; [None] stands for a payload
    that does not decode, which the handler drops. *)
Definition on_confirmation_received (decoded : option ConfirmationData)
    (self : TransmitterWindow) : TransmitterWindow :=
  match decoded with
  | None => self
  | Some data =>
    let receiver_name := default "Unknown Receiver" (conf_receiver_name data) in
    match conf_request_id data ≫= (λ r, pending_requests self !! r) with
    | Some channel_id =>
      match channels_data self !! channel_id with
      | Some ch =>
        let subs := get_confirmed ch in
        let subs := if decide (receiver_name ∈ subs) then subs
                    else subs ++ [receiver_name] in
        update_all_channel_displays
          (set_channels_data self
             (<[channel_id := with_confirmed_subscribers subs ch]> (channels_data self)))
      | None => self
      end
    | None => self
    end
  end.

(** ** Show document: defaults, loading, cue editing *)

Definition COLOR_OPTIONS_PY : list (string * (string * string)) :=
  [ ("White", ("#FFFFFF", "#000000")); ("Cyan", ("#00BCD4", "#000000"));
    ("Magenta", ("#E91E63", "#FFFFFF")); ("Yellow", ("#FFEB3B", "#000000"));
    ("Red", ("#F44336", "#FFFFFF")); ("Green", ("#4CAF50", "#FFFFFF"));
    ("Blue", ("#2196F3", "#FFFFFF")); ("Orange", ("#FF9800", "#000000"));
    ("Lavender", ("#9575CD", "#FFFFFF")); ("Purple", ("#9C27B0", "#FFFFFF"));
    ("Teal", ("#009688", "#FFFFFF")) ].

(** The entry [create_default_config] builds for channel [i]; it has no
    ['status'] and no ['confirmed_subscribers'] key. *)
Definition default_channel (i : nat) : Channel :=
  let '(color_name, (bg_hex, text_hex)) :=
    nth (i mod length COLOR_OPTIONS_PY) COLOR_OPTIONS_PY ("", ("", "")) in
  mkChannel ("Channel " +:+ pretty i) color_name bg_hex text_hex None None.

Definition create_default_config (self : TransmitterWindow) : TransmitterWindow :=
  let channels :=
    foldl (λ m i, <[Z.of_nat i := default_channel i]> m) ∅ (seq 1 8) in
  set_current_cue_index (set_cues (set_channels_data self channels) []) (-1).

(** [cues.sort(key=lambda x: float(x.get('cueNumberFloat', ...)))].
    [list.sort] compares keys with [<] only.  On a list of fewer than 64
    elements CPython's sort is one pass of [count_run], which takes the
    run the list starts with (reversed when it is strictly descending),
    followed by [binarysort], which inserts each remaining element into
    the run by binary search; that is what is written out here.  On a
    longer list the sort merges several such runs, with the same result
    whenever the keys are comparable (no NaN among them). *)
Definition key_lt (a b : Cue) : bool :=
  float_lt (cueNumberFloat a) (cueNumberFloat b).

(** The loops of [count_run]: how many further elements continue the
    run, each compared with its predecessor. *)
Fixpoint run_length (descending : bool) (prev : Cue) (l : list Cue) : nat :=
  match l with
  | [] => 0
  | x :: rest =>
    if Bool.eqb (key_lt x prev) descending
    then S (run_length descending x rest) else 0
  end.

(** [count_run]: the length of the leading run and whether it descends. *)
Definition count_run (l : list Cue) : nat * bool :=
  match l with
  | [] => (0%nat, false)
  | [x] => (1%nat, false)
  | x :: y :: rest =>
    let descending := key_lt y x in
    (S (S (run_length descending y rest)), descending)
  end.

(** The search loop of [binarysort]: the slot of [pivot] in [a] between
    [l] and [r].  The interval shrinks in every round, so [length a]
    rounds are enough. *)
Fixpoint bisect (fuel : nat) (pivot : Cue) (a : list Cue) (l r : nat) : nat :=
  match fuel with
  | O => l
  | S fuel =>
    if decide (l < r)%nat then
      let p := (l + (r - l) / 2)%nat in
      match a !! p with
      | Some x =>
        if key_lt pivot x then bisect fuel pivot a l p
        else bisect fuel pivot a (S p) r
      | None => l
      end
    else l
  end.

(** One round of [binarysort]: [pivot] is moved into its slot. *)
Definition binary_insert (a : list Cue) (pivot : Cue) : list Cue :=
  let slot := bisect (length a) pivot a 0 (length a) in
  take slot a ++ pivot :: drop slot a.

Definition sort_cues (l : list Cue) : list Cue :=
  let '(n, descending) := count_run l in
  let run := if descending then reverse (take n l) else take n l in
  foldl binary_insert run (drop n l).

(** What [json.load] returns for a show file. *)
Record ShowDocument := mkShowDocument {
  doc_channels : gmap Z Channel;
  doc_cues : list Cue
}.

(** [load_config]; [None] is a missing or unreadable file. *)
Definition load_config (file : option ShowDocument) (self : TransmitterWindow) : Outcome :=
  let self :=
    match file with
    | Some config => set_cues (set_channels_data self (doc_channels config)) (doc_cues config)
    | None => create_default_config self
    end in
  let self := set_cues self (sort_cues (cues self)) in
  let self := set_current_cue_index self (if decide (cues self = []) then -1 else 0) in
  let self := set_channels_data self
    ((λ ch, with_confirmed_subscribers [] (with_status idle ch)) <$> channels_data self) in
  update_cue_header_display (update_all_channel_displays self).

Definition handle_new_config (self : TransmitterWindow) : Outcome :=
  update_cue_header_display (update_all_channel_displays (create_default_config self)).

(** [show_cues_view]: [update_cues(self.cues)] makes the table share the
    list object, and [populate_table] sorts it in place. *)
Definition show_cues_view (self : TransmitterWindow) : Outcome :=
  update_cue_header_display (set_cues self (sort_cues (cues self))).

(** How a [CueEditDialog] was closed: [QDialog.DialogCode] has the two
    members [Accepted] and [Rejected].  [Accepted] carries what [on_save]
    wrote into the cue: number text, its [float()], label, ticked
    channels. *)
Inductive DialogResult :=
  | Accepted (num : string) (num_float : PyFloat) (lbl : string) (selected : list Z)
  | Rejected.

(** [QDialog.DialogCode.DestructiveRole]: the enum has no such member, so
    the attribute lookup raises [AttributeError] ([None]). *)
Definition DialogCode_DestructiveRole : option DialogResult := None.

(** [on_delete], the slot of the Delete Cue button: what it closes the
    dialog with.  After a Yes to the question it evaluates the argument
    of [self.done(...)], which raises; after a No it does nothing.  Either
    way the dialog stays open ([None]). *)
Definition on_delete (answer_yes : bool) : option DialogResult :=
  if answer_yes then DialogCode_DestructiveRole else None.

(** [for i, cue in enumerate(cues): if cue.get('id') == id: cues[i] = updated; break] *)
Fixpoint replace_first_by_id (updated : Cue) (l : list Cue) : list Cue :=
  match l with
  | [] => []
  | c :: rest =>
    if decide (cue_id c = cue_id updated) then updated :: rest
    else c :: replace_first_by_id updated rest
  end.

(** [handle_cue_action("add", None)]; [save_config] writes the show file
    and touches none of the fields modelled here. *)
Definition handle_cue_action_add (result : DialogResult)
    (self : TransmitterWindow) : Outcome :=
  match result with
  | Accepted num num_float lbl selected =>
    let '(new_id, self) := uuid4 self in
    let new_cue := mkCue (Some new_id) num num_float lbl selected in
    show_cues_view (set_cues self (cues self ++ [new_cue]))
  | _ => Done self
  end.

(** The cue an Edit button was given by the [populate_table] that made
    it: the very object at [row] of the current cue list, or a cue of a
    list that [load_config] or [create_default_config] has replaced since
    (neither repopulates the table). *)
Inductive EditButton :=
  | live_row (row : nat)
  | stale_cue (data : Cue).

(** [handle_cue_action("edit", data)].  [on_save] writes into the object
    the button holds, which changes the list when the object is in it.
    When the dialog is not accepted, the [elif] evaluates
    [QDialog.DialogCode.DestructiveRole] and raises, so the branch that
    would delete the cue never runs.  Cues are followed by value, which
    is exact as long as no two cues of the list share an id (then no
    object is in the list twice). *)
Definition handle_cue_action_edit (button : EditButton) (result : DialogResult)
    (self : TransmitterWindow) : Outcome :=
  let held := match button with
              | live_row row => cues self !! row
              | stale_cue data => Some data
              end in
  match held with
  | None => Done self
  | Some data =>
    match result with
    | Accepted num num_float lbl selected =>
      let '(id, self) :=
        match cue_id data with
        | Some id => (id, self)
        | None => uuid4 self
        end in
      let updated_cue := mkCue (Some id) num num_float lbl selected in
      let self := match button with
                  | live_row row => set_cues self (<[row := updated_cue]> (cues self))
                  | stale_cue _ => self
                  end in
      show_cues_view (set_cues self (replace_first_by_id updated_cue (cues self)))
    | Rejected => Raised self
    end
  end.

(** ** The event loop and its timers

    [elapse d] lets [d] milliseconds pass: every one-shot timer that falls
    due runs its callback, in the order the timers were started (which is
    the order of their due times, the delay being constant). *)
Definition timer_due (t : Z) (tm : Z * Z) : Prop := tm.1 ≤ t.

Global Instance timer_due_dec t tm : Decision (timer_due t tm).
Proof. unfold timer_due. apply _. Defined.

(** The callbacks of the timers [due], each run at its due time. *)
Definition run_timers (due : list (Z * Z)) (self : TransmitterWindow) : TransmitterWindow :=
  foldl (λ self tm, state_of (revert_go_to_idle tm.2 (set_clock self tm.1)))
        self due.

Definition elapse (d : Z) (self : TransmitterWindow) : TransmitterWindow :=
  let t := clock self + Z.max 0 d in
  let due := filter (timer_due t) (timers self) in
  let self := set_timers self (filter (λ tm, ¬ timer_due t tm) (timers self)) in
  set_clock (run_timers due self) t.

(** ** Receiver *)

Record ConfirmationPayload := mkConfirmationPayload {
  sent_request_id : Uuid;
  sent_receiver_id : string;
  sent_receiver_name : string
}.

Record ReceiverWindow := mkReceiver {
  receiver_id : string;
  receiver_name : string;
  subscribed_channel_id : Z;
  current_request_id : option Uuid;
  current_response_topic : option Topic;
  is_confirmed : bool;
  confirm_button_visible : bool;
  sent : list (Topic * ConfirmationPayload)   (* mqtt_worker.publish calls *)
}.

(** [update_display_from_data] on a decoded channel-status payload. *)
Definition update_display_from_data (data : StatusPayload)
    (self : ReceiverWindow) : ReceiverWindow :=
  let st := get_status (payload_channel data) in
  let show_confirm := bool_decide (st = standby_master ∨ st = standby_solo) in
  mkReceiver (receiver_id self) (receiver_name self) (subscribed_channel_id self)
    (if show_confirm then request_id data else None)
    (if show_confirm then response_topic data else None)
    false show_confirm (sent self).

(** [handle_mqtt_message] for the status and config topics of the
    subscribed channel; a config message only changes a displayed label. *)
Definition handle_mqtt_message (topic : Topic) (decoded : option StatusPayload)
    (self : ReceiverWindow) : ReceiverWindow :=
  match decoded with
  | None => self
  | Some data =>
    if decide (topic = channel_status_topic (subscribed_channel_id self))
    then update_display_from_data data self
    else self
  end.

Definition handle_confirm_press (self : ReceiverWindow) : ReceiverWindow :=
  match current_response_topic self, current_request_id self, is_confirmed self with
  | Some topic, Some rid, false =>
    mkReceiver (receiver_id self) (receiver_name self) (subscribed_channel_id self)
      (current_request_id self) (current_response_topic self) true
      (confirm_button_visible self)
      (sent self ++ [(topic, mkConfirmationPayload rid (receiver_id self) (receiver_name self))])
  | _, _, _ => self
  end.

(** A confirmation as it reaches the transmitter after [json.dumps] and
    [json.loads]. *)
Definition decode_confirmation (p : ConfirmationPayload) : option ConfirmationData :=
  Some (mkConfirmationData (Some (sent_request_id p)) (Some (sent_receiver_id p))
                           (Some (sent_receiver_name p))).

(** ** Start-up *)

(** [TransmitterWindow.__init__] up to [handle_startup_choice]: empty
    tables, eight column widgets showing idle, both cue buttons enabled. *)
Definition initial_window (tx_id : string) : TransmitterWindow :=
  mkTransmitter ∅ [] tx_id ∅ (-1) false
    (foldl (λ m i, <[Z.of_nat i := idle]> m) ∅ (seq 1 8))
    true true 0%N [] [] 0.

Definition initial_receiver (id name : string) (channel : Z) : ReceiverWindow :=
  mkReceiver id name channel None None false false [].

(** ** Intents

    What can happen to a running transmitter: the clicks of the manual and
    cue controls, the passing of time (which runs the scheduled reverts),
    and an inbound confirmation. *)
Inductive Intent :=
  | master_standby (numeric_id : Z)     (* Master Standby button of a column *)
  | solo_standby (numeric_id : Z)       (* Solo Standby / Solo GO button *)
  | master_go                           (* MASTER GO *)
  | cue_arm                             (* ARM CUE *)
  | cue_go                              (* GO CUE *)
  | cue_next
  | cue_prev
  | time_passes (d : Z)
  | confirmation (decoded : option ConfirmationData).

Definition step (i : Intent) (self : TransmitterWindow) : TransmitterWindow :=
  match i with
  | master_standby c => state_of (master_sb_clicked c self)
  | solo_standby c => state_of (solo_op_clicked c self)
  | master_go => state_of (fire_master_go self)
  | cue_arm => state_of (btn_arm_cue_clicked self)
  | cue_go => state_of (btn_go_cue_clicked self)
  | cue_next => state_of (next_cue self)
  | cue_prev => state_of (prev_cue self)
  | time_passes d => elapse d self
  | confirmation decoded => on_confirmation_received decoded self
  end.

Definition run (l : list Intent) (self : TransmitterWindow) : TransmitterWindow :=
  foldl (λ s i, step i s) self l.

(** The status a channel shows, [None] for an id that is not configured. *)
Definition status_of (self : TransmitterWindow) (numeric_id : Z) : option Status :=
  get_status <$> channels_data self !! numeric_id.

(** The status changes the code lets each intent make. *)
Definition permitted (i : Intent) (old new : Status) : bool :=
  match i, old, new with
  | master_standby _, standby_master, idle => true
  | master_standby _, (idle | standby_solo | go), standby_master => true
  | solo_standby _, standby_solo, go => true
  | solo_standby _, (idle | standby_master | go), standby_solo => true
  | master_go, standby_master, go => true
  | cue_arm, (idle | standby_solo | go), standby_master => true
  | cue_go, (idle | standby_master | standby_solo), go => true
  | time_passes _, go, idle => true
  | _, _, _ => false
  end.

(** The transition table of the specification, section 4.3. *)
Definition in_table (i : Intent) (old new : Status) : bool :=
  match i, old, new with
  | master_standby _, idle, standby_master => true
  | master_standby _, standby_master, idle => true
  | solo_standby _, idle, standby_solo => true
  | solo_standby _, standby_solo, go => true
  | (master_go | cue_go), standby_master, go => true
  | time_passes _, go, idle => true
  | _, _, _ => false
  end.

(** ** Invariants of a running transmitter *)

(** The cue pointer is the sentinel or a valid index. *)
Definition pointer_ok (self : TransmitterWindow) : Prop :=
  current_cue_index self = -1 ∨
  0 ≤ current_cue_index self < Z.of_nat (length (cues self)).

(** Every column widget shows the status of its channel. *)
Definition widgets_in_sync (self : TransmitterWindow) : Prop :=
  ∀ i w ch, channel_widgets self !! i = Some w →
            channels_data self !! i = Some ch → w = get_status ch.

(** Every pending request id was drawn from the supply. *)
Definition requests_issued (self : TransmitterWindow) : Prop :=
  ∀ r c, pending_requests self !! r = Some c → (r < uuid_next self)%N.

(** While a cue is armed the ARM button is disabled. *)
Definition arm_gate (self : TransmitterWindow) : Prop :=
  is_current_cue_armed self = true → btn_arm_cue_enabled self = false.

Record well_formed (self : TransmitterWindow) : Prop := mk_well_formed {
  wf_pointer : pointer_ok self;
  wf_widgets : widgets_in_sync self;
  wf_requests : requests_issued self;
  wf_gate : arm_gate self
}.

(** ** Vocabulary of the statements *)

(** The pending requests after a status change of channel [c] from [old]
    to [new] that draws [fresh] when it needs a request id. *)
Definition pending_after (c : Z) (old new : Status) (fresh : Uuid)
    (p : gmap Uuid Z) : gmap Uuid Z :=
  let p := if is_standby old && negb (is_standby new)
           then revoke_requests c p else p in
  if is_standby new then <[fresh := c]> p else p.

(** Written before the cue label is looked up: holds whether or not the
    call then raises. *)
Record status_change_core (c : Z) (new : Status) (ch : Channel)
    (st st' : TransmitterWindow) : Prop := mk_status_change_core {
  scc_channels : channels_data st' = <[c := with_status new ch]> (channels_data st);
  scc_pending : pending_requests st' =
                pending_after c (get_status ch) new (uuid_next st) (pending_requests st);
  scc_uuid : uuid_next st' =
             if is_standby new then N.succ (uuid_next st) else uuid_next st;
  scc_cues : cues st' = cues st;
  scc_index : current_cue_index st' = current_cue_index st;
  scc_armed : is_current_cue_armed st' = is_current_cue_armed st;
  scc_arm_btn : btn_arm_cue_enabled st' = btn_arm_cue_enabled st;
  scc_go_btn : btn_go_cue_enabled st' = btn_go_cue_enabled st;
  scc_tx : transmitter_id st' = transmitter_id st;
  scc_clock : clock st' = clock st
}.

(** Written after it: the publish, the refreshed widgets, the timer. *)
Record status_change_finish (c : Z) (new : Status) (ch : Channel)
    (st st' : TransmitterWindow) : Prop := mk_status_change_finish {
  scf_published : ∃ payload,
    published st' = published st ++ [(channel_status_topic c, payload)] ∧
    payload_channel payload = with_status new ch ∧
    request_id payload =
      (if is_standby new then Some (uuid_next st) else None) ∧
    response_topic payload =
      (if is_standby new then Some (confirmations_topic (transmitter_id st)) else None);
  scf_widgets : ∀ i, channel_widgets st' !! i =
    (λ w, match channels_data st' !! i with
          | Some ch => get_status ch
          | None => w
          end) <$> channel_widgets st !! i;
  scf_timers : timers st' =
    if decide (new = go) then timers st ++ [(clock st + GO_DURATION_MS, c)]
    else timers st
}.

(** Request ids only ever come fresh from the supply. *)
Definition requests_extend (st st' : TransmitterWindow) : Prop :=
  (uuid_next st ≤ uuid_next st')%N ∧
  ∀ r c, pending_requests st' !! r = Some c →
         pending_requests st !! r = Some c ∨ (uuid_next st ≤ r)%N.

(** The cue list, the pointer, the armed flag and the cue buttons. *)
Record same_sequencer (st st' : TransmitterWindow) : Prop := mk_same_sequencer {
  sq_cues : cues st' = cues st;
  sq_index : current_cue_index st' = current_cue_index st;
  sq_armed : is_current_cue_armed st' = is_current_cue_armed st;
  sq_arm_btn : btn_arm_cue_enabled st' = btn_arm_cue_enabled st;
  sq_go_btn : btn_go_cue_enabled st' = btn_go_cue_enabled st;
  sq_tx : transmitter_id st' = transmitter_id st
}.

(** The entry a revert leaves: subscribers cleared (when the key is
    there), status idle. *)
Definition reverted (ch : Channel) : Channel :=
  with_status idle
    match confirmed_subscribers ch with
    | Some _ => with_confirmed_subscribers [] ch
    | None => ch
    end.

(** The subscriber list after [name] confirmed. *)
Definition confirmed_by (name : string) (ch : Channel) : Channel :=
  with_confirmed_subscribers
    (if decide (name ∈ get_confirmed ch) then get_confirmed ch
     else get_confirmed ch ++ [name]) ch.

(** The channels the ARM slot drives: those of the current cue. *)
Definition driven_by_cue (st : TransmitterWindow) : list Z :=
  if decide (current_cue_index st = -1 ∨ cues st = []) then []
  else match py_index (cues st) (current_cue_index st) with
       | Some cue => channelsInCue cue
       | None => []
       end.

(** The channels the GO slot drives. *)
Definition driven_by_go (st : TransmitterWindow) : list Z :=
  if decide (is_current_cue_armed st = false ∨ current_cue_index st = -1) then []
  else match py_index (cues st) (current_cue_index st) with
       | Some cue => channelsInCue cue
       | None => []
       end.

(** Across an intent a channel keeps its status or changes it in a way
    [permitted] lists. *)
Definition conforms (i : Intent) (before after : option Status) : Prop :=
  after = before ∨
  ∃ old new, before = Some old ∧ after = Some new ∧ permitted i old new = true.

(** Sorted ascending by [cueNumberFloat]: every cue's key is [<=] the
    key of every later cue. *)
Definition key_le (a b : Cue) : Prop :=
  float_le (cueNumberFloat a) (cueNumberFloat b) = true.

Global Instance key_le_dec a b : Decision (key_le a b).
Proof. unfold key_le. apply _. Defined.

Definition cues_sorted (l : list Cue) : Prop := StronglySorted key_le l.

(** The cue's number is a number: its key is not NaN. *)
Definition has_number (c : Cue) : Prop := cueNumberFloat c ≠ float_nan.

Global Instance has_number_dec c : Decision (has_number c).
Proof.
  unfold has_number. destruct (cueNumberFloat c);
    [right; by intros []|left; discriminate..].
Defined.

(** No cue's key is [<] the key of the cue before it: the list is one
    ascending run for [count_run]. *)
Fixpoint no_descent (l : list Cue) : Prop :=
  match l with
  | x :: (y :: _) as rest => key_lt y x = false ∧ no_descent rest
  | _ => True
  end.

(** Every cue's key is [<] the key of the cue before it: a descending
    run for [count_run]. *)
Fixpoint strict_descent (l : list Cue) : Prop :=
  match l with
  | x :: (y :: _) as rest => key_lt y x = true ∧ strict_descent rest
  | _ => True
  end.

(** What the search of [binarysort] keeps: the element left of the slot
    is not above the pivot, the element at the slot is. *)
Definition left_of (pivot : Cue) (a : list Cue) (l : nat) : Prop :=
  ∀ j x, l = S j → a !! j = Some x → key_lt pivot x = false.

Definition right_of (pivot : Cue) (a : list Cue) (r : nat) : Prop :=
  ∀ y, a !! r = Some y → key_lt pivot y = true.

(** The channel table a load leaves: every entry idle, no subscribers. *)
Definition loaded_channels (file : option ShowDocument) (st : TransmitterWindow)
    : gmap Z Channel :=
  (λ ch, with_confirmed_subscribers [] (with_status idle ch)) <$>
  match file with
  | Some config => doc_channels config
  | None => channels_data (create_default_config st)
  end.

Definition loaded_cues (file : option ShowDocument) : list Cue :=
  sort_cues match file with Some config => doc_cues config | None => [] end.

(** The claim as the specification states it: every status change is in
    the table of section 4.3. *)
Definition follows_table (i : Intent) (before after : option Status) : Prop :=
  after = before ∨
  ∃ old new, before = Some old ∧ after = Some new ∧ in_table i old new = true.

(** The transmitter after receiver [name] confirmed request [r]. *)
Definition confirm (r : Uuid) (name : string) (st : TransmitterWindow) : TransmitterWindow :=
  on_confirmation_received (Some (mkConfirmationData (Some r) None (Some name))) st.

(** The transmitter handles the confirmations that were published on its
    own confirmations topic, in order. *)
Definition deliver (msgs : list (Topic * ConfirmationPayload))
    (tx : TransmitterWindow) : TransmitterWindow :=
  foldl (λ tx m,
           if decide (m.1 = confirmations_topic (transmitter_id tx))
           then on_confirmation_received (decode_confirmation m.2) tx
           else tx)
        tx msgs.

(** How many entries of a subscriber list are exactly [name]. *)
Definition entries_for (name : string) (l : list string) : nat :=
  length (filter (λ n, n = name) l).

(** The sort key under the cue pointer. *)
Definition current_key (st : TransmitterWindow) : option PyFloat :=
  cueNumberFloat <$> py_index (cues st) (current_cue_index st).

(** What the claim asks of the pointer: -1 exactly when there is no cue,
    otherwise an index into the list. *)
Definition pointer_matches_cues (st : TransmitterWindow) : Prop :=
  (current_cue_index st = -1 ↔ cues st = []) ∧
  (cues st ≠ [] → 0 ≤ current_cue_index st < Z.of_nat (length (cues st))).

(** ** A running example *)

(** A cue as an earlier session saved it. *)
Definition example_cue (id : Uuid) (num : string) (key : Q) (chans : list Z) : Cue :=
  mkCue (Some id) num (float_finite key) ("Cue " +:+ num) chans.

(** A show with three channels and three cues whose sort keys are stored
    as 3, 1 and 2.5. *)
Definition example_show : ShowDocument :=
  mkShowDocument
    (<[1 := default_channel 1]> (<[2 := default_channel 2]> (<[3 := default_channel 3]> ∅)))
    [example_cue 1003 "3" 3 [3]; example_cue 1001 "1" 1 [1; 2];
     example_cue 1002 "2.5" (5 # 2) [2]].

Definition example_loaded : TransmitterWindow :=
  state_of (load_config (Some example_show) (initial_window "tx_1a2b3c4d")).

(** Channel 2 of the example once Master Standby was pressed on it. *)
Definition channel_2_standing_by : Channel :=
  mkChannel "Channel 2" "Magenta" "#E91E63" "#FFFFFF" (Some standby_master) (Some []).

(** A show with the three channels of the example and one cue. *)
Definition single_cue_show : ShowDocument :=
  mkShowDocument (doc_channels example_show) [example_cue 1001 "1" 1 [1; 2]].

(** ** Saving the show *)

(** [{k2: v2 for k2, v2 in v.items() if k2 not in ['status', 'confirmed_subscribers']}] *)
Definition channel_to_save (ch : Channel) : Channel :=
  mkChannel (label ch) (colorName ch) (colorHex ch) (textColorHex ch) None None.

(** [config_to_save], the document [save_config] dumps to the show file
    (its ["transmitter_name"] entry is never read back). *)
Definition config_to_save (self : TransmitterWindow) : ShowDocument :=
  mkShowDocument (channel_to_save <$> channels_data self) (cues self).

(** ** Channel configuration view *)

(** [COLOR_OPTIONS_PY[name]]; [None] is [KeyError]. *)
Definition color_option (name : string) : option (string * string) :=
  (list_to_map COLOR_OPTIONS_PY : gmap string (string * string)) !! name.

(** [ChannelConfigWidget]: its private copy of the channel table and, for
    each of the eight rows, the text of the name edit and the current
    text of the colour combo. *)
Record ChannelConfigWidget := mkChannelConfigWidget {
  temp_channels_data : gmap Z Channel;
  widgets : list (Z * (string * string))
}.

(** The widget as [_init_ui] builds it: empty names, first colour. *)
Definition initial_config_widget : ChannelConfigWidget :=
  mkChannelConfigWidget ∅ ((λ i, (Z.of_nat i, ("", "White"))) <$> seq 1 8).

(** [name_edit.setText]: the edits are built with [setMaxLength(12)], and
    a line edit keeps the first characters of a longer text. *)
Definition name_edit_set_text (text : string) : string := String.substring 0 12 text.

(** [update_config]: deep copy of the table; a row whose channel exists
    shows its label and, when the colour name is one of the combo's
    items, its colour. *)
Definition update_config (channels : gmap Z Channel)
    (self : ChannelConfigWidget) : ChannelConfigWidget :=
  mkChannelConfigWidget channels
    ((λ row : Z * (string * string),
        match channels !! row.1 with
        | Some channel_data =>
          (row.1, (name_edit_set_text (label channel_data),
                   match color_option (colorName channel_data) with
                   | Some _ => colorName channel_data
                   | None => row.2.2
                   end))
        | None => row
        end) <$> widgets self).

(** [show_channel_config_view]: the widget copies the live table. *)
Definition show_channel_config_view (self : TransmitterWindow)
    (w : ChannelConfigWidget) : ChannelConfigWidget :=
  update_config (channels_data self) w.

(** One round of the loop of [save_changes]; [None] is [KeyError]. *)
Definition save_changes_row (temp : option (gmap Z Channel))
    (row : Z * (string * string)) : option (gmap Z Channel) :=
  temp ← temp;
  '(new_color_hex, new_text_color_hex) ← color_option row.2.2;
  ch ← temp !! row.1;
  Some (<[row.1 := mkChannel row.2.1 row.2.2 new_color_hex new_text_color_hex
                             (status ch) (confirmed_subscribers ch)]> temp).

(** [save_changes]: the table it emits with [config_save_requested]. *)
Definition save_changes (self : ChannelConfigWidget) : option (gmap Z Channel) :=
  foldl save_changes_row (Some (temp_channels_data self)) (widgets self).

Record ConfigPayload := mkConfigPayload {
  config_label : string;
  config_colorHex : string
}.

(** What [on_config_saved] leaves: the window, the document [save_config]
    dumps and the config messages it publishes. *)
Record ConfigSaved := mkConfigSaved {
  saved_window : TransmitterWindow;
  saved_document : ShowDocument;
  config_messages : list (Topic * ConfigPayload)
}.

(** [on_config_saved]: the new table replaces [channels_data], the show is
    saved, a config message is published per channel and
    [show_manual_view] refreshes the column widgets. *)
Definition on_config_saved (new_channels_data : gmap Z Channel)
    (self : TransmitterWindow) : ConfigSaved :=
  let self := set_channels_data self new_channels_data in
  let document := config_to_save self in
  let messages :=
    (λ kv : Z * Channel,
       (config_channel_topic kv.1, mkConfigPayload (label kv.2) (colorHex kv.2)))
    <$> map_to_list (channels_data self) in
  mkConfigSaved (update_all_channel_displays self) document messages.

(** ** Receiver settings *)

Record ReceiverSettings := mkReceiverSettings {
  settings_name : string;
  settings_channel_id : Z;
  settings_broker_ip : string
}.

(** [save_settings]: name and channel are replaced, the settings file is
    written (returned beside the state) and the MQTT session restarted;
    [channel_id] is the combo text after [int(...)]. *)
Definition save_settings (name : string) (channel_id : Z) (broker_ip : string)
    (self : ReceiverWindow) : ReceiverWindow * ReceiverSettings :=
  (mkReceiver (receiver_id self) name channel_id
     (current_request_id self) (current_response_topic self) (is_confirmed self)
     (confirm_button_visible self) (sent self),
   mkReceiverSettings name channel_id broker_ip).

(** ** The countdown of a column widget *)

Record ChannelColumnWidget := mkChannelColumnWidget {
  current_status : Status;
  countdown_seconds : Z;
  countdown_timer_active : bool;
  status_label : string
}.

(** [update_display], the part that sets the status label and the
    countdown timer. *)
Definition update_display (data : Channel)
    (self : ChannelColumnWidget) : ChannelColumnWidget :=
  let st := get_status data in
  if bool_decide (st = standby_master ∨ st = standby_solo)
  then mkChannelColumnWidget st (countdown_seconds self) false "STANDBY"
  else if decide (st = go)
  then let n := GO_DURATION_MS `div` 1000 in
       mkChannelColumnWidget st n true ("GO! (" +:+ pretty n +:+ ")")
  else mkChannelColumnWidget st (countdown_seconds self) false "IDLE".

(** [_update_countdown_display], the slot of the 1000 ms timer. *)
Definition _update_countdown_display (self : ChannelColumnWidget) : ChannelColumnWidget :=
  let n := countdown_seconds self - 1 in
  if decide (n >= 0)
  then mkChannelColumnWidget (current_status self) n (countdown_timer_active self)
         ("GO! (" +:+ pretty n +:+ ")")
  else mkChannelColumnWidget (current_status self) n false (status_label self).

(** One timeout of the countdown timer: the slot runs while the timer is
    active. *)
Definition countdown_tick (self : ChannelColumnWidget) : ChannelColumnWidget :=
  if countdown_timer_active self then _update_countdown_display self else self.

(** ** Vocabulary of the further properties *)

(** The states [TransmitterWindow.__init__] can end in: the start-up
    dialog's load was cancelled, a new show was created, or a show (or,
    for a missing or unreadable file, the default) was loaded. *)
Inductive startup_state : TransmitterWindow → Prop :=
  | startup_cancelled tx_id : startup_state (initial_window tx_id)
  | startup_new tx_id :
      startup_state (state_of (handle_new_config (initial_window tx_id)))
  | startup_loaded file tx_id :
      startup_state (state_of (load_config file (initial_window tx_id))).

(** What the channel state machine works on is the same in both states:
    only the cue pointer, the armed flag, the buttons or the column
    widgets may differ. *)
Record same_protocol_state (st st' : TransmitterWindow) : Prop :=
  mk_same_protocol_state {
  sp_channels : channels_data st' = channels_data st;
  sp_pending : pending_requests st' = pending_requests st;
  sp_uuid : uuid_next st' = uuid_next st;
  sp_published : published st' = published st;
  sp_timers : timers st' = timers st;
  sp_clock : clock st' = clock st;
  sp_tx : transmitter_id st' = transmitter_id st
}.

(** What it takes for a property of states to survive every intent. *)
Record kept_by_steps (P : TransmitterWindow → Prop) : Prop := mk_kept_by_steps {
  kept_frame : ∀ st st', same_protocol_state st st' → P st → P st';
  kept_status_change : ∀ c new st,
    well_formed st → P st → P (state_of (handle_status_change c new st));
  kept_confirmed : ∀ c ch name st,
    channels_data st !! c = Some ch → P st →
    P (set_channels_data st (<[c := confirmed_by name ch]> (channels_data st)));
  kept_elapse : ∀ d st, well_formed st → P st → P (elapse d st)
}.

(** Every pending request belongs to a configured channel that is in a
    standby state. *)
Definition requests_for_standby (st : TransmitterWindow) : Prop :=
  ∀ r c, pending_requests st !! r = Some c →
    ∃ ch, channels_data st !! c = Some ch ∧ is_standby (get_status ch) = true.

(** No subscriber list holds a name twice. *)
Definition subscribers_nodup (st : TransmitterWindow) : Prop :=
  ∀ c ch, channels_data st !! c = Some ch → NoDup (get_confirmed ch).



(** [n] presses of Next. *)
Definition next_times (n : nat) (st : TransmitterWindow) : TransmitterWindow :=
  Nat.iter n (λ s, state_of (next_cue s)) st.

(** [n] timeouts of the countdown timer. *)
Definition countdown_ticks (n : nat) (w : ChannelColumnWidget) : ChannelColumnWidget :=
  Nat.iter n countdown_tick w.

(** The user typed names and picked colours: the rows of the
    configuration view hold [rows], its copy of the table is untouched. *)
Definition edit_rows (rows : list (Z * (string * string)))
    (w : ChannelConfigWidget) : ChannelConfigWidget :=
  mkChannelConfigWidget (temp_channels_data w) rows.

(** Two channel tables with the same keys whose entries agree on status
    and subscribers. *)
Definition same_live_state (m m' : gmap Z Channel) : Prop :=
  ∀ i, match m !! i, m' !! i with
       | Some ch, Some ch' =>
         status ch' = status ch ∧ confirmed_subscribers ch' = confirmed_subscribers ch
       | None, None => True
       | _, _ => False
       end.


(** What happens in a session of the transmitter: an intent, File > Load
    Show (or the start-up "continue"), File > New Show. *)
Inductive Event :=
  | intent (i : Intent)
  | load_show (file : option ShowDocument)
  | new_show.

Definition handle (e : Event) (self : TransmitterWindow) : TransmitterWindow :=
  match e with
  | intent i => step i self
  | load_show file => state_of (load_config file self)
  | new_show => state_of (handle_new_config self)
  end.

Definition play (l : list Event) (self : TransmitterWindow) : TransmitterWindow :=
  foldl (λ s e, handle e s) self l.





(** * Proofs *)

(** ** Basic facts *)

Lemma is_standby_cases s :
  is_standby s = bool_decide (s = standby_master ∨ s = standby_solo).
Proof. by destruct s. Qed.

Lemma py_index_in_range {A} (l : list A) i :
  0 ≤ i < Z.of_nat (length l) → is_Some (py_index l i).
Proof.
  intros [Hlo Hhi]. unfold py_index.
  destruct (Z.leb_spec 0 i); [|lia].
  apply lookup_lt_is_Some. lia.
Qed.

Lemma lookup_revoke_requests c (p : gmap Uuid Z) r :
  revoke_requests c p !! r =
  match p !! r with
  | Some ch => if decide (ch = c) then None else Some ch
  | None => None
  end.
Proof.
  unfold revoke_requests.
  assert (Hfold : ∀ (l : list Uuid) (m : gmap Uuid Z),
    foldl (λ m req_id, delete req_id m) m l !! r =
    if decide (r ∈ l) then None else m !! r).
  { induction l as [|x l IH]; intros m; cbn [foldl].
    - by rewrite decide_False by apply not_elem_of_nil.
    - rewrite IH. destruct (decide (r = x)) as [->|Hne].
      + rewrite lookup_delete_eq.
        rewrite (decide_True (P := x ∈ x :: l)) by apply list_elem_of_here.
        by destruct (decide _).
      + rewrite lookup_delete_ne by done.
        destruct (decide (r ∈ l)).
        * by rewrite decide_True by by apply list_elem_of_further.
        * rewrite decide_False; [done|].
          intros [?|?]%elem_of_cons; congruence. }
  rewrite Hfold. unfold requests_to_remove.
  destruct (p !! r) as [ch|] eqn:Hr.
  - destruct (decide (ch = c)) as [->|Hne].
    + rewrite decide_True; [done|].
      apply list_elem_of_fmap. exists (r, c). split; [done|].
      apply list_elem_of_filter. split; [done|]. by apply elem_of_map_to_list.
    + rewrite decide_False; [done|].
      intros ([r' c'] & -> & Hin)%list_elem_of_fmap.
      apply list_elem_of_filter in Hin as [Hc Hin]. simpl in *.
      apply elem_of_map_to_list in Hin. congruence.
  - rewrite decide_False; [done|].
    intros ([r' c'] & -> & Hin)%list_elem_of_fmap.
    apply list_elem_of_filter in Hin as [Hc Hin]. simpl in *.
    apply elem_of_map_to_list in Hin. congruence.
Qed.

(** ** What one call of [handle_status_change] does *)

Lemma handle_status_change_unconfigured c new st :
  channels_data st !! c = None → handle_status_change c new st = Done st.
Proof. intros H. unfold handle_status_change. by rewrite H. Qed.

Lemma lookup_update_all_channel_displays st i :
  channel_widgets (update_all_channel_displays st) !! i =
  (λ w, match channels_data st !! i with
        | Some ch => get_status ch
        | None => w
        end) <$> channel_widgets st !! i.
Proof.
  unfold update_all_channel_displays. simpl.
  rewrite map_lookup_imap. by destruct (channel_widgets st !! i).
Qed.

Lemma handle_status_change_core c new ch st :
  channels_data st !! c = Some ch →
  status_change_core c new ch st (state_of (handle_status_change c new st)).
Proof.
  intros H. unfold handle_status_change. rewrite H.
  destruct (is_standby (get_status ch)) eqn:Hold, (is_standby new) eqn:Hnew; simpl;
    destruct (decide (current_cue_index st = -1)); simpl;
    try destruct (py_index _ _); simpl;
    try destruct (decide (new = go)); simpl;
    split; unfold pending_after; rewrite ?Hold, ?Hnew; done.
Qed.

Lemma handle_status_change_finish c new ch st :
  pointer_ok st → channels_data st !! c = Some ch →
  ∃ st', handle_status_change c new st = Done st' ∧
         status_change_finish c new ch st st'.
Proof.
  intros Hptr H. unfold handle_status_change. rewrite H.
  assert (Hidx : current_cue_index st = -1 ∨
                 is_Some (py_index (cues st) (current_cue_index st))).
  { destruct Hptr as [?|?]; [by left|right; by apply py_index_in_range]. }
  destruct new, (is_standby (get_status ch)); simpl;
    (destruct (decide (current_cue_index st = -1)) as [Hm1|Hm1]; simpl;
     [|destruct Hidx as [?|[cue Hcue]]; [done|rewrite Hcue]]);
    (eexists; split; [done|]);
    (split; simpl;
     [eexists; split_and!; done
     |intros i; rewrite map_lookup_imap; by destruct (channel_widgets st !! i)
     |done]).
Qed.

Lemma status_of_handle_status_change c new st c' :
  status_of (state_of (handle_status_change c new st)) c' =
  if decide (c' = c) then (λ _, new) <$> status_of st c' else status_of st c'.
Proof.
  unfold status_of. destruct (channels_data st !! c) as [ch|] eqn:Hc.
  - rewrite (scc_channels _ _ _ _ _ (handle_status_change_core c new ch st Hc)).
    destruct (decide (c' = c)) as [->|Hne].
    + by rewrite lookup_insert_eq, Hc.
    + by rewrite lookup_insert_ne.
  - rewrite handle_status_change_unconfigured by done. simpl.
    destruct (decide (c' = c)) as [->|Hne]; [by rewrite Hc|done].
Qed.

(** A call never touches another channel's entry. *)
Lemma handle_status_change_other c new st c' :
  c' ≠ c →
  channels_data (state_of (handle_status_change c new st)) !! c' =
  channels_data st !! c'.
Proof.
  intros Hne. destruct (channels_data st !! c) as [ch|] eqn:Hc.
  - rewrite (scc_channels _ _ _ _ _ (handle_status_change_core c new ch st Hc)).
    by rewrite lookup_insert_ne.
  - by rewrite handle_status_change_unconfigured.
Qed.

Lemma pending_after_issued c old new fresh (p : gmap Uuid Z) r c' :
  pending_after c old new fresh p !! r = Some c' →
  (r = fresh ∧ is_standby new = true) ∨ p !! r = Some c'.
Proof.
  unfold pending_after.
  destruct (is_standby new); [destruct (decide (r = fresh)) as [->|Hne]|].
  - intros _. by left.
  - rewrite lookup_insert_ne by done. intros H. right. revert H.
    destruct (is_standby old && negb true); [|done].
    rewrite lookup_revoke_requests. destruct (p !! r); [|done]. by case_decide.
  - intros H. right. revert H.
    destruct (is_standby old && negb false); [|done].
    rewrite lookup_revoke_requests. destruct (p !! r); [|done]. by case_decide.
Qed.

(** ** The invariants are kept *)

Lemma handle_status_change_well_formed c new st :
  well_formed st →
  ∃ st', handle_status_change c new st = Done st' ∧ well_formed st'.
Proof.
  intros [Hptr Hsync Hreq Hgate].
  destruct (channels_data st !! c) as [ch|] eqn:Hc.
  - destruct (handle_status_change_finish c new ch st Hptr Hc) as (st' & Hdone & Hfin).
    pose proof (handle_status_change_core c new ch st Hc) as Hcore.
    rewrite Hdone in Hcore. simpl in Hcore. destruct Hcore, Hfin.
    exists st'. split; [done|]. split.
    + unfold pointer_ok. by rewrite scc_cues0, scc_index0.
    + intros i w ch' Hw Hch'. rewrite scf_widgets0, Hch' in Hw.
      destruct (channel_widgets st !! i); simpl in Hw; congruence.
    + intros r c' Hr. rewrite scc_pending0 in Hr. rewrite scc_uuid0.
      apply pending_after_issued in Hr as [[-> ->]|Hr]; [lia|].
      apply Hreq in Hr. destruct (is_standby new); lia.
    + unfold arm_gate. by rewrite scc_armed0, scc_arm_btn0.
  - exists st. by rewrite handle_status_change_unconfigured.
Qed.

Lemma for_each_invariant {A} (P : TransmitterWindow → Prop)
    (body : A → TransmitterWindow → Outcome) l st :
  (∀ x s, x ∈ l → P s → ∃ s', body x s = Done s' ∧ P s') →
  P st → ∃ st', for_each l body st = Done st' ∧ P st'.
Proof.
  revert st. induction l as [|x l IH]; intros st Hbody HP; simpl.
  - by exists st.
  - destruct (Hbody x st) as (s' & -> & HP'); [apply list_elem_of_here|done|]. simpl.
    apply IH; [|done]. intros y s Hy. apply Hbody. by apply list_elem_of_further.
Qed.

Lemma update_cue_header_display_done st :
  pointer_ok st →
  ∃ arm_btn go_btn,
    update_cue_header_display st = Done (set_cue_buttons st arm_btn go_btn) ∧
    (is_current_cue_armed st = true → arm_btn = false).
Proof.
  intros Hptr. unfold update_cue_header_display.
  destruct (decide _) as [[Hidx Hne]|Hno].
  - destruct Hptr as [?|Hin]; [done|].
    destruct (py_index_in_range _ _ Hin) as [cue ->].
    do 2 eexists. split; [done|]. by intros ->.
  - by do 2 eexists.
Qed.

Lemma requests_extend_refl st : requests_extend st st.
Proof. split; [lia|]. intros r c H. by left. Qed.

Lemma requests_extend_trans st1 st2 st3 :
  requests_extend st1 st2 → requests_extend st2 st3 → requests_extend st1 st3.
Proof.
  intros [Hle1 H1] [Hle2 H2]. split; [lia|].
  intros r c Hr. destruct (H2 r c Hr) as [Hr2|Hge]; [|right; lia].
  by apply H1.
Qed.

Lemma same_sequencer_refl st : same_sequencer st st.
Proof. by split. Qed.

Lemma same_sequencer_trans st1 st2 st3 :
  same_sequencer st1 st2 → same_sequencer st2 st3 → same_sequencer st1 st3.
Proof. intros [] []. split; congruence. Qed.

Lemma pointer_ok_same_sequencer st st' :
  same_sequencer st st' → pointer_ok st → pointer_ok st'.
Proof. intros [Hc Hi _ _ _ _]. unfold pointer_ok. by rewrite Hc, Hi. Qed.

Lemma arm_gate_same_sequencer st st' :
  same_sequencer st st' → arm_gate st → arm_gate st'.
Proof. intros [_ _ Ha Hb _ _]. unfold arm_gate. by rewrite Ha, Hb. Qed.

Lemma handle_status_change_spec c new st :
  well_formed st →
  ∃ st', handle_status_change c new st = Done st' ∧
         well_formed st' ∧ requests_extend st st' ∧ same_sequencer st st' ∧
         channels_data st' = alter (with_status new) c (channels_data st).
Proof.
  intros Hwf.
  destruct (handle_status_change_well_formed c new st Hwf) as (st' & Hdone & Hwf').
  exists st'. split; [done|]. split; [done|].
  destruct (channels_data st !! c) as [ch|] eqn:Hc.
  - pose proof (handle_status_change_core c new ch st Hc) as Hcore.
    rewrite Hdone in Hcore. simpl in Hcore.
    destruct Hcore as [Hch Hpend Huuid Hcues Hidx Harm Hab Hgb Htx Hclk].
    split_and!.
    + split; [rewrite Huuid; destruct (is_standby new); lia|].
      intros r c' Hr. rewrite Hpend in Hr.
      apply pending_after_issued in Hr as [[-> _]|Hr]; [right; lia|by left].
    + by split.
    + rewrite Hch. apply map_eq. intros i. rewrite lookup_alter.
      destruct (decide (c = i)) as [->|Hne].
      * by rewrite lookup_insert_eq, Hc.
      * by rewrite lookup_insert_ne.
  - rewrite handle_status_change_unconfigured in Hdone by done.
    injection Hdone as <-. split_and!.
    + apply requests_extend_refl.
    + apply same_sequencer_refl.
    + apply map_eq. intros i. rewrite lookup_alter.
      destruct (decide (c = i)) as [->|Hne]; [by rewrite Hc|done].
Qed.

(** [for channel_id in l: handle_status_change(channel_id, new)] *)
Lemma for_each_status_change_spec l new st :
  well_formed st →
  ∃ st', for_each l (λ c, handle_status_change c new) st = Done st' ∧
         well_formed st' ∧ requests_extend st st' ∧ same_sequencer st st' ∧
         ∀ c, channels_data st' !! c =
              if decide (c ∈ l) then with_status new <$> channels_data st !! c
              else channels_data st !! c.
Proof.
  revert st. induction l as [|x l IH]; intros st Hwf; simpl.
  - exists st. split_and!; try done. apply requests_extend_refl.
  - destruct (handle_status_change_spec x new st Hwf)
      as (st1 & -> & Hwf1 & Hreq1 & Hsq1 & Hch1). simpl.
    destruct (IH st1 Hwf1) as (st' & Hdone & Hwf' & Hreq' & Hsq' & Hch').
    exists st'. split_and!; try done.
    + by eapply requests_extend_trans.
    + by eapply same_sequencer_trans.
    + intros c. rewrite Hch', Hch1, lookup_alter.
      destruct (decide (x = c)) as [->|Hne].
      * rewrite (decide_True (P := c ∈ c :: l)) by apply list_elem_of_here.
        destruct (decide (c ∈ l)); [|done].
        by destruct (channels_data st !! c).
      * destruct (decide (c ∈ l)).
        -- by rewrite decide_True by by apply list_elem_of_further.
        -- rewrite decide_False; [done|].
           intros [?|?]%elem_of_cons; congruence.
Qed.

Lemma well_formed_set_channel st c ch ch' :
  well_formed st → channels_data st !! c = Some ch →
  get_status ch' = get_status ch →
  well_formed (set_channels_data st (<[c := ch']> (channels_data st))).
Proof.
  intros [Hptr Hsync Hreq Hgate] Hc Hst. split; try done.
  intros i w chi Hw. simpl. destruct (decide (c = i)) as [->|Hne].
  - rewrite lookup_insert_eq. intros [= <-]. rewrite Hst. by eapply Hsync.
  - rewrite lookup_insert_ne by done. by apply Hsync.
Qed.

Lemma revert_go_to_idle_spec c st :
  well_formed st →
  ∃ st', revert_go_to_idle c st = Done st' ∧
         well_formed st' ∧ requests_extend st st' ∧ same_sequencer st st' ∧
         timers st' = timers st ∧
         ∀ c', channels_data st' !! c' =
               match channels_data st !! c' with
               | Some ch => Some (if decide (c' = c ∧ status ch = Some go)
                                  then reverted ch else ch)
               | None => None
               end.
Proof.
  intros Hwf. unfold revert_go_to_idle.
  destruct (channels_data st !! c) as [ch|] eqn:Hc.
  - destruct (decide (status ch = Some go)) as [Hgo|Hgo].
    + set (st1 := match confirmed_subscribers ch with
                  | Some _ => _ | None => st end).
      assert (Hwf1 : well_formed st1).
      { subst st1. destruct (confirmed_subscribers ch); [|done].
        by eapply well_formed_set_channel. }
      assert (Hch1 : channels_data st1 =
                <[c := match confirmed_subscribers ch with
                       | Some _ => with_confirmed_subscribers [] ch
                       | None => ch end]> (channels_data st)).
      { subst st1. destruct (confirmed_subscribers ch); [done|].
        by rewrite insert_id. }
      assert (Hrest : pending_requests st1 = pending_requests st ∧
                      uuid_next st1 = uuid_next st ∧ same_sequencer st st1 ∧
                      timers st1 = timers st).
      { subst st1. by destruct (confirmed_subscribers ch). }
      destruct Hrest as (Hp1 & Hu1 & Hsq1 & Ht1).
      destruct (handle_status_change_spec c idle st1 Hwf1)
        as (st' & Hdone & Hwf' & [Hle Hreq'] & Hsq' & Hch').
      exists st'. split_and!; try done.
      * split; [lia|]. intros r c' Hr.
        destruct (Hreq' r c' Hr) as [?|?]; [left; congruence|right; lia].
      * by eapply same_sequencer_trans.
      * assert (Hc1 : is_Some (channels_data st1 !! c)).
        { rewrite Hch1, lookup_insert_eq. by eexists. }
        destruct Hc1 as [ch1 Hc1].
        destruct (handle_status_change_finish c idle ch1 st1 (wf_pointer _ Hwf1) Hc1)
          as (st'' & Hdone' & Hfin).
        rewrite Hdone in Hdone'. injection Hdone' as <-.
        by rewrite (scf_timers _ _ _ _ _ Hfin).
      * intros c'. rewrite Hch', lookup_alter, Hch1.
        destruct (decide (c = c')) as [<-|Hne].
        -- rewrite lookup_insert_eq, Hc. simpl.
           by rewrite decide_True by done.
        -- rewrite lookup_insert_ne by done.
           destruct (channels_data st !! c'); [|done].
           by rewrite decide_False by (intros [? _]; congruence).
    + exists st. split_and!; try done.
      * apply requests_extend_refl.
      * intros c'. destruct (channels_data st !! c') as [ch'|] eqn:Hc'; [|done].
        rewrite decide_False; [done|]. intros [-> ?]. congruence.
  - exists st. split_and!; try done.
    + apply requests_extend_refl.
    + intros c'. destruct (channels_data st !! c') as [ch'|] eqn:Hc'; [|done].
      rewrite decide_False; [done|]. intros [-> ?]. congruence.
Qed.

Lemma well_formed_set_clock st t : well_formed st → well_formed (set_clock st t).
Proof. by intros []. Qed.

Lemma well_formed_set_timers st l : well_formed st → well_formed (set_timers st l).
Proof. by intros []. Qed.

Lemma run_timers_spec due st :
  well_formed st →
  well_formed (run_timers due st) ∧
  requests_extend st (run_timers due st) ∧
  same_sequencer st (run_timers due st) ∧
  timers (run_timers due st) = timers st ∧
  ∀ c, channels_data (run_timers due st) !! c =
       match channels_data st !! c with
       | Some ch => Some (if decide (c ∈ due.*2 ∧ status ch = Some go)
                          then reverted ch else ch)
       | None => None
       end.
Proof.
  revert st. induction due as [|tm due IH]; intros st Hwf.
  - change (run_timers [] st) with st.
    split_and!; try done; [apply requests_extend_refl|].
    intros c. destruct (channels_data st !! c); [|done].
    rewrite decide_False; [done|]. intros [[]%elem_of_nil _].
  - change (run_timers (tm :: due) st)
      with (run_timers due (state_of (revert_go_to_idle tm.2 (set_clock st tm.1)))).
    destruct (revert_go_to_idle_spec tm.2 (set_clock st tm.1))
      as (st1 & Hdone & Hwf1 & Hreq1 & Hsq1 & Htm1 & Hch1);
      [by apply well_formed_set_clock|].
    rewrite Hdone. cbn [state_of].
    destruct (IH st1 Hwf1) as (Hwf' & Hreq' & Hsq' & Htm' & Hch').
    split_and!; [done| | | |].
    + eapply requests_extend_trans; [|done]. exact Hreq1.
    + eapply same_sequencer_trans; [|done]. by destruct Hsq1.
    + by rewrite Htm', Htm1.
    + intros c. rewrite Hch', Hch1. cbn [channels_data set_clock].
      destruct (channels_data st !! c) as [ch|]; [|done]. f_equal.
      destruct (decide (c = tm.2 ∧ status ch = Some go)) as [[-> Hgo]|Hno].
      * rewrite decide_False by (intros [_ ?]; by destruct (confirmed_subscribers ch)).
        rewrite decide_True; [done|].
        split; [rewrite fmap_cons; apply list_elem_of_here|done].
      * destruct (decide (c ∈ due.*2 ∧ status ch = Some go)) as [[Hin Hgo]|Hno'].
        -- rewrite decide_True; [done|].
           split; [rewrite fmap_cons; by apply list_elem_of_further|done].
        -- rewrite decide_False; [done|].
           rewrite fmap_cons, elem_of_cons. intros [[->|Hin] Hgo]; tauto.
Qed.

Lemma elapse_spec d st :
  well_formed st →
  well_formed (elapse d st) ∧
  requests_extend st (elapse d st) ∧
  same_sequencer st (elapse d st) ∧
  clock (elapse d st) = clock st + Z.max 0 d ∧
  timers (elapse d st) =
    filter (λ tm, ¬ timer_due (clock st + Z.max 0 d) tm) (timers st) ∧
  ∀ c, channels_data (elapse d st) !! c =
       match channels_data st !! c with
       | Some ch =>
         Some (if decide (c ∈ (filter (timer_due (clock st + Z.max 0 d)) (timers st)).*2
                          ∧ status ch = Some go)
               then reverted ch else ch)
       | None => None
       end.
Proof.
  intros Hwf. unfold elapse.
  set (t := clock st + Z.max 0 d).
  set (st0 := set_timers st _).
  destruct (run_timers_spec (filter (timer_due t) (timers st)) st0)
    as (Hwf' & Hreq' & Hsq' & Htm' & Hch'); [by apply well_formed_set_timers|].
  split_and!; try done.
  - by apply well_formed_set_clock.
  - by destruct Hsq'.
Qed.

(** ** Confirmations: frame *)

Lemma on_confirmation_received_unresolved decoded st :
  (decoded ≫= conf_request_id) ≫= (λ r, pending_requests st !! r) = None →
  on_confirmation_received decoded st = st.
Proof.
  unfold on_confirmation_received. destruct decoded as [data|]; [|done].
  simpl. by intros ->.
Qed.

Lemma on_confirmation_received_resolved data r c st :
  conf_request_id data = Some r → pending_requests st !! r = Some c →
  let st' := on_confirmation_received (Some data) st in
  channels_data st' =
    alter (confirmed_by (default "Unknown Receiver" (conf_receiver_name data))) c
          (channels_data st) ∧
  pending_requests st' = pending_requests st ∧
  uuid_next st' = uuid_next st ∧
  published st' = published st ∧
  timers st' = timers st ∧
  clock st' = clock st ∧
  same_sequencer st st'.
Proof.
  intros Hr Hp. unfold on_confirmation_received. rewrite Hr. simpl. rewrite Hp.
  destruct (channels_data st !! c) as [ch|] eqn:Hc.
  - split_and!; try done. simpl. apply map_eq. intros i.
    rewrite lookup_alter. destruct (decide (c = i)) as [->|Hne].
    + by rewrite lookup_insert_eq, Hc.
    + by rewrite lookup_insert_ne.
  - split_and!; try done. apply map_eq. intros i. rewrite lookup_alter.
    destruct (decide (c = i)) as [->|Hne]; [by rewrite Hc|done].
Qed.

Lemma on_confirmation_received_well_formed decoded st :
  well_formed st →
  well_formed (on_confirmation_received decoded st) ∧
  requests_extend st (on_confirmation_received decoded st) ∧
  same_sequencer st (on_confirmation_received decoded st) ∧
  ∀ c, status_of (on_confirmation_received decoded st) c = status_of st c.
Proof.
  intros Hwf.
  destruct ((decoded ≫= conf_request_id) ≫= (λ r, pending_requests st !! r))
    as [c|] eqn:Hres.
  - destruct decoded as [data|]; [|done]. simpl in Hres.
    destruct (conf_request_id data) as [r|] eqn:Hr; [|done]. simpl in Hres.
    destruct (on_confirmation_received_resolved data r c st Hr Hres)
      as (Hch & Hp & Hu & Hpub & Htm & Hclk & Hsq).
    split_and!; [|split; [lia|intros ??; rewrite Hp; by left]|done|].
    + destruct Hwf as [Hptr Hsync Hreq Hgate]. split.
      * by eapply pointer_ok_same_sequencer.
      * intros i w ch Hw Hi. revert Hw. unfold on_confirmation_received.
        rewrite Hr. simpl. rewrite Hres.
        destruct (channels_data st !! c) as [chc|] eqn:Hc.
        -- rewrite lookup_update_all_channel_displays. cbn [channels_data set_channels_data].
           unfold on_confirmation_received in Hi. rewrite Hr in Hi. simpl in Hi.
           rewrite Hres, Hc in Hi. simpl in Hi. rewrite Hi.
           destruct (channel_widgets _ !! i); simpl; congruence.
        -- unfold on_confirmation_received in Hi. rewrite Hr in Hi. simpl in Hi.
           rewrite Hres, Hc in Hi. intros Hw. by eapply Hsync.
      * intros r' c' H'. rewrite Hp in H'. rewrite Hu. by eapply Hreq.
      * by eapply arm_gate_same_sequencer.
    + intros c'. unfold status_of. rewrite Hch, lookup_alter.
      destruct (decide (c = c')) as [->|]; [|done].
      by destruct (channels_data st !! c').
  - rewrite on_confirmation_received_unresolved by done.
    split_and!; try done. apply requests_extend_refl.
Qed.

Lemma confirmed_by_fields name ch :
  status (confirmed_by name ch) = status ch ∧
  label (confirmed_by name ch) = label ch ∧
  colorName (confirmed_by name ch) = colorName ch ∧
  colorHex (confirmed_by name ch) = colorHex ch ∧
  textColorHex (confirmed_by name ch) = textColorHex ch ∧
  get_confirmed (confirmed_by name ch) =
    if decide (name ∈ get_confirmed ch) then get_confirmed ch
    else get_confirmed ch ++ [name].
Proof. done. Qed.

Lemma elem_of_confirmed_by name ch : name ∈ get_confirmed (confirmed_by name ch).
Proof.
  unfold confirmed_by. simpl.
  destruct (decide (name ∈ get_confirmed ch)); [done|].
  apply elem_of_app. right. apply list_elem_of_here.
Qed.

Lemma confirmed_by_keeps other name ch :
  other ∈ get_confirmed ch → other ∈ get_confirmed (confirmed_by name ch).
Proof.
  intros H. unfold confirmed_by. simpl.
  destruct (decide (name ∈ get_confirmed ch)); [done|].
  apply elem_of_app. by left.
Qed.

(** ** The cue controls *)

Lemma well_formed_set_cue_buttons st arm_btn go_btn :
  well_formed st → (is_current_cue_armed st = true → arm_btn = false) →
  well_formed (set_cue_buttons st arm_btn go_btn).
Proof. by intros []. Qed.

Lemma well_formed_disarm st :
  well_formed st → well_formed (set_is_current_cue_armed st false).
Proof. by intros []. Qed.

Lemma arm_current_cue_spec st :
  well_formed st →
  ∃ st', arm_current_cue st = Done st' ∧
         well_formed st' ∧ requests_extend st st' ∧
         cues st' = cues st ∧ current_cue_index st' = current_cue_index st ∧
         (∀ c, channels_data st' !! c =
               if decide (c ∈ driven_by_cue st)
               then with_status standby_master <$> channels_data st !! c
               else channels_data st !! c) ∧
         (current_cue_index st = -1 ∨ cues st = [] → st' = st) ∧
         (¬ (current_cue_index st = -1 ∨ cues st = []) →
          is_current_cue_armed st' = true).
Proof.
  intros Hwf. unfold arm_current_cue, driven_by_cue.
  destruct (decide (current_cue_index st = -1 ∨ cues st = [])) as [Hno|Hyes].
  - exists st. split_and!; try done. apply requests_extend_refl.
  - destruct (wf_pointer _ Hwf) as [?|Hin]; [tauto|].
    destruct (py_index_in_range _ _ Hin) as [cue ->].
    destruct (for_each_status_change_spec (channelsInCue cue) standby_master st Hwf)
      as (st1 & -> & Hwf1 & Hreq1 & Hsq1 & Hch1). simpl.
    destruct (update_cue_header_display_done (set_is_current_cue_armed st1 true))
      as (a & g & -> & Ha); [exact (wf_pointer _ Hwf1)|].
    eexists. split; [done|]. destruct Hsq1. split_and!; try done.
    destruct Hwf1 as [Hp1 Hs1 Hr1 Hg1].
    split; [exact Hp1|exact Hs1|exact Hr1|].
    unfold arm_gate. simpl. intros _. by apply Ha.
Qed.

Lemma next_cue_spec st :
  well_formed st →
  ∃ st', next_cue st = Done st' ∧ well_formed st' ∧
         channels_data st' = channels_data st ∧
         pending_requests st' = pending_requests st ∧
         uuid_next st' = uuid_next st ∧
         cues st' = cues st.
Proof.
  intros Hwf. unfold next_cue.
  destruct (decide (length (cues st) = 0%nat)) as [Hz|Hnz]; [by exists st|].
  set (st1 := if decide _ then _ else _).
  assert (H1 : well_formed (set_is_current_cue_armed st1 false) ∧
               channels_data st1 = channels_data st ∧
               pending_requests st1 = pending_requests st ∧
               uuid_next st1 = uuid_next st ∧ cues st1 = cues st).
  { subst st1. destruct Hwf as [Hptr ? ? ?].
    destruct (decide _) as [Hlt|Hge]; (split_and!; try done; split; try done).
    - right. simpl. destruct Hptr; lia.
    - right. simpl. lia. }
  destruct H1 as (Hwf1 & Hch & Hp & Hu & Hc).
  destruct (update_cue_header_display_done (set_is_current_cue_armed st1 false))
    as (a & g & -> & Ha); [exact (wf_pointer _ Hwf1)|].
  eexists. split; [done|]. split_and!; try done.
  by apply well_formed_set_cue_buttons.
Qed.

Lemma prev_cue_spec st :
  well_formed st →
  ∃ st', prev_cue st = Done st' ∧ well_formed st' ∧
         channels_data st' = channels_data st ∧
         pending_requests st' = pending_requests st ∧
         uuid_next st' = uuid_next st ∧
         cues st' = cues st.
Proof.
  intros Hwf. unfold prev_cue.
  destruct (decide (length (cues st) = 0%nat)) as [Hz|Hnz]; [by exists st|].
  set (st1 := if decide _ then _ else _).
  assert (H1 : well_formed (set_is_current_cue_armed st1 false) ∧
               channels_data st1 = channels_data st ∧
               pending_requests st1 = pending_requests st ∧
               uuid_next st1 = uuid_next st ∧ cues st1 = cues st).
  { subst st1. destruct Hwf as [Hptr ? ? ?].
    destruct (decide _) as [Hlt|Hge]; (split_and!; try done; split; try done).
    - right. simpl. destruct Hptr; lia.
    - right. simpl. lia. }
  destruct H1 as (Hwf1 & Hch & Hp & Hu & Hc).
  destruct (update_cue_header_display_done (set_is_current_cue_armed st1 false))
    as (a & g & -> & Ha); [exact (wf_pointer _ Hwf1)|].
  eexists. split; [done|]. split_and!; try done.
  by apply well_formed_set_cue_buttons.
Qed.

Lemma go_current_cue_spec st :
  well_formed st →
  ∃ st', go_current_cue st = Done st' ∧
         well_formed st' ∧ requests_extend st st' ∧ cues st' = cues st ∧
         ∀ c, channels_data st' !! c =
              if decide (c ∈ driven_by_go st)
              then with_status go <$> channels_data st !! c
              else channels_data st !! c.
Proof.
  intros Hwf. unfold go_current_cue, driven_by_go.
  destruct (decide (is_current_cue_armed st = false ∨ _)) as [Hno|Hyes].
  - exists st. split_and!; try done. apply requests_extend_refl.
  - destruct (wf_pointer _ Hwf) as [?|Hin]; [tauto|].
    destruct (py_index_in_range _ _ Hin) as [cue ->].
    destruct (for_each_status_change_spec (channelsInCue cue) go st Hwf)
      as (st1 & -> & Hwf1 & Hreq1 & Hsq1 & Hch1). simpl.
    destruct (next_cue_spec (set_is_current_cue_armed st1 false))
      as (st' & -> & Hwf' & Hch' & Hp' & Hu' & Hc'); [by apply well_formed_disarm|].
    exists st'. split_and!; try done.
    + destruct Hreq1 as [Hle Hr]. split; [by rewrite Hu'|].
      intros r c. rewrite Hp'. apply Hr.
    + rewrite Hc'. by destruct Hsq1.
    + intros c. by rewrite Hch'.
Qed.

(** ** Master GO *)

Lemma for_each_master_go_spec ks st :
  well_formed st →
  ∃ st', for_each ks master_go_body st = Done st' ∧
         well_formed st' ∧ requests_extend st st' ∧ same_sequencer st st' ∧
         ∀ c, channels_data st' !! c =
              match channels_data st !! c with
              | Some ch =>
                Some (if decide (c ∈ ks ∧ status ch = Some standby_master)
                      then with_status go ch else ch)
              | None => None
              end.
Proof.
  revert st. induction ks as [|k ks IH]; intros st Hwf; cbn [for_each].
  - exists st. split_and!; try done; [apply requests_extend_refl|].
    intros c. destruct (channels_data st !! c); [|done].
    rewrite decide_False; [done|]. intros [[]%elem_of_nil _].
  - assert (Hk : ∃ st1, master_go_body k st = Done st1 ∧ well_formed st1 ∧
        requests_extend st st1 ∧ same_sequencer st st1 ∧
        ∀ c, channels_data st1 !! c =
             match channels_data st !! c with
             | Some ch => Some (if decide (c = k ∧ status ch = Some standby_master)
                                then with_status go ch else ch)
             | None => None
             end).
    { unfold master_go_body.
      destruct (channels_data st !! k) as [data|] eqn:Hk.
      - destruct (decide (status data = Some standby_master)) as [Hsm|Hsm].
        + destruct (handle_status_change_spec k go st Hwf)
            as (st1 & -> & Hwf1 & Hreq1 & Hsq1 & Hch1).
          exists st1. split_and!; try done. intros c.
          rewrite Hch1, lookup_alter. destruct (decide (k = c)) as [<-|Hne].
          * rewrite Hk. simpl. by rewrite decide_True.
          * destruct (channels_data st !! c); [|done].
            by rewrite decide_False by (intros [? _]; congruence).
        + exists st. split_and!; try done; [apply requests_extend_refl|].
          intros c. destruct (channels_data st !! c) as [ch|] eqn:Hc; [|done].
          rewrite decide_False; [done|]. intros [-> ?]. congruence.
      - exists st. split_and!; try done; [apply requests_extend_refl|].
        intros c. destruct (channels_data st !! c) as [ch|] eqn:Hc; [|done].
        rewrite decide_False; [done|]. intros [-> ?]. congruence. }
    destruct Hk as (st1 & -> & Hwf1 & Hreq1 & Hsq1 & Hch1). cbn [and_then].
    destruct (IH st1 Hwf1) as (st' & Hdone & Hwf' & Hreq' & Hsq' & Hch').
    exists st'. split_and!; try done.
    + by eapply requests_extend_trans.
    + by eapply same_sequencer_trans.
    + intros c. rewrite Hch', Hch1.
      destruct (channels_data st !! c) as [ch|]; [|done]. f_equal.
      destruct (decide (c = k ∧ status ch = Some standby_master)) as [[-> Hsm]|Hno].
      * rewrite decide_False by (by intros [_ ?]).
        rewrite decide_True; [done|]. split; [apply list_elem_of_here|done].
      * destruct (decide (c ∈ ks ∧ status ch = Some standby_master)) as [[Hin Hsm]|Hno'].
        -- rewrite decide_True; [done|]. split; [by apply list_elem_of_further|done].
        -- rewrite decide_False; [done|].
           rewrite elem_of_cons. intros [[->|Hin] Hsm]; tauto.
Qed.

Lemma fire_master_go_spec st :
  well_formed st →
  ∃ st', fire_master_go st = Done st' ∧
         well_formed st' ∧ requests_extend st st' ∧ same_sequencer st st' ∧
         ∀ c, channels_data st' !! c =
              match channels_data st !! c with
              | Some ch =>
                Some (if decide (status ch = Some standby_master)
                      then with_status go ch else ch)
              | None => None
              end.
Proof.
  intros Hwf.
  destruct (for_each_master_go_spec (map_to_list (channels_data st)).*1 st Hwf)
    as (st' & Hdone & Hwf' & Hreq' & Hsq' & Hch').
  exists st'. split_and!; try done.
  intros c. rewrite Hch'. destruct (channels_data st !! c) as [ch|] eqn:Hc; [|done].
  f_equal. destruct (decide (status ch = Some standby_master)) as [Hsm|Hsm].
  - rewrite decide_True; [done|]. split; [|done].
    apply list_elem_of_fmap. exists (c, ch). split; [done|].
    by apply elem_of_map_to_list.
  - rewrite decide_False; [done|]. tauto.
Qed.

(** ** The standby buttons *)

Lemma master_sb_clicked_spec c st :
  well_formed st →
  ∃ st', master_sb_clicked c st = Done st' ∧
         well_formed st' ∧ requests_extend st st' ∧ same_sequencer st st' ∧
         ∀ c', channels_data st' !! c' =
               match channels_data st !! c' with
               | Some ch =>
                 Some (if decide (c' = c ∧ is_Some (channel_widgets st !! c))
                       then with_status (if decide (get_status ch = standby_master)
                                         then idle else standby_master) ch
                       else ch)
               | None => None
               end.
Proof.
  intros Hwf. unfold master_sb_clicked.
  destruct (channel_widgets st !! c) as [w|] eqn:Hw.
  - set (new := if decide (w = standby_master) then idle else standby_master).
    assert (Hcall : (if decide (w = standby_master)
                     then handle_status_change c idle st
                     else handle_status_change c standby_master st) =
                    handle_status_change c new st).
    { subst new. by destruct (decide _). }
    rewrite Hcall.
    destruct (handle_status_change_spec c new st Hwf)
      as (st' & -> & Hwf' & Hreq' & Hsq' & Hch').
    exists st'. split_and!; try done. intros c'.
    rewrite Hch', lookup_alter. destruct (decide (c = c')) as [<-|Hne].
    + destruct (channels_data st !! c) as [ch|] eqn:Hc; [|done]. simpl.
      rewrite decide_True by (split; [done|by eexists]).
      by rewrite <- (wf_widgets _ Hwf c w ch Hw Hc).
    + destruct (channels_data st !! c'); [|done].
      by rewrite decide_False by (intros [? _]; congruence).
  - exists st. split_and!; try done; [apply requests_extend_refl|].
    intros c'. destruct (channels_data st !! c'); [|done].
    rewrite decide_False; [done|]. by intros [_ [? ?]].
Qed.

Lemma solo_op_clicked_spec c st :
  well_formed st →
  ∃ st', solo_op_clicked c st = Done st' ∧
         well_formed st' ∧ requests_extend st st' ∧ same_sequencer st st' ∧
         ∀ c', channels_data st' !! c' =
               match channels_data st !! c' with
               | Some ch =>
                 Some (if decide (c' = c ∧ is_Some (channel_widgets st !! c))
                       then with_status (if decide (get_status ch = standby_solo)
                                         then go else standby_solo) ch
                       else ch)
               | None => None
               end.
Proof.
  intros Hwf. unfold solo_op_clicked.
  destruct (channel_widgets st !! c) as [w|] eqn:Hw.
  - set (new := if decide (w = standby_solo) then go else standby_solo).
    assert (Hcall : (if decide (w = standby_solo)
                     then handle_status_change c go st
                     else handle_status_change c standby_solo st) =
                    handle_status_change c new st).
    { subst new. by destruct (decide _). }
    rewrite Hcall.
    destruct (handle_status_change_spec c new st Hwf)
      as (st' & -> & Hwf' & Hreq' & Hsq' & Hch').
    exists st'. split_and!; try done. intros c'.
    rewrite Hch', lookup_alter. destruct (decide (c = c')) as [<-|Hne].
    + destruct (channels_data st !! c) as [ch|] eqn:Hc; [|done]. simpl.
      rewrite decide_True by (split; [done|by eexists]).
      by rewrite <- (wf_widgets _ Hwf c w ch Hw Hc).
    + destruct (channels_data st !! c'); [|done].
      by rewrite decide_False by (intros [? _]; congruence).
  - exists st. split_and!; try done; [apply requests_extend_refl|].
    intros c'. destruct (channels_data st !! c'); [|done].
    rewrite decide_False; [done|]. by intros [_ [? ?]].
Qed.

(** ** Every intent keeps the invariants *)

Lemma btn_arm_cue_clicked_spec st :
  well_formed st →
  ∃ st', btn_arm_cue_clicked st = Done st' ∧
         well_formed st' ∧ requests_extend st st' ∧ cues st' = cues st ∧
         ∀ c, channels_data st' !! c =
              if decide (c ∈ (if btn_arm_cue_enabled st then driven_by_cue st else []))
              then with_status standby_master <$> channels_data st !! c
              else channels_data st !! c.
Proof.
  intros Hwf. unfold btn_arm_cue_clicked. destruct (btn_arm_cue_enabled st).
  - destruct (arm_current_cue_spec st Hwf)
      as (st' & Hdone & Hwf' & Hreq' & Hc' & _ & Hch' & _).
    by exists st'.
  - exists st. split_and!; try done. apply requests_extend_refl.
Qed.

Lemma btn_go_cue_clicked_spec st :
  well_formed st →
  ∃ st', btn_go_cue_clicked st = Done st' ∧
         well_formed st' ∧ requests_extend st st' ∧ cues st' = cues st ∧
         ∀ c, channels_data st' !! c =
              if decide (c ∈ (if btn_go_cue_enabled st then driven_by_go st else []))
              then with_status go <$> channels_data st !! c
              else channels_data st !! c.
Proof.
  intros Hwf. unfold btn_go_cue_clicked. destruct (btn_go_cue_enabled st).
  - apply go_current_cue_spec, Hwf.
  - exists st. split_and!; try done. apply requests_extend_refl.
Qed.

Lemma step_well_formed i st :
  well_formed st →
  well_formed (step i st) ∧ requests_extend st (step i st) ∧
  cues (step i st) = cues st.
Proof.
  intros Hwf. destruct i as [c|c| | | | | |d|decoded]; cbn [step].
  - destruct (master_sb_clicked_spec c st Hwf) as (st' & -> & ? & ? & [] & _); by simpl.
  - destruct (solo_op_clicked_spec c st Hwf) as (st' & -> & ? & ? & [] & _); by simpl.
  - destruct (fire_master_go_spec st Hwf) as (st' & -> & ? & ? & [] & _); by simpl.
  - destruct (btn_arm_cue_clicked_spec st Hwf) as (st' & -> & ? & ? & ? & _); by simpl.
  - destruct (btn_go_cue_clicked_spec st Hwf) as (st' & -> & ? & ? & ? & _); by simpl.
  - destruct (next_cue_spec st Hwf) as (st' & -> & ? & ? & Hp & Hu & ?). simpl.
    split_and!; try done. split; [lia|]. intros r c. rewrite Hp. by left.
  - destruct (prev_cue_spec st Hwf) as (st' & -> & ? & ? & Hp & Hu & ?). simpl.
    split_and!; try done. split; [lia|]. intros r c. rewrite Hp. by left.
  - destruct (elapse_spec d st Hwf) as (? & ? & [] & _). by split_and!.
  - destruct (on_confirmation_received_well_formed decoded st Hwf) as (? & ? & [] & _).
    by split_and!.
Qed.

Lemma run_snoc l i st : run (l ++ [i]) st = step i (run l st).
Proof. unfold run. by rewrite foldl_app. Qed.

Lemma run_well_formed l st :
  well_formed st →
  well_formed (run l st) ∧ requests_extend st (run l st) ∧
  cues (run l st) = cues st.
Proof.
  intros Hwf. induction l as [|i l IH] using rev_ind.
  - split_and!; try done. apply requests_extend_refl.
  - rewrite run_snoc. destruct IH as (Hwf' & Hreq' & Hc').
    destruct (step_well_formed i (run l st) Hwf') as (? & ? & ?).
    split_and!; [done| |congruence]. by eapply requests_extend_trans.
Qed.

(** ** Status changes per intent *)

Lemma conforms_change i old new :
  new = old ∨ permitted i old new = true → conforms i (Some old) (Some new).
Proof.
  intros [->|H]; [by left|]. right. by exists old, new.
Qed.

Lemma get_status_with_status new ch : get_status (with_status new ch) = new.
Proof. done. Qed.

Lemma step_conforms i st c :
  well_formed st → conforms i (status_of st c) (status_of (step i st) c).
Proof.
  intros Hwf. unfold status_of.
  destruct i as [c'|c'| | | | | |d|decoded]; cbn [step].
  - destruct (master_sb_clicked_spec c' st Hwf) as (st' & -> & _ & _ & _ & Hch).
    simpl. rewrite Hch. destruct (channels_data st !! c) as [ch|]; [|by left].
    simpl. apply conforms_change. case_decide; [|by left].
    rewrite get_status_with_status.
    destruct (get_status ch); simpl; auto.
  - destruct (solo_op_clicked_spec c' st Hwf) as (st' & -> & _ & _ & _ & Hch).
    simpl. rewrite Hch. destruct (channels_data st !! c) as [ch|]; [|by left].
    simpl. apply conforms_change. case_decide; [|by left].
    rewrite get_status_with_status.
    destruct (get_status ch); simpl; auto.
  - destruct (fire_master_go_spec st Hwf) as (st' & -> & _ & _ & _ & Hch).
    simpl. rewrite Hch. destruct (channels_data st !! c) as [ch|]; [|by left].
    simpl. apply conforms_change. case_decide as Hsm; [|by left].
    rewrite get_status_with_status. unfold get_status. rewrite Hsm. by right.
  - destruct (btn_arm_cue_clicked_spec st Hwf) as (st' & -> & _ & _ & _ & Hch).
    simpl. rewrite Hch. case_decide; [|by left].
    destruct (channels_data st !! c) as [ch|]; [|by left].
    simpl. apply conforms_change. rewrite get_status_with_status.
    destruct (get_status ch); simpl; auto.
  - destruct (btn_go_cue_clicked_spec st Hwf) as (st' & -> & _ & _ & _ & Hch).
    simpl. rewrite Hch. case_decide; [|by left].
    destruct (channels_data st !! c) as [ch|]; [|by left].
    simpl. apply conforms_change. rewrite get_status_with_status.
    destruct (get_status ch); simpl; auto.
  - destruct (next_cue_spec st Hwf) as (st' & -> & _ & Hch & _). simpl.
    rewrite Hch. by left.
  - destruct (prev_cue_spec st Hwf) as (st' & -> & _ & Hch & _). simpl.
    rewrite Hch. by left.
  - destruct (elapse_spec d st Hwf) as (_ & _ & _ & _ & _ & Hch).
    rewrite Hch. destruct (channels_data st !! c) as [ch|]; [|by left].
    simpl. apply conforms_change. case_decide as Hgo; [|by left].
    destruct Hgo as [_ Hgo]. right.
    change (get_status (reverted ch)) with idle. unfold get_status. by rewrite Hgo.
  - left. apply (on_confirmation_received_well_formed decoded st Hwf).
Qed.

(** ** Sorting the cue list *)

Lemma float_lt_asym a b : float_lt a b = true → float_lt b a = false.
Proof.
  destruct a as [| |x|], b as [| |y|]; simpl; try done.
  intros Hlt%negb_true_iff. apply negb_false_iff, Qle_bool_iff.
  destruct (Qlt_le_dec x y) as [Hxy|Hyx]; [by apply Qlt_le_weak|].
  apply Qle_bool_iff in Hyx. congruence.
Qed.

Lemma float_le_not_lt a b : float_le a b = true → float_lt b a = false.
Proof.
  destruct a as [| |x|], b as [| |y|]; simpl; try done.
  intros Hle. by rewrite Hle.
Qed.

Lemma float_not_lt_le a b :
  a ≠ float_nan → b ≠ float_nan → float_lt b a = false → float_le a b = true.
Proof.
  destruct a as [| |x|], b as [| |y|]; simpl; try done.
  intros _ _ Hlt%negb_false_iff. done.
Qed.

Lemma float_le_trans a b c :
  float_le a b = true → float_le b c = true → float_le a c = true.
Proof.
  destruct a as [| |x|], b as [| |y|], c as [| |z|]; simpl; try done.
  rewrite !Qle_bool_iff. apply Qle_trans.
Qed.

Lemma key_lt_asym a b : key_lt a b = true → key_lt b a = false.
Proof. apply float_lt_asym. Qed.

Lemma key_le_has_number a b : key_le a b → has_number a ∧ has_number b.
Proof.
  unfold key_le, has_number.
  by destruct (cueNumberFloat a), (cueNumberFloat b).
Qed.

(** *** The list is permuted *)

Lemma binary_insert_Permutation a pivot : binary_insert a pivot ≡ₚ pivot :: a.
Proof.
  unfold binary_insert. rewrite <- Permutation_middle.
  by rewrite take_drop.
Qed.

Lemma foldl_binary_insert_Permutation rest run :
  foldl binary_insert run rest ≡ₚ run ++ rest.
Proof.
  revert run. induction rest as [|x rest IH]; intros run; cbn [foldl].
  - by rewrite app_nil_r.
  - rewrite IH, binary_insert_Permutation. by rewrite <- Permutation_middle.
Qed.

Lemma sort_cues_Permutation l : sort_cues l ≡ₚ l.
Proof.
  unfold sort_cues. destruct (count_run l) as [n descending].
  rewrite foldl_binary_insert_Permutation.
  trans (take n l ++ drop n l); [|by rewrite take_drop].
  f_equiv. destruct descending; [apply reverse_Permutation|done].
Qed.

Lemma sort_cues_length l : length (sort_cues l) = length l.
Proof. by rewrite sort_cues_Permutation. Qed.

(** *** The result is one ascending run *)

Lemma no_descent_cons x l :
  (∀ y, head l = Some y → key_lt y x = false) → no_descent l → no_descent (x :: l).
Proof. destruct l as [|y l]; [done|]. intros Hhead Hl. split; [by apply Hhead|done]. Qed.

Lemma no_descent_tail x l : no_descent (x :: l) → no_descent l.
Proof. destruct l as [|y l]; [done|]. by intros [_ ?]. Qed.

Lemma no_descent_head x y l : no_descent (x :: y :: l) → key_lt y x = false.
Proof. by intros [? _]. Qed.

Lemma no_descent_snoc l y x :
  no_descent (l ++ [y]) → key_lt x y = false → no_descent ((l ++ [y]) ++ [x]).
Proof.
  induction l as [|z l IH]; intros Hl Hxy; [done|].
  change (no_descent (z :: ((l ++ [y]) ++ [x]))).
  apply no_descent_cons; [|apply IH; [by eapply no_descent_tail|done]].
  intros w Hw. destruct l as [|v l]; simpl in *.
  - injection Hw as <-. by destruct Hl.
  - injection Hw as <-. by destruct Hl.
Qed.

Lemma bisect_spec pivot a fuel l r :
  (r - l ≤ fuel)%nat → (l ≤ r ≤ length a)%nat →
  left_of pivot a l → right_of pivot a r →
  (bisect fuel pivot a l r ≤ length a)%nat ∧
  left_of pivot a (bisect fuel pivot a l r) ∧
  right_of pivot a (bisect fuel pivot a l r).
Proof.
  revert l r. induction fuel as [|fuel IH]; intros l r Hfuel Hlr Hleft Hright.
  - cbn [bisect]. assert (l = r) as -> by lia. split_and!; [lia|done|done].
  - cbn [bisect]. destruct (decide (l < r)%nat) as [Hlt|Hge].
    + assert (Hhalf : ((r - l) / 2 < r - l)%nat) by (apply Nat.div_lt; lia).
      set (p := (l + (r - l) / 2)%nat) in *.
      assert (Hp : (l ≤ p < r)%nat) by (subst p; lia).
      destruct (lookup_lt_is_Some_2 a p) as [x Hx]; [lia|].
      rewrite Hx. destruct (key_lt pivot x) eqn:Hcmp.
      * apply IH; [lia|lia|done|]. intros y Hy. congruence.
      * apply IH; [lia|lia| |done]. intros j y [= <-] Hy. congruence.
    + assert (l = r) as -> by lia. split_and!; [lia|done|done].
Qed.

Lemma no_descent_insert pivot a slot :
  (slot ≤ length a)%nat → no_descent a →
  left_of pivot a slot → right_of pivot a slot →
  no_descent (take slot a ++ pivot :: drop slot a).
Proof.
  revert slot. induction a as [|x a IH]; intros slot Hslot Ha Hleft Hright.
  - by destruct slot.
  - destruct slot as [|slot].
    + cbn [take drop app]. split; [|done].
      apply key_lt_asym, Hright. done.
    + cbn [take drop app]. simpl in Hslot.
      apply no_descent_cons.
      * intros y Hy. destruct slot as [|slot].
        -- cbn [take drop app head] in Hy. injection Hy as <-.
           by apply (Hleft 0%nat x).
        -- destruct a as [|z a]; [simpl in Hslot; lia|].
           cbn [take app head] in Hy. injection Hy as <-.
           by eapply no_descent_head.
      * apply IH; [lia|by eapply no_descent_tail| |].
        -- intros j y -> Hy. by apply (Hleft (S j) y).
        -- intros y Hy. by apply Hright.
Qed.

Lemma binary_insert_no_descent a pivot :
  no_descent a → no_descent (binary_insert a pivot).
Proof.
  intros Ha. unfold binary_insert.
  destruct (bisect_spec pivot a (length a) 0 (length a))
    as (Hslot & Hleft & Hright); [lia|lia|by intros j x [=]| |].
  { intros y Hy. apply lookup_lt_Some in Hy. lia. }
  by apply no_descent_insert.
Qed.

Lemma foldl_binary_insert_no_descent rest run :
  no_descent run → no_descent (foldl binary_insert run rest).
Proof.
  revert run. induction rest as [|x rest IH]; intros run Hrun; [done|].
  cbn [foldl]. by apply IH, binary_insert_no_descent.
Qed.

Lemma ascending_run x rest :
  no_descent (x :: take (run_length false x rest) rest).
Proof.
  revert x. induction rest as [|y rest IH]; intros x; [done|].
  cbn [run_length]. destruct (key_lt y x) eqn:Hyx; [done|].
  cbn [Bool.eqb take]. split; [done|apply IH].
Qed.

Lemma descending_run x rest :
  strict_descent (x :: take (run_length true x rest) rest).
Proof.
  revert x. induction rest as [|y rest IH]; intros x; [done|].
  cbn [run_length]. destruct (key_lt y x) eqn:Hyx; [|done].
  cbn [Bool.eqb take]. split; [done|apply IH].
Qed.

Lemma strict_descent_reverse l : strict_descent l → no_descent (reverse l).
Proof.
  induction l as [|x l IH]; [done|]. intros Hl.
  rewrite reverse_cons. destruct l as [|y l]; [done|].
  destruct Hl as [Hyx Hl]. rewrite reverse_cons.
  apply no_descent_snoc; [|by apply key_lt_asym].
  rewrite <- reverse_cons. by apply IH.
Qed.

Lemma sort_cues_no_descent l : no_descent (sort_cues l).
Proof.
  unfold sort_cues.
  destruct l as [|x [|y rest]]; [done|done|].
  cbn [count_run]. apply foldl_binary_insert_no_descent.
  cbn [take]. destruct (key_lt y x) eqn:Hyx.
  - apply strict_descent_reverse. split; [done|apply descending_run].
  - split; [done|apply ascending_run].
Qed.

(** *** A list that is one ascending run is left as it is *)

Lemma run_length_no_descent x rest :
  no_descent (x :: rest) → run_length false x rest = length rest.
Proof.
  revert x. induction rest as [|y rest IH]; intros x; [done|].
  intros [Hyx Hrest]. cbn [run_length]. rewrite Hyx. cbn [Bool.eqb length].
  by rewrite IH.
Qed.

Lemma sort_cues_fixed l : no_descent l → sort_cues l = l.
Proof.
  unfold sort_cues. destruct l as [|x [|y rest]]; [done|done|].
  intros [Hyx Hrest]. cbn [count_run]. rewrite Hyx.
  rewrite (run_length_no_descent y rest Hrest).
  change (S (S (length rest))) with (length (x :: y :: rest)).
  by rewrite firstn_all, drop_all.
Qed.

(** Sorting twice is sorting once, whatever the keys. *)
Lemma sort_cues_idem l : sort_cues (sort_cues l) = sort_cues l.
Proof. apply sort_cues_fixed, sort_cues_no_descent. Qed.

(** *** With numbers for keys the result is sorted *)

Lemma cues_sorted_no_descent l : cues_sorted l → no_descent l.
Proof.
  unfold cues_sorted. induction 1 as [|x l Hsorted IH Hall]; [done|].
  apply no_descent_cons; [|done].
  intros y Hy. destruct l as [|z l]; [done|]. injection Hy as <-.
  apply Forall_cons in Hall as [Hxz _]. by apply float_le_not_lt.
Qed.

Lemma no_descent_cues_sorted l :
  Forall has_number l → no_descent l → cues_sorted l.
Proof.
  unfold cues_sorted. induction l as [|x l IH]; [constructor|].
  intros [Hx Hnum]%Forall_cons Hl.
  assert (Hsorted : StronglySorted key_le l) by (apply IH; [done|by eapply no_descent_tail]).
  constructor; [done|].
  destruct l as [|y l]; [constructor|].
  assert (Hxy : key_le x y).
  { apply float_not_lt_le; [done|by apply Forall_cons in Hnum as [? _]|].
    by eapply no_descent_head. }
  constructor; [done|].
  apply StronglySorted_inv in Hsorted as [_ Hall].
  eapply Forall_impl; [exact Hall|].
  intros z Hyz. unfold key_le in *. by eapply float_le_trans.
Qed.

Lemma sort_cues_sorted l : Forall has_number l → cues_sorted (sort_cues l).
Proof.
  intros Hnum. apply no_descent_cues_sorted; [|apply sort_cues_no_descent].
  by rewrite sort_cues_Permutation.
Qed.

(** Sorting a sorted list changes nothing. *)
Lemma sort_cues_id l : cues_sorted l → sort_cues l = l.
Proof. intros Hl. by apply sort_cues_fixed, cues_sorted_no_descent. Qed.

(** ** Loading a show *)

Lemma load_config_done file st :
  ∃ arm_btn go_btn,
    load_config file st =
      Done (set_cue_buttons
              (update_all_channel_displays
                 (set_channels_data
                    (set_current_cue_index (set_cues st (loaded_cues file))
                       (if decide (loaded_cues file = []) then -1 else 0))
                    (loaded_channels file st)))
              arm_btn go_btn) ∧
    (is_current_cue_armed st = true → arm_btn = false).
Proof.
  unfold load_config, update_cue_header_display, loaded_cues, loaded_channels.
  destruct file as [config|]; simpl.
  - destruct (sort_cues (doc_cues config)) as [|c l] eqn:Hs; simpl.
    + by do 2 eexists.
    + do 2 eexists. split; [done|]. by intros ->.
  - by do 2 eexists.
Qed.

Lemma load_config_well_formed file st :
  requests_issued st → well_formed (state_of (load_config file st)).
Proof.
  intros Hreq. destruct (load_config_done file st) as (a & g & -> & Ha).
  simpl. split.
  - unfold pointer_ok. simpl.
    destruct (decide (loaded_cues file = [])) as [?|Hne]; [by left|].
    right. destruct (loaded_cues file); simpl; [done|lia].
  - intros i w ch. simpl. rewrite map_lookup_imap.
    destruct (channel_widgets st !! i); simpl; [|done].
    intros [= <-] ->. done.
  - exact Hreq.
  - unfold arm_gate. simpl. exact Ha.
Qed.

(** A load replaces the channel table without going through
    [handle_status_change]: the pending requests stay as they are. *)
Lemma load_config_keeps_pending_requests file st :
  pending_requests (state_of (load_config file st)) = pending_requests st.
Proof. by destruct (load_config_done file st) as (a & g & -> & _). Qed.

Lemma initial_window_requests_issued tx_id : requests_issued (initial_window tx_id).
Proof. intros r c. simpl. by rewrite lookup_empty. Qed.

Lemma example_loaded_well_formed : well_formed example_loaded.
Proof. apply load_config_well_formed, initial_window_requests_issued. Qed.

(** ** The cue controls with the pointer on a cue *)

Lemma update_cue_header_display_in_range st :
  0 ≤ current_cue_index st < Z.of_nat (length (cues st)) →
  update_cue_header_display st =
  Done (set_cue_buttons st (negb (is_current_cue_armed st)) (is_current_cue_armed st)).
Proof.
  intros Hidx. unfold update_cue_header_display.
  rewrite decide_True
    by (split; [lia|intros Hnil; rewrite Hnil in Hidx; simpl in Hidx; lia]).
  by destruct (py_index_in_range (cues st) (current_cue_index st) Hidx) as [cue ->].
Qed.

Lemma next_cue_in_range st :
  0 ≤ current_cue_index st < Z.of_nat (length (cues st)) →
  next_cue st =
  Done (set_cue_buttons
          (set_is_current_cue_armed
             (set_current_cue_index st
                (if decide (current_cue_index st < Z.of_nat (length (cues st)) - 1)
                 then current_cue_index st + 1 else 0)) false) true false).
Proof.
  intros Hidx. unfold next_cue.
  rewrite decide_False by lia.
  destruct (decide (current_cue_index st < Z.of_nat (length (cues st)) - 1));
    by rewrite update_cue_header_display_in_range
      by (cbn [current_cue_index cues set_is_current_cue_armed set_current_cue_index];
          lia).
Qed.

Lemma prev_cue_in_range st :
  0 ≤ current_cue_index st < Z.of_nat (length (cues st)) →
  prev_cue st =
  Done (set_cue_buttons
          (set_is_current_cue_armed
             (set_current_cue_index st
                (if decide (current_cue_index st > 0)
                 then current_cue_index st - 1
                 else Z.of_nat (length (cues st)) - 1)) false) true false).
Proof.
  intros Hidx. unfold prev_cue.
  rewrite decide_False by lia.
  destruct (decide (current_cue_index st > 0));
    by rewrite update_cue_header_display_in_range
      by (cbn [current_cue_index cues set_is_current_cue_armed set_current_cue_index];
          lia).
Qed.

(** ** Properties kept by every intent *)

Lemma same_protocol_state_refl st : same_protocol_state st st.
Proof. by split. Qed.

Lemma same_protocol_state_update_cue_header_display st :
  same_protocol_state st (state_of (update_cue_header_display st)).
Proof.
  unfold update_cue_header_display.
  destruct (decide _); [|by split]. by destruct (py_index _ _).
Qed.

Lemma same_protocol_state_next_cue st :
  same_protocol_state st (state_of (next_cue st)).
Proof.
  unfold next_cue. destruct (decide (length (cues st) = 0%nat)); [by split|].
  destruct (decide (current_cue_index st < _));
    match goal with
    | |- same_protocol_state _ (state_of (update_cue_header_display ?s)) =>
        by destruct (same_protocol_state_update_cue_header_display s)
    end.
Qed.

Lemma same_protocol_state_prev_cue st :
  same_protocol_state st (state_of (prev_cue st)).
Proof.
  unfold prev_cue. destruct (decide (length (cues st) = 0%nat)); [by split|].
  destruct (decide (current_cue_index st > 0));
    match goal with
    | |- same_protocol_state _ (state_of (update_cue_header_display ?s)) =>
        by destruct (same_protocol_state_update_cue_header_display s)
    end.
Qed.

Section KeptBySteps.
Variable P : TransmitterWindow → Prop.
Hypothesis HP : kept_by_steps P.

Lemma for_each_status_change_keeps l new st :
  well_formed st → P st →
  ∃ st', for_each l (λ c, handle_status_change c new) st = Done st' ∧
         well_formed st' ∧ P st'.
Proof.
  intros Hwf Hst.
  destruct (for_each_invariant (λ s, well_formed s ∧ P s)
              (λ c, handle_status_change c new) l st) as (st' & ? & ? & ?);
    [|done|by exists st'].
  intros c s _ [Hwfs Hs].
  destruct (handle_status_change_well_formed c new s Hwfs) as (s' & Hdone & Hwf').
  exists s'. split_and!; [done|done|].
  pose proof (kept_status_change P HP c new s Hwfs Hs) as Hkept.
  by rewrite Hdone in Hkept.
Qed.

Lemma step_keeps i st : well_formed st → P st → P (step i st).
Proof.
  intros Hwf Hst. destruct i as [c|c| | | | | |d|decoded]; cbn [step].
  - unfold master_sb_clicked. destruct (channel_widgets st !! c); [|done].
    destruct (decide _); by apply (kept_status_change P HP).
  - unfold solo_op_clicked. destruct (channel_widgets st !! c); [|done].
    destruct (decide _); by apply (kept_status_change P HP).
  - destruct (for_each_invariant (λ s, well_formed s ∧ P s) master_go_body
                (map_to_list (channels_data st)).*1 st) as (st' & Hdone & _ & Hst');
      [|done|unfold fire_master_go; by rewrite Hdone].
    intros c s _ [Hwfs Hs]. unfold master_go_body.
    destruct (channels_data s !! c) as [data|]; [|by exists s].
    destruct (decide _); [|by exists s].
    destruct (handle_status_change_well_formed c go s Hwfs) as (s' & Hdone & Hwf').
    exists s'. split_and!; [done|done|].
    pose proof (kept_status_change P HP c go s Hwfs Hs) as Hkept.
    by rewrite Hdone in Hkept.
  - unfold btn_arm_cue_clicked. destruct (btn_arm_cue_enabled st); [|done].
    unfold arm_current_cue. destruct (decide _); [done|].
    destruct (py_index _ _) as [cue|]; [|done].
    destruct (for_each_status_change_keeps (channelsInCue cue) standby_master st Hwf Hst)
      as (st1 & -> & Hwf1 & Hst1). cbn [and_then].
    eapply (kept_frame P HP); [|exact Hst1].
    by destruct (same_protocol_state_update_cue_header_display
                   (set_is_current_cue_armed st1 true)).
  - unfold btn_go_cue_clicked. destruct (btn_go_cue_enabled st); [|done].
    unfold go_current_cue. destruct (decide _); [done|].
    destruct (py_index _ _) as [cue|]; [|done].
    destruct (for_each_status_change_keeps (channelsInCue cue) go st Hwf Hst)
      as (st1 & -> & Hwf1 & Hst1). cbn [and_then].
    eapply (kept_frame P HP); [|exact Hst1].
    by destruct (same_protocol_state_next_cue (set_is_current_cue_armed st1 false)).
  - eapply (kept_frame P HP); [apply same_protocol_state_next_cue|done].
  - eapply (kept_frame P HP); [apply same_protocol_state_prev_cue|done].
  - by apply (kept_elapse P HP).
  - unfold on_confirmation_received. destruct decoded as [data|]; [|done].
    destruct (conf_request_id data ≫= _) as [c|]; [|done].
    destruct (channels_data st !! c) as [ch|] eqn:Hc; [|done].
    eapply (kept_frame P HP);
      [|exact (kept_confirmed P HP c ch
                 (default "Unknown Receiver" (conf_receiver_name data)) st Hc Hst)].
    by split.
Qed.

Lemma run_keeps l st :
  well_formed st → P st → well_formed (run l st) ∧ P (run l st).
Proof.
  intros Hwf Hst. induction l as [|i l IH] using rev_ind; [done|].
  rewrite run_snoc. destruct IH as [Hwf' Hst']. split.
  - by apply step_well_formed.
  - by apply step_keeps.
Qed.

End KeptBySteps.

(** Time passing keeps a property that does not look at the timers or
    the clock, once status changes and the clearing of a subscriber list
    keep it. *)
Lemma elapse_keeps (P : TransmitterWindow → Prop) :
  (∀ st st', channels_data st' = channels_data st →
             pending_requests st' = pending_requests st →
             uuid_next st' = uuid_next st → published st' = published st →
             transmitter_id st' = transmitter_id st → P st → P st') →
  (∀ c new st, well_formed st → P st → P (state_of (handle_status_change c new st))) →
  (∀ c ch st, channels_data st !! c = Some ch → P st →
     P (set_channels_data st
          (<[c := with_confirmed_subscribers [] ch]> (channels_data st)))) →
  ∀ d st, well_formed st → P st → P (elapse d st).
Proof.
  intros Hframe Hchange Hclear d st Hwf Hst. unfold elapse.
  set (st0 := set_timers st _).
  apply (Hframe (run_timers (filter (timer_due (clock st + Z.max 0 d)) (timers st)) st0));
    [done..|].
  assert (Hwf0 : well_formed st0) by by apply well_formed_set_timers.
  assert (Hst0 : P st0) by (apply (Hframe st st0); [done..|exact Hst]).
  clearbody st0. clear Hwf Hst.
  revert st0 Hwf0 Hst0.
  induction (filter _ (timers st)) as [|tm due IH]; intros st0 Hwf0 Hst0; [done|].
  change (run_timers (tm :: due) st0)
    with (run_timers due (state_of (revert_go_to_idle tm.2 (set_clock st0 tm.1)))).
  set (st1 := set_clock st0 tm.1).
  assert (Hwf1 : well_formed st1) by by apply well_formed_set_clock.
  assert (Hst1 : P st1) by (apply (Hframe st0 st1); [done..|exact Hst0]).
  destruct (revert_go_to_idle_spec tm.2 st1 Hwf1) as (st2 & Hdone & Hwf2 & _).
  apply IH; rewrite Hdone; [done|]. cbn [state_of].
  revert Hdone. unfold revert_go_to_idle.
  destruct (channels_data st1 !! tm.2) as [ch|] eqn:Hc; [|by intros [= <-]].
  destruct (decide _); [|by intros [= <-]].
  destruct (confirmed_subscribers ch) eqn:Hsubs.
  - intros Hdone.
    pose proof (Hchange tm.2 idle _
                  (well_formed_set_channel st1 tm.2 ch
                     (with_confirmed_subscribers [] ch) Hwf1 Hc eq_refl)
                  (Hclear tm.2 ch st1 Hc Hst1)) as Hkept.
    by rewrite Hdone in Hkept.
  - intros Hdone. pose proof (Hchange tm.2 idle st1 Hwf1 Hst1) as Hkept.
    by rewrite Hdone in Hkept.
Qed.

(** ** Sessions *)

Lemma handle_new_config_done st :
  handle_new_config st =
  Done (set_cue_buttons (update_all_channel_displays (create_default_config st))
          false false).
Proof.
  unfold handle_new_config, update_cue_header_display.
  by rewrite decide_False by (by intros [? _]).
Qed.

Lemma lookup_loaded_channels file st c ch :
  loaded_channels file st !! c = Some ch →
  status ch = Some idle ∧ confirmed_subscribers ch = Some [].
Proof.
  unfold loaded_channels. rewrite lookup_fmap.
  destruct (_ !! c); simpl; [|done]. by intros [= <-].
Qed.

Lemma lookup_default_channels st c ch :
  channels_data (create_default_config st) !! c = Some ch →
  status ch = None ∧ confirmed_subscribers ch = None.
Proof.
  cbn [create_default_config channels_data set_current_cue_index set_cues
       set_channels_data].
  assert (Hfold : ∀ (l : list nat) (m : gmap Z Channel),
    foldl (λ m i, <[Z.of_nat i := default_channel i]> m) m l !! c = Some ch →
    (∃ i, ch = default_channel i) ∨ m !! c = Some ch).
  { induction l as [|i l IH]; intros m; cbn [foldl]; [by right|].
    intros [?|Hm]%IH; [by left|].
    destruct (decide (Z.of_nat i = c)) as [<-|Hne].
    - rewrite lookup_insert_eq in Hm. left. exists i. congruence.
    - rewrite lookup_insert_ne in Hm by done. by right. }
  intros [[i ->]|Hempty]%Hfold; [|by rewrite lookup_empty in Hempty].
  unfold default_channel. by destruct (nth _ _ _) as [? [? ?]].
Qed.

Lemma handle_new_config_well_formed st :
  requests_issued st → well_formed (state_of (handle_new_config st)).
Proof.
  intros Hreq. rewrite handle_new_config_done. cbn [state_of]. split; try done.
  - by left.
  - intros i w ch. simpl. rewrite map_lookup_imap.
    destruct (channel_widgets st !! i); simpl; [|done].
    intros [= <-] ->. done.
Qed.

Lemma handle_well_formed e st : well_formed st → well_formed (handle e st).
Proof.
  intros Hwf. destruct e as [i|file|]; cbn [handle].
  - by apply step_well_formed.
  - apply load_config_well_formed, Hwf.
  - apply handle_new_config_well_formed, Hwf.
Qed.

Lemma initial_window_well_formed tx_id : well_formed (initial_window tx_id).
Proof.
  split; [by left| |apply initial_window_requests_issued|done].
  intros i w ch _. simpl. by rewrite lookup_empty.
Qed.

Lemma play_snoc l e st : play (l ++ [e]) st = handle e (play l st).
Proof. unfold play. by rewrite foldl_app. Qed.

(** A property of the initial window that intents, loads and new shows
    keep holds throughout every session. *)
Lemma play_keeps (P : TransmitterWindow → Prop) tx_id l :
  kept_by_steps P →
  (∀ file st, well_formed st → P st → P (state_of (load_config file st))) →
  (∀ st, well_formed st → P st → P (state_of (handle_new_config st))) →
  P (initial_window tx_id) →
  well_formed (play l (initial_window tx_id)) ∧ P (play l (initial_window tx_id)).
Proof.
  intros Hsteps Hload Hnew Hinit.
  induction l as [|e l [Hwf IH]] using rev_ind.
  - split; [apply initial_window_well_formed|done].
  - rewrite play_snoc. split; [by apply handle_well_formed|].
    destruct e as [i|file|]; cbn [handle].
    + by apply step_keeps.
    + by apply Hload.
    + by apply Hnew.
Qed.

Lemma startup_state_well_formed st : startup_state st → well_formed st.
Proof.
  intros [tx_id|tx_id|file tx_id].
  - apply initial_window_well_formed.
  - apply handle_new_config_well_formed, initial_window_requests_issued.
  - apply load_config_well_formed, initial_window_requests_issued.
Qed.

Lemma startup_state_no_requests st : startup_state st → pending_requests st = ∅.
Proof.
  intros [tx_id|tx_id|file tx_id]; [done| |].
  - by rewrite handle_new_config_done.
  - by rewrite load_config_keeps_pending_requests.
Qed.

(** ** The cue buttons in a session *)







Lemma length_replace_first_by_id updated l :
  length (replace_first_by_id updated l) = length l.
Proof.
  induction l as [|c l IH]; [done|]. simpl. case_decide; simpl; by rewrite ?IH.
Qed.



Lemma Forall_replace_first_by_id (P : Cue → Prop) updated l :
  P updated → Forall P l → Forall P (replace_first_by_id updated l).
Proof.
  intros Hupdated. induction 1 as [|c l Hc Hl IH]; [constructor|].
  simpl. case_decide; by constructor.
Qed.









(** * The claims *)

(** ** C1: status transitions *)

(** Every transition of the table is one the code permits. *)
Lemma in_table_permitted i old new :
  in_table i old new = true → permitted i old new = true.
Proof. by destruct i, old, new. Qed.

(** C1, counterexample.  Both transitions the claim calls unreachable
    happen: pressing Solo on a channel in Go puts it in StandbySolo, and
    GO CUE on a channel that was toggled back to Idle after arming puts it
    in Go.  Each is applied and published, and neither is in the table. *)
Lemma transitions_outside_table_happen :
  let in_go := run [solo_standby 1; solo_standby 1] example_loaded in
  let armed_then_idle := run [cue_arm; master_standby 1] example_loaded in
  (status_of in_go 1 = Some go ∧
   status_of (step (solo_standby 1) in_go) 1 = Some standby_solo ∧
   length (published (step (solo_standby 1) in_go)) = S (length (published in_go)) ∧
   ¬ follows_table (solo_standby 1) (status_of in_go 1)
       (status_of (step (solo_standby 1) in_go) 1)) ∧
  (status_of armed_then_idle 1 = Some idle ∧
   status_of (step cue_go armed_then_idle) 1 = Some go ∧
   ¬ follows_table cue_go (status_of armed_then_idle 1)
       (status_of (step cue_go armed_then_idle) 1)).
Proof.
  cbv zeta. split; [split_and!|split_and!].
  - vm_compute. reflexivity.
  - vm_compute. reflexivity.
  - vm_compute. reflexivity.
  - intros H. vm_compute in H.
    destruct H as [[=]|(old & new & [= <-] & [= <-] & [=])].
  - vm_compute. reflexivity.
  - vm_compute. reflexivity.
  - intros H. vm_compute in H.
    destruct H as [[=]|(old & new & [= <-] & [= <-] & [=])].
Qed.

(** C1, amended.  From a well-formed state and along any sequence of
    intents, each channel's status change across one intent is one the
    code permits for that intent: the master toggle gives
    StandbyMaster -> Idle and otherwise -> StandbyMaster from Idle,
    StandbySolo or Go; the solo control gives StandbySolo -> Go and
    otherwise -> StandbySolo from Idle, StandbyMaster or Go; master GO gives
    StandbyMaster -> Go only; cue arm gives -> StandbyMaster and cue GO
    gives -> Go from any status; Go -> Idle happens only through the
    scheduled revert.  No request is rejected: [handle_status_change] on a
    configured channel always sets the requested status and publishes one
    status message. *)
Theorem status_changes_are_permitted (st : TransmitterWindow)
    (pre : list Intent) (i : Intent) (c : Z) :
  well_formed st →
  conforms i (status_of (run pre st) c) (status_of (step i (run pre st)) c) ∧
  (permitted i go idle = true → ∃ d, i = time_passes d) ∧
  (∀ new ch, channels_data (run pre st) !! c = Some ch →
     ∃ st' payload,
       handle_status_change c new (run pre st) = Done st' ∧
       status_of st' c = Some new ∧
       published st' = published (run pre st) ++ [(channel_status_topic c, payload)]).
Proof.
  intros Hwf. destruct (run_well_formed pre st Hwf) as (Hwf' & _ & _).
  split_and!.
  - by apply step_conforms.
  - destruct i; try discriminate. by eexists.
  - intros new ch Hc.
    destruct (handle_status_change_finish c new ch _ (wf_pointer _ Hwf') Hc)
      as (st' & Hdone & Hfin).
    destruct (scf_published _ _ _ _ _ Hfin) as (payload & Hpub & _).
    exists st', payload. split_and!; try done.
    pose proof (status_of_handle_status_change c new (run pre st) c) as Hst.
    rewrite Hdone in Hst. simpl in Hst. rewrite Hst, decide_True by done.
    unfold status_of. by rewrite Hc.
Qed.

Lemma status_changes_are_permitted_witness :
  well_formed example_loaded ∧
  conforms (solo_standby 1)
    (status_of (run [solo_standby 1; solo_standby 1] example_loaded) 1)
    (status_of (step (solo_standby 1)
                  (run [solo_standby 1; solo_standby 1] example_loaded)) 1).
Proof.
  split; [exact example_loaded_well_formed|].
  exact (proj1 (status_changes_are_permitted example_loaded
                  [solo_standby 1; solo_standby 1] (solo_standby 1) 1
                  example_loaded_well_formed)).
Defined.

(** ** C2: a load takes a channel out of standby without revoking *)

(** C2.  The code at the failing input.  Channel 2 stands by with request
    0 pending; a load (or a new show) makes every channel idle and leaves
    [pending_requests] as it is, so the confirmation that arrives
    afterwards for request 0 is not dropped: it puts the receiver on the
    subscriber list of the idle channel. *)
Theorem load_takes_a_channel_out_of_standby_without_revoking :
  let standing_by := run [master_standby 2] example_loaded in
  let late := mkConfirmationData (Some 0%N) (Some "rx-1") (Some "Stage Left") in
  let loaded := state_of (load_config (Some example_show) standing_by) in
  let renewed := state_of (handle_new_config standing_by) in
  (status_of standing_by 2 = Some standby_master ∧
   pending_requests standing_by !! 0%N = Some 2) ∧
  (status_of loaded 2 = Some idle ∧
   pending_requests loaded !! 0%N = Some 2 ∧
   get_confirmed <$> channels_data loaded !! 2 = Some [] ∧
   get_confirmed <$> channels_data (on_confirmation_received (Some late) loaded) !! 2 =
     Some ["Stage Left"] ∧
   on_confirmation_received (Some late) loaded ≠ loaded) ∧
  (status_of renewed 2 = Some idle ∧
   pending_requests renewed !! 0%N = Some 2 ∧
   get_confirmed <$> channels_data (on_confirmation_received (Some late) renewed) !! 2 =
     Some ["Stage Left"]).
Proof.
  intros standing_by late loaded renewed.
  assert (Hbefore : get_confirmed <$> channels_data loaded !! 2 = Some [])
    by (vm_compute; reflexivity).
  assert (Hafter :
    get_confirmed <$> channels_data (on_confirmation_received (Some late) loaded) !! 2 =
      Some ["Stage Left"]) by (vm_compute; reflexivity).
  split_and!; try (vm_compute; reflexivity).
  clearbody loaded. intros Heq. rewrite Heq, Hbefore in Hafter. discriminate Hafter.
Qed.

(** ** C3: confirm is idempotent *)

Lemma entries_for_absent name l : name ∉ l → entries_for name l = 0%nat.
Proof.
  unfold entries_for. induction l as [|x l IH]; intros Hin; [done|].
  apply not_elem_of_cons in Hin as [Hne Hin].
  rewrite filter_cons_False by congruence. by apply IH.
Qed.

Lemma entries_for_present name l :
  NoDup l → name ∈ l → entries_for name l = 1%nat.
Proof.
  unfold entries_for. induction 1 as [|x l Hx Hnd IH]; intros Hin.
  - by apply elem_of_nil in Hin.
  - apply elem_of_cons in Hin as [->|Hin].
    + rewrite filter_cons_True by done. simpl. f_equal.
      by apply entries_for_absent.
    + rewrite filter_cons_False by (intros ->; done). by apply IH.
Qed.

Lemma entries_for_confirmed_by name ch :
  NoDup (get_confirmed ch) →
  entries_for name (get_confirmed (confirmed_by name ch)) = 1%nat.
Proof.
  intros Hnd. destruct (confirmed_by_fields name ch) as (_&_&_&_&_&->).
  destruct (decide (name ∈ get_confirmed ch)) as [Hin|Hin].
  - by apply entries_for_present.
  - unfold entries_for. rewrite filter_app, length_app.
    fold (entries_for name (get_confirmed ch)).
    rewrite entries_for_absent by done.
    by rewrite filter_cons_True.
Qed.

Lemma NoDup_confirmed_by name ch :
  NoDup (get_confirmed ch) → NoDup (get_confirmed (confirmed_by name ch)).
Proof.
  intros Hnd. destruct (confirmed_by_fields name ch) as (_&_&_&_&_&->).
  destruct (decide (name ∈ get_confirmed ch)) as [Hin|Hin]; [done|].
  apply NoDup_app. split_and!; [done| |apply NoDup_singleton].
  intros x Hx ->%list_elem_of_singleton. done.
Qed.

(** Handling one confirmation that arrived on the transmitter's topic
    for a pending request of a configured channel. *)
Lemma deliver_one rid rx_id name c ch tx rest :
  pending_requests tx !! rid = Some c → channels_data tx !! c = Some ch →
  ∃ tx1,
    deliver ((confirmations_topic (transmitter_id tx),
              mkConfirmationPayload rid rx_id name) :: rest) tx = deliver rest tx1 ∧
    channels_data tx1 !! c = Some (confirmed_by name ch) ∧
    pending_requests tx1 !! rid = Some c ∧
    transmitter_id tx1 = transmitter_id tx.
Proof.
  intros Hp Hc.
  exists (on_confirmation_received
            (decode_confirmation (mkConfirmationPayload rid rx_id name)) tx).
  split.
  { unfold deliver. cbn [foldl fst snd]. by rewrite decide_True. }
  destruct (on_confirmation_received_resolved
    (mkConfirmationData (Some rid) (Some rx_id) (Some name))
    rid c tx eq_refl Hp) as (Hch & Hp' & _ & _ & _ & _ & Hsq).
  unfold decode_confirmation. cbn [sent_request_id sent_receiver_id sent_receiver_name].
  split_and!.
  - rewrite Hch, lookup_alter, decide_True, Hc by done. done.
  - by rewrite Hp'.
  - exact (sq_tx _ _ Hsq).
Qed.

(** C3.  A receiver that holds a captured request id and response topic
    and has not confirmed yet publishes, on the first press of confirm,
    exactly one confirmation (request id, receiver id, receiver name) to
    the response topic and latches [is_confirmed]; the second press
    changes nothing.  When the request is pending at the transmitter for a
    configured channel whose subscriber list has no duplicates, handling
    what the two presses published leaves exactly one entry with the
    receiver's name in that channel's list, and so does handling it
    twice (a duplicated delivery). *)
Theorem confirm_is_idempotent (rx : ReceiverWindow) (rid : Uuid) (topic : Topic)
    (tx : TransmitterWindow) (c : Z) (ch : Channel) :
  current_request_id rx = Some rid →
  current_response_topic rx = Some topic →
  is_confirmed rx = false →
  topic = confirmations_topic (transmitter_id tx) →
  pending_requests tx !! rid = Some c →
  channels_data tx !! c = Some ch →
  NoDup (get_confirmed ch) →
  let once := handle_confirm_press rx in
  let twice := handle_confirm_press once in
  sent once = sent rx ++
    [(topic, mkConfirmationPayload rid (receiver_id rx) (receiver_name rx))] ∧
  is_confirmed once = true ∧
  twice = once ∧
  let outbox := drop (length (sent rx)) (sent twice) in
  (∃ ch', channels_data (deliver outbox tx) !! c = Some ch' ∧
          entries_for (receiver_name rx) (get_confirmed ch') = 1%nat) ∧
  (∃ ch', channels_data (deliver (outbox ++ outbox) tx) !! c = Some ch' ∧
          entries_for (receiver_name rx) (get_confirmed ch') = 1%nat).
Proof.
  intros Hrid Htopic Hconf Htx Hpend Hc Hnd. cbv zeta.
  assert (Honce : handle_confirm_press rx =
    mkReceiver (receiver_id rx) (receiver_name rx) (subscribed_channel_id rx)
      (current_request_id rx) (current_response_topic rx) true
      (confirm_button_visible rx)
      (sent rx ++ [(topic, mkConfirmationPayload rid (receiver_id rx) (receiver_name rx))])).
  { unfold handle_confirm_press. by rewrite Htopic, Hrid, Hconf. }
  assert (Htwice : handle_confirm_press (handle_confirm_press rx) = handle_confirm_press rx).
  { rewrite Honce. unfold handle_confirm_press. simpl. by rewrite Htopic, Hrid. }
  rewrite Htwice, Honce. cbn [sent is_confirmed]. rewrite drop_app_length.
  subst topic. split_and!; try done.
  - destruct (deliver_one rid (receiver_id rx) (receiver_name rx) c ch tx []
                Hpend Hc) as (tx1 & -> & Hch1 & _).
    exists (confirmed_by (receiver_name rx) ch). split; [done|].
    by apply entries_for_confirmed_by.
  - cbn [app].
    destruct (deliver_one rid (receiver_id rx) (receiver_name rx) c ch tx
                [(confirmations_topic (transmitter_id tx),
                  mkConfirmationPayload rid (receiver_id rx) (receiver_name rx))]
                Hpend Hc) as (tx1 & -> & Hch1 & Hp1 & Htx1).
    rewrite <- Htx1.
    destruct (deliver_one rid (receiver_id rx) (receiver_name rx) c _ tx1 []
                Hp1 Hch1) as (tx2 & -> & Hch2 & _).
    eexists. split; [exact Hch2|].
    by apply entries_for_confirmed_by, NoDup_confirmed_by.
Qed.

(** End to end: the transmitter puts channel 2 in StandbyMaster, a
    receiver bound to channel 2 handles the published status message and
    confirm is pressed twice. *)
Lemma confirm_is_idempotent_witness :
  let tx := run [master_standby 2] example_loaded in
  let rx := foldl (λ rx m, handle_mqtt_message m.1 (Some m.2) rx)
                  (initial_receiver "rx-0001" "Stage Left" 2) (published tx) in
  let twice := handle_confirm_press (handle_confirm_press rx) in
  current_request_id rx = Some 0%N ∧
  length (sent twice) = 1%nat ∧
  (get_confirmed <$> channels_data (deliver (sent twice) tx) !! 2)
    = Some ["Stage Left"].
Proof.
  cbv zeta.
  set (tx := run [master_standby 2] example_loaded).
  set (rx := foldl _ _ (published tx)).
  assert (Hrid : current_request_id rx = Some 0%N) by (vm_compute; reflexivity).
  assert (Htopic : current_response_topic rx =
                   Some (confirmations_topic (transmitter_id tx)))
    by (vm_compute; reflexivity).
  assert (Hp : pending_requests tx !! 0%N = Some 2) by (vm_compute; reflexivity).
  assert (Hc : channels_data tx !! 2 =
               Some channel_2_standing_by)
    by (vm_compute; reflexivity).
  destruct (confirm_is_idempotent rx 0%N _ tx 2 channel_2_standing_by
              Hrid Htopic eq_refl eq_refl Hp Hc (NoDup_nil_2 : NoDup []))
    as (Hsent & _ & Htwice & _).
  split; [exact Hrid|]. split; vm_compute; reflexivity.
Defined.

(** ** C4: the scheduled revert *)

Lemma revert_go_to_idle_guard c s :
  (channels_data s !! c ≫= status) ≠ Some go → revert_go_to_idle c s = Done s.
Proof.
  intros H. unfold revert_go_to_idle.
  destruct (channels_data s !! c) as [ch|]; [|done]. simpl in H.
  by rewrite decide_False.
Qed.

(** C4.  The code at the failing input.  In a new show channel 1 is sent
    to Go with the solo button and the configuration view is opened,
    which copies the channel table, statuses included.  After 5000 ms the
    scheduled revert has made the channel idle and used up the timer.
    Apply and Return then installs the copy: the channel is in Go again,
    no revert is scheduled for it, and it is still in Go however much
    time passes. *)
Theorem apply_enters_go_without_a_revert :
  let opened := run [solo_standby 1; solo_standby 1]
                    (state_of (handle_new_config (initial_window "tx_1a2b3c4d"))) in
  let view := show_channel_config_view opened initial_config_widget in
  let reverted := elapse GO_DURATION_MS opened in
  ∃ table,
    save_changes view = Some table ∧
    status_of opened 1 = Some go ∧ timers opened = [(5000, 1)] ∧
    status_of reverted 1 = Some idle ∧ timers reverted = [] ∧
    let applied := saved_window (on_config_saved table reverted) in
    status_of applied 1 = Some go ∧ timers applied = [] ∧
    status_of (elapse GO_DURATION_MS applied) 1 = Some go ∧
    status_of (elapse 3600000 applied) 1 = Some go.
Proof.
  intros opened view reverted.
  assert (Hsaved : is_Some (save_changes view)) by (vm_compute; eexists; reflexivity).
  destruct Hsaved as [table Htable]. exists table.
  assert (Hcheck :
    from_option (λ table,
      let applied := saved_window (on_config_saved table reverted) in
      bool_decide (status_of applied 1 = Some go ∧ timers applied = [] ∧
                   status_of (elapse GO_DURATION_MS applied) 1 = Some go ∧
                   status_of (elapse 3600000 applied) 1 = Some go))
      false (save_changes view) = true) by (vm_compute; reflexivity).
  rewrite Htable in Hcheck. cbn [from_option] in Hcheck.
  apply bool_decide_eq_true_1 in Hcheck. cbv zeta in Hcheck.
  split_and!; try (vm_compute; reflexivity); [exact Htable|apply Hcheck..].
Qed.

(** ** C5: master GO *)

(** C5.  In a well-formed transmitter a master GO intent runs to
    completion, and afterwards every configured channel whose status was
    exactly StandbyMaster has status Go with the rest of its entry as it
    was, while the entry of every other channel (StandbySolo, Idle, or
    any other status) is completely unchanged. *)
Theorem master_go_fires_standby_master_only (st : TransmitterWindow) :
  well_formed st →
  ∃ st', fire_master_go st = Done st' ∧
    ∀ c ch, channels_data st !! c = Some ch →
      (status ch = Some standby_master →
       channels_data st' !! c = Some (with_status go ch)) ∧
      (status ch ≠ Some standby_master →
       channels_data st' !! c = Some ch).
Proof.
  intros Hwf.
  destruct (fire_master_go_spec st Hwf) as (st' & Hdone & _ & _ & _ & Hch).
  exists st'. split; [done|]. intros c ch Hc. rewrite Hch, Hc.
  split; intros Hs; [by rewrite decide_True|by rewrite decide_False].
Qed.

(** The scenario of the specification: channels 1, 2, 3 in StandbyMaster,
    StandbySolo, Idle end in Go, StandbySolo, Idle. *)
Lemma master_go_fires_standby_master_only_witness :
  let st := run [master_standby 1; solo_standby 2] example_loaded in
  well_formed st ∧
  status_of st <$> [1; 2; 3] = [Some standby_master; Some standby_solo; Some idle] ∧
  status_of (step master_go st) <$> [1; 2; 3] = [Some go; Some standby_solo; Some idle] ∧
  channels_data (step master_go st) !! 2 = channels_data st !! 2 ∧
  channels_data (step master_go st) !! 3 = channels_data st !! 3.
Proof.
  cbv zeta. set (st := run [master_standby 1; solo_standby 2] example_loaded).
  assert (Hwf : well_formed st).
  { apply run_well_formed, example_loaded_well_formed. }
  assert (H1 : channels_data st !! 1
               = Some (mkChannel "Channel 1" "Cyan" "#00BCD4" "#000000"
                                 (Some standby_master) (Some [])))
    by (vm_compute; reflexivity).
  assert (H2 : channels_data st !! 2
               = Some (mkChannel "Channel 2" "Magenta" "#E91E63" "#FFFFFF"
                                 (Some standby_solo) (Some [])))
    by (vm_compute; reflexivity).
  assert (H3 : channels_data st !! 3
               = Some (mkChannel "Channel 3" "Yellow" "#FFEB3B" "#000000"
                                 (Some idle) (Some [])))
    by (vm_compute; reflexivity).
  clearbody st.
  destruct (master_go_fires_standby_master_only st Hwf) as (st' & Hdone & Hch).
  split; [exact Hwf|]. cbn [step]. rewrite Hdone. cbn [state_of].
  pose proof (proj1 (Hch 1 _ H1) eq_refl) as H1'.
  pose proof (proj2 (Hch 2 _ H2) ltac:(discriminate)) as H2'.
  pose proof (proj2 (Hch 3 _ H3) ltac:(discriminate)) as H3'.
  unfold status_of. cbn [fmap list_fmap].
  rewrite H1, H2, H3, H1', H2', H3'. split_and!; reflexivity.
Defined.

(** ** C6: a confirmation touches only its channel *)

(** C6.  For an inbound confirmation [data]: if its request id is pending
    for channel [c], then afterwards every other channel's entry is what
    it was, channel [c]'s entry differs at most in its subscriber list,
    which gains the sender's name at the end if it was absent, and the
    pending requests are what they were; if the request id is missing,
    unknown or revoked, or the payload does not decode, the whole state is
    unchanged. *)
Theorem confirmation_touches_only_its_channel (st : TransmitterWindow)
    (data : ConfirmationData) :
  (∀ r c, conf_request_id data = Some r → pending_requests st !! r = Some c →
     let name := default "Unknown Receiver" (conf_receiver_name data) in
     let st' := on_confirmation_received (Some data) st in
     (∀ c', c' ≠ c → channels_data st' !! c' = channels_data st !! c') ∧
     channels_data st' !! c = confirmed_by name <$> channels_data st !! c ∧
     (∀ ch, status (confirmed_by name ch) = status ch ∧
            label (confirmed_by name ch) = label ch ∧
            get_confirmed (confirmed_by name ch) =
              if decide (name ∈ get_confirmed ch) then get_confirmed ch
              else get_confirmed ch ++ [name]) ∧
     pending_requests st' = pending_requests st ∧
     published st' = published st) ∧
  (conf_request_id data ≫= (λ r, pending_requests st !! r) = None →
   on_confirmation_received (Some data) st = st) ∧
  on_confirmation_received None st = st.
Proof.
  split_and!;
    [|intros H; apply on_confirmation_received_unresolved; exact H|done].
  intros r c Hr Hp name st'.
  destruct (on_confirmation_received_resolved data r c st Hr Hp)
    as (Hch & Hpend & _ & Hpub & _).
  fold st' in Hch, Hpend, Hpub. fold name in Hch. split_and!; try done.
  - intros c' Hne. rewrite Hch, lookup_alter. by rewrite decide_False.
  - rewrite Hch, lookup_alter. by rewrite decide_True.
Qed.

Lemma confirmation_touches_only_its_channel_witness :
  let st := run [master_standby 2] example_loaded in
  let data := mkConfirmationData (Some 0%N) (Some "rx-1") (Some "Stage Left") in
  pending_requests st !! 0%N = Some 2 ∧
  channels_data (on_confirmation_received (Some data) st) !! 1 = channels_data st !! 1 ∧
  (get_confirmed <$> channels_data (on_confirmation_received (Some data) st) !! 2)
    = Some ["Stage Left"].
Proof.
  cbv zeta.
  assert (Hp : pending_requests (run [master_standby 2] example_loaded) !! 0%N = Some 2)
    by (vm_compute; reflexivity).
  split; [exact Hp|].
  destruct (proj1 (confirmation_touches_only_its_channel
              (run [master_standby 2] example_loaded)
              (mkConfirmationData (Some 0%N) (Some "rx-1") (Some "Stage Left")))
              0%N 2 eq_refl Hp) as (Hother & Hthis & _).
  split; [apply Hother; discriminate|].
  rewrite Hthis. vm_compute. reflexivity.
Defined.

(** ** C7: a cue number that is not a number *)

Lemma cues_update_cue_header_display st :
  cues (state_of (update_cue_header_display st)) = cues st.
Proof.
  unfold update_cue_header_display.
  destruct (decide _); [|done]. by destruct (py_index _ _).
Qed.

Lemma cues_show_cues_view st :
  cues (state_of (show_cues_view st)) = sort_cues (cues st).
Proof. unfold show_cues_view. by rewrite cues_update_cue_header_display. Qed.

Lemma cues_load_config file st :
  cues (state_of (load_config file st)) = loaded_cues file.
Proof. by destruct (load_config_done file st) as (a & g & -> & _). Qed.

(** C7.  The code at the failing input.  The example show is loaded with
    its cues in the order 1, 2.5, 3.  A cue whose number is entered as
    [nan] is accepted by [on_save] ([float] raises no [ValueError]); the
    sort leaves it behind 3, and a cue numbered 0.5 that is added next
    stays behind the NaN, after 3.  Neither list is sorted ascending by
    [cueNumberFloat], and Next walks the keys 1, 2.5, 3, NaN, 0.5. *)
Theorem nan_cue_number_leaves_the_list_unsorted :
  let added := state_of (handle_cue_action_add
                           (Accepted "nan" float_nan "Blackout" [1]) example_loaded) in
  let again := state_of (handle_cue_action_add
                           (Accepted "0.5" (float_finite (1 # 2)) "Preset" [2]) added) in
  let visit n := current_key (run (replicate n cue_next) again) in
  (cueNumberFloat <$> cues example_loaded = float_finite <$> [1; 5 # 2; 3]%Q ∧
   cues_sorted (cues example_loaded)) ∧
  (cueNumberFloat <$> cues added =
     [float_finite 1; float_finite (5 # 2); float_finite 3; float_nan] ∧
   ¬ cues_sorted (cues added)) ∧
  (cueNumberFloat <$> cues again =
     [float_finite 1; float_finite (5 # 2); float_finite 3; float_nan;
      float_finite (1 # 2)] ∧
   ¬ cues_sorted (cues again) ∧
   visit <$> [0; 1; 2; 3; 4]%nat =
     [Some (float_finite 1); Some (float_finite (5 # 2)); Some (float_finite 3);
      Some float_nan; Some (float_finite (1 # 2))]).
Proof.
  cbv zeta. split_and!; try (vm_compute; reflexivity).
  - apply (bool_decide_unpack _). vm_compute. exact I.
  - apply (bool_decide_unpack _). vm_compute. exact I.
  - apply (bool_decide_unpack _). vm_compute. exact I.
Qed.

(** ** C8: the cue pointer after the first cue is added *)

(** C8.  The code at the failing input.  A show without cues has the
    pointer at -1.  Adding the first cue appends it and refreshes the
    table but leaves the pointer at -1: the list is not empty and the
    pointer is not an index into it, ARM CUE and GO CUE are disabled and
    a press of ARM does nothing, until Next sets the pointer.  The same
    happens in every window without cues. *)
Theorem first_cue_leaves_the_pointer_unset :
  (let empty := state_of (handle_new_config (initial_window "tx_1a2b3c4d")) in
   let added := state_of (handle_cue_action_add
                            (Accepted "1" (float_finite 1) "Cue 1" [1]) empty) in
   pointer_matches_cues empty ∧
   length (cues added) = 1%nat ∧ current_cue_index added = -1 ∧
   ¬ pointer_matches_cues added ∧
   btn_arm_cue_enabled added = false ∧ btn_go_cue_enabled added = false ∧
   step cue_arm added = added ∧
   current_cue_index (step cue_next added) = 0) ∧
  (∀ st num key lbl selected,
     cues st = [] → current_cue_index st = -1 →
     let added := state_of (handle_cue_action_add (Accepted num key lbl selected) st) in
     length (cues added) = 1%nat ∧ current_cue_index added = -1).
Proof.
  split.
  - cbv zeta.
    set (added := state_of (handle_cue_action_add _ _)).
    assert (Hc : length (cues added) = 1%nat) by (vm_compute; reflexivity).
    assert (Hi : current_cue_index added = -1) by (vm_compute; reflexivity).
    split_and!; try (vm_compute; reflexivity).
    + split; [|done]. split; [done|]. intros _. vm_compute. reflexivity.
    + clearbody added. intros [[Hempty _] _]. specialize (Hempty Hi).
      rewrite Hempty in Hc. discriminate Hc.
  - intros st num key lbl selected Hcues Hidx. cbv zeta.
    unfold handle_cue_action_add, show_cues_view, update_cue_header_display.
    cbn [uuid4 cues set_cues set_uuid_next current_cue_index].
    rewrite decide_False by (rewrite Hidx; by intros [? _]).
    cbn [state_of cues set_cue_buttons set_cues current_cue_index set_uuid_next].
    by rewrite Hcues, Hidx.
Qed.

(** ** C9: arming the current cue *)



(** ** C10: a standby-to-standby change keeps the old requests *)

(** C10.  When a configured channel in a standby state is given a standby
    status again, nothing is revoked and one fresh request is issued: the
    pending requests are the old ones plus the fresh id, all requests of
    the channel stay pending next to the fresh one, and a confirmation
    for an old id followed by one for the fresh id puts both receivers'
    names in the channel's subscriber list. *)
Theorem standby_to_standby_keeps_requests (st : TransmitterWindow) (c : Z)
    (ch : Channel) (new : Status) :
  requests_issued st →
  channels_data st !! c = Some ch →
  is_standby (get_status ch) = true → is_standby new = true →
  let st' := state_of (handle_status_change c new st) in
  let fresh := uuid_next st in
  pending_requests st' = <[fresh := c]> (pending_requests st) ∧
  pending_requests st !! fresh = None ∧
  pending_requests st' !! fresh = Some c ∧
  (∀ r, pending_requests st !! r = Some c →
        r ≠ fresh ∧ pending_requests st' !! r = Some c) ∧
  (∀ r a b, pending_requests st !! r = Some c →
     ∃ ch2, channels_data (confirm fresh b (confirm r a st')) !! c = Some ch2 ∧
            status ch2 = Some new ∧
            a ∈ get_confirmed ch2 ∧ b ∈ get_confirmed ch2).
Proof.
  intros Hreq Hc Hold Hnew. cbv zeta.
  pose proof (handle_status_change_core c new ch st Hc) as Hcore.
  remember (state_of (handle_status_change c new st)) as st' eqn:Hst'.
  assert (Hpend : pending_requests st' = <[uuid_next st := c]> (pending_requests st)).
  { rewrite (scc_pending _ _ _ _ _ Hcore). unfold pending_after.
    by rewrite Hold, Hnew. }
  assert (Hfresh : pending_requests st !! uuid_next st = None).
  { destruct (pending_requests st !! uuid_next st) as [c'|] eqn:Hf; [|done].
    apply Hreq in Hf. lia. }
  assert (Hkept : ∀ r, pending_requests st !! r = Some c →
            r ≠ uuid_next st ∧ pending_requests st' !! r = Some c).
  { intros r Hr. assert (r ≠ uuid_next st) by congruence.
    split; [done|]. by rewrite Hpend, lookup_insert_ne. }
  split_and!; try done.
  - by rewrite Hpend, lookup_insert_eq.
  - intros r a b Hr. destruct (Hkept r Hr) as [Hne Hr'].
    unfold confirm.
    destruct (on_confirmation_received_resolved
                (mkConfirmationData (Some r) None (Some a)) r c st' eq_refl Hr')
      as (Hch1 & Hp1 & _).
    set (st1 := on_confirmation_received _ st') in *.
    assert (Hf1 : pending_requests st1 !! uuid_next st = Some c).
    { by rewrite Hp1, Hpend, lookup_insert_eq. }
    destruct (on_confirmation_received_resolved
                (mkConfirmationData (Some (uuid_next st)) None (Some b))
                (uuid_next st) c st1 eq_refl Hf1) as (Hch2 & _).
    rewrite Hch2, lookup_alter, decide_True by done.
    rewrite Hch1, lookup_alter, decide_True by done.
    rewrite (scc_channels _ _ _ _ _ Hcore), lookup_insert_eq. simpl.
    eexists. split; [done|]. split; [done|].
    split; [apply confirmed_by_keeps|]; apply elem_of_confirmed_by.
Qed.

Lemma standby_to_standby_keeps_requests_witness :
  let st := run [master_standby 2] example_loaded in
  let st' := state_of (handle_status_change 2 standby_solo st) in
  pending_requests st !! 0%N = Some 2 ∧
  pending_requests st' !! 0%N = Some 2 ∧
  pending_requests st' !! 1%N = Some 2.
Proof.
  cbv zeta.
  assert (Hp : pending_requests (run [master_standby 2] example_loaded) !! 0%N = Some 2)
    by (vm_compute; reflexivity).
  assert (Hc : channels_data (run [master_standby 2] example_loaded) !! 2 =
               Some channel_2_standing_by)
    by (vm_compute; reflexivity).
  assert (Hwf : requests_issued (run [master_standby 2] example_loaded)).
  { apply wf_requests, run_well_formed, example_loaded_well_formed. }
  destruct (standby_to_standby_keeps_requests
              (run [master_standby 2] example_loaded) 2 channel_2_standing_by standby_solo
              Hwf Hc eq_refl eq_refl) as (_ & _ & Hnew & Hold & _).
  split; [exact Hp|]. split; [exact (proj2 (Hold 0%N Hp))|exact Hnew].
Defined.

(** * Further properties *)

(** ** Sessions stay well-formed *)


(** ** Pending requests belong to channels standing by *)

Lemma requests_for_standby_kept : kept_by_steps requests_for_standby.
Proof.
  assert (Hchange : ∀ c new st, well_formed st → requests_for_standby st →
            requests_for_standby (state_of (handle_status_change c new st))).
  { intros c new st _ Hinv.
    destruct (channels_data st !! c) as [ch|] eqn:Hc;
      [|by rewrite handle_status_change_unconfigured].
    pose proof (handle_status_change_core c new ch st Hc) as Hcore.
    intros r c' Hr.
    rewrite (scc_pending _ _ _ _ _ Hcore) in Hr.
    rewrite (scc_channels _ _ _ _ _ Hcore).
    assert (Hold : ∀ r, pending_requests st !! r = Some c' → c' ≠ c →
              ∃ ch', <[c := with_status new ch]> (channels_data st) !! c' = Some ch' ∧
                     is_standby (get_status ch') = true).
    { intros r' Hr' Hne. rewrite lookup_insert_ne by done. by eapply Hinv. }
    unfold pending_after in Hr.
    destruct (is_standby new) eqn:Hnew.
    - destruct (decide (r = uuid_next st)) as [->|Hfresh].
      + rewrite lookup_insert_eq in Hr. injection Hr as <-.
        rewrite lookup_insert_eq. by eexists.
      + rewrite lookup_insert_ne in Hr by done.
        rewrite andb_false_r in Hr.
        destruct (decide (c' = c)) as [->|Hne]; [|by eapply Hold].
        rewrite lookup_insert_eq. by eexists.
    - rewrite andb_true_r in Hr.
      destruct (is_standby (get_status ch)) eqn:Hwas.
      + rewrite lookup_revoke_requests in Hr.
        destruct (pending_requests st !! r) as [c''|] eqn:Hp; [|done].
        destruct (decide (c'' = c)); [done|]. injection Hr as ->.
        by eapply Hold.
      + destruct (decide (c' = c)) as [->|Hne]; [|by eapply Hold].
        destruct (Hinv r c Hr) as (ch' & Hc' & Hstandby). congruence. }
  split.
  - intros st st' [Hch Hp _ _ _ _ _] Hinv r c. rewrite Hp, Hch. apply Hinv.
  - exact Hchange.
  - intros c ch name st Hc Hinv r c' Hr. simpl in *.
    destruct (decide (c' = c)) as [->|Hne].
    + rewrite lookup_insert_eq. destruct (Hinv r c Hr) as (ch' & Hc' & Hs).
      eexists. split; [done|]. unfold get_status.
      rewrite (proj1 (confirmed_by_fields name ch)).
      replace ch with ch' by congruence. exact Hs.
    + rewrite lookup_insert_ne by done. by eapply Hinv.
  - apply elapse_keeps; [|exact Hchange|].
    + intros st st' Hch Hp _ _ _ Hinv r c. rewrite Hp, Hch. apply Hinv.
    + intros c ch st Hc Hinv r c' Hr. simpl in *.
      destruct (decide (c' = c)) as [->|Hne].
      * rewrite lookup_insert_eq. destruct (Hinv r c Hr) as (ch' & Hc' & Hs).
        eexists. split; [done|].
        replace ch with ch' by congruence. exact Hs.
      * rewrite lookup_insert_ne by done. by eapply Hinv.
Qed.

(** X2.  In a session without a reload, that is from any start-up state
    and through any intents, every pending request maps to a configured
    channel that is in a standby state; so a confirmation can only change
    the entry of a channel that is standing by. *)
Theorem pending_requests_are_for_channels_standing_by (st0 : TransmitterWindow)
    (l : list Intent) :
  startup_state st0 →
  requests_for_standby (run l st0) ∧
  ∀ decoded c,
    channels_data (on_confirmation_received decoded (run l st0)) !! c ≠
      channels_data (run l st0) !! c →
    ∃ ch, channels_data (run l st0) !! c = Some ch ∧
          is_standby (get_status ch) = true.
Proof.
  intros Hstart.
  assert (Hinv : requests_for_standby (run l st0)).
  { apply (run_keeps _ requests_for_standby_kept);
      [by apply startup_state_well_formed|].
    intros r c. rewrite (startup_state_no_requests _ Hstart). by rewrite lookup_empty. }
  split; [exact Hinv|]. intros decoded c Hchanged.
  destruct ((decoded ≫= conf_request_id) ≫= (λ r, pending_requests (run l st0) !! r))
    as [c'|] eqn:Hres;
    [|by rewrite on_confirmation_received_unresolved in Hchanged].
  destruct decoded as [data|]; [|done]. simpl in Hres.
  destruct (conf_request_id data) as [r|] eqn:Hr; [|done]. simpl in Hres.
  destruct (on_confirmation_received_resolved data r c' _ Hr Hres) as (Hch & _).
  rewrite Hch, lookup_alter in Hchanged.
  destruct (decide (c' = c)) as [->|Hne]; [|done].
  by eapply Hinv.
Qed.

Lemma pending_requests_are_for_channels_standing_by_witness :
  startup_state example_loaded ∧
  requests_for_standby (run [master_standby 2; solo_standby 1] example_loaded).
Proof.
  assert (Hstart : startup_state example_loaded) by apply startup_loaded.
  split; [exact Hstart|].
  exact (proj1 (pending_requests_are_for_channels_standing_by example_loaded
                  [master_standby 2; solo_standby 1] Hstart)).
Defined.

(** ** Subscriber lists hold no name twice *)

Lemma subscribers_nodup_kept : kept_by_steps subscribers_nodup.
Proof.
  assert (Hchange : ∀ c new st, well_formed st → subscribers_nodup st →
            subscribers_nodup (state_of (handle_status_change c new st))).
  { intros c new st _ Hinv.
    destruct (channels_data st !! c) as [ch|] eqn:Hc;
      [|by rewrite handle_status_change_unconfigured].
    pose proof (handle_status_change_core c new ch st Hc) as Hcore.
    intros c' ch'. rewrite (scc_channels _ _ _ _ _ Hcore).
    destruct (decide (c' = c)) as [->|Hne].
    - rewrite lookup_insert_eq. intros [= <-]. by apply (Hinv c ch).
    - rewrite lookup_insert_ne by done. apply Hinv. }
  split.
  - intros st st' [Hch _ _ _ _ _ _] Hinv c ch. rewrite Hch. apply Hinv.
  - exact Hchange.
  - intros c ch name st Hc Hinv c' ch'. simpl.
    destruct (decide (c' = c)) as [->|Hne].
    + rewrite lookup_insert_eq. intros [= <-].
      by apply NoDup_confirmed_by, (Hinv c ch).
    + rewrite lookup_insert_ne by done. apply Hinv.
  - apply elapse_keeps; [|exact Hchange|].
    + intros st st' Hch _ _ _ _ Hinv c ch. rewrite Hch. apply Hinv.
    + intros c ch st Hc Hinv c' ch'. simpl.
      destruct (decide (c' = c)) as [->|Hne].
      * rewrite lookup_insert_eq. intros [= <-]. apply NoDup_nil_2.
      * rewrite lookup_insert_ne by done. apply Hinv.
Qed.

(** X3.  Throughout every session no channel's subscriber list holds a
    name twice, however often and in whatever order confirmations
    arrive. *)
Theorem subscriber_lists_hold_no_name_twice (tx_id : string) (l : list Event) :
  subscribers_nodup (play l (initial_window tx_id)).
Proof.
  apply (play_keeps subscribers_nodup tx_id l subscribers_nodup_kept).
  - intros file st _ _ c ch.
    destruct (load_config_done file st) as (a & g & -> & _). simpl.
    intros [_ Hsubs]%lookup_loaded_channels.
    unfold get_confirmed. rewrite Hsubs. apply NoDup_nil_2.
  - intros st _ _ c ch. rewrite handle_new_config_done.
    change (channels_data (state_of (Done (set_cue_buttons
              (update_all_channel_displays (create_default_config st)) false false))))
      with (channels_data (create_default_config st)).
    intros [_ Hsubs]%lookup_default_channels.
    unfold get_confirmed. rewrite Hsubs. apply NoDup_nil_2.
  - intros c ch. simpl. by rewrite lookup_empty.
Qed.

(** ** Pending requests were announced *)



(** ** Go is timed *)











(** X6.  Timers are never cancelled: any pending timer of a channel that
    falls due ends the channel's Go, whenever the Go began.  A channel
    sent to Go again before an earlier timer ran is reverted, with its
    subscriber list cleared, when that earlier timer runs. *)
Theorem any_due_timer_ends_go (st : TransmitterWindow) (c due d : Z) (ch : Channel) :
  well_formed st →
  channels_data st !! c = Some ch → status ch = Some go →
  (due, c) ∈ timers st → due ≤ clock st + d →
  channels_data (elapse d st) !! c = Some (reverted ch).
Proof.
  intros Hwf Hc Hstatus Hin Hdue.
  destruct (elapse_spec d st Hwf) as (_ & _ & _ & _ & _ & Hch).
  rewrite Hch, Hc. rewrite decide_True; [done|]. split; [|done].
  apply list_elem_of_fmap. exists (due, c). split; [done|].
  apply list_elem_of_filter. split; [|done]. unfold timer_due. simpl. lia.
Qed.

Lemma any_due_timer_ends_go_witness :
  let st := run [master_standby 2; master_go; time_passes 1000;
                 master_standby 2; master_go; time_passes 1000] example_loaded in
  ∃ ch, channels_data st !! 2 = Some ch ∧ status ch = Some go ∧
        timers st = [(5000, 2); (6000, 2)] ∧ clock st = 2000 ∧
        channels_data (elapse 3000 st) !! 2 = Some (reverted ch).
Proof.
  intros st.
  assert (Hwf : well_formed st) by apply run_well_formed, example_loaded_well_formed.
  assert (Hc : ∃ ch, channels_data st !! 2 = Some ch ∧ status ch = Some go)
    by (vm_compute; eexists; split; reflexivity).
  assert (Htm : timers st = [(5000, 2); (6000, 2)]) by (vm_compute; reflexivity).
  assert (Hclk : clock st = 2000) by (vm_compute; reflexivity).
  clearbody st. destruct Hc as (ch & Hc & Hgo).
  exists ch. split_and!; [exact Hc|exact Hgo|exact Htm|exact Hclk|].
  apply (any_due_timer_ends_go st 2 5000 3000 ch Hwf Hc Hgo).
  - rewrite Htm. apply list_elem_of_here.
  - rewrite Hclk. lia.
Defined.

(** ** The channel configuration view *)

Lemma same_live_state_refl m : same_live_state m m.
Proof. intros i. by destruct (m !! i). Qed.

Lemma same_live_state_trans m1 m2 m3 :
  same_live_state m1 m2 → same_live_state m2 m3 → same_live_state m1 m3.
Proof.
  intros H12 H23 i. specialize (H12 i). specialize (H23 i).
  destruct (m1 !! i), (m2 !! i), (m3 !! i); try done.
  destruct H12 as [<- <-]. done.
Qed.

Lemma save_changes_row_Some temp row new :
  save_changes_row (Some temp) row = Some new →
  is_Some (temp !! row.1) ∧ same_live_state temp new.
Proof.
  unfold save_changes_row. simpl.
  destruct (color_option row.2.2) as [[hex text_hex]|]; simpl; [|done].
  destruct (temp !! row.1) as [ch|] eqn:Hrow; simpl; [|done].
  intros [= <-]. split; [done|]. intros i.
  destruct (decide (i = row.1)) as [->|Hne].
  - rewrite lookup_insert_eq, Hrow. done.
  - rewrite lookup_insert_ne by done. by destruct (temp !! i).
Qed.

Lemma foldl_save_changes_row_None rows : foldl save_changes_row None rows = None.
Proof. by induction rows. Qed.

Lemma foldl_save_changes_row_Some rows temp new :
  foldl save_changes_row (Some temp) rows = Some new →
  same_live_state temp new ∧ ∀ row, row ∈ rows → is_Some (temp !! row.1).
Proof.
  revert temp. induction rows as [|row rows IH]; intros temp; cbn [foldl].
  - intros [= <-]. split; [apply same_live_state_refl|]. by intros row []%elem_of_nil.
  - destruct (save_changes_row (Some temp) row) as [temp'|] eqn:Hrow;
      [|by rewrite foldl_save_changes_row_None].
    intros Hrest. destruct (save_changes_row_Some _ _ _ Hrow) as [Hhere Hstep].
    destruct (IH _ Hrest) as [Hsame Hrows]. split.
    + by eapply same_live_state_trans.
    + intros row' [->|Hin]%elem_of_cons; [done|].
      destruct (Hrows row' Hin) as [ch' Hch']. specialize (Hstep row'.1).
      rewrite Hch' in Hstep. by destruct (temp !! row'.1).
Qed.

(** X7.  Apply and Return writes back the statuses and the subscriber
    lists the table had when the configuration view was opened: whatever
    the rows were edited to and whatever happened to the live table in
    between (a revert, a confirmation), the table [on_config_saved]
    installs has the keys, statuses and subscribers of the snapshot, while
    pending requests and timers stay as they are. *)
Theorem apply_installs_the_snapshot_state (st st' : TransmitterWindow)
    (w : ChannelConfigWidget) (rows : list (Z * (string * string)))
    (new : gmap Z Channel) :
  save_changes (edit_rows rows (show_channel_config_view st w)) = Some new →
  same_live_state (channels_data st)
                  (channels_data (saved_window (on_config_saved new st'))) ∧
  pending_requests (saved_window (on_config_saved new st')) = pending_requests st' ∧
  timers (saved_window (on_config_saved new st')) = timers st'.
Proof.
  unfold save_changes. cbn [edit_rows show_channel_config_view update_config
                            temp_channels_data widgets].
  intros [Hsame _]%foldl_save_changes_row_Some. done.
Qed.

Lemma apply_installs_the_snapshot_state_witness :
  let opened := run [solo_standby 1; solo_standby 1]
                    (state_of (handle_new_config (initial_window "tx_1a2b3c4d"))) in
  let applied := elapse 5000 opened in
  let w := show_channel_config_view opened initial_config_widget in
  ∃ new,
    save_changes (edit_rows (widgets w) w) = Some new ∧
    status_of opened 1 = Some go ∧ status_of applied 1 = Some idle ∧
    timers applied = [] ∧
    same_live_state (channels_data opened)
                    (channels_data (saved_window (on_config_saved new applied))) ∧
    status_of (saved_window (on_config_saved new applied)) 1 = Some go ∧
    timers (saved_window (on_config_saved new applied)) = [].
Proof.
  intros opened applied w.
  assert (Hsaved : is_Some (save_changes (edit_rows (widgets w) w)))
    by (vm_compute; eexists; reflexivity).
  destruct Hsaved as [new Hnew]. exists new.
  assert (Hopened : ∃ ch, channels_data opened !! 1 = Some ch ∧ status ch = Some go)
    by (vm_compute; eexists; split; reflexivity).
  assert (Hidle : status_of applied 1 = Some idle) by (vm_compute; reflexivity).
  assert (Htimers : timers applied = []) by (vm_compute; reflexivity).
  destruct (apply_installs_the_snapshot_state opened applied initial_config_widget
              (widgets w) new Hnew) as (Hsame & _ & Htm).
  clearbody applied w.
  destruct Hopened as (ch & Hch & Hgo).
  split_and!; [exact Hnew| |exact Hidle|exact Htimers|exact Hsame| |by rewrite Htm].
  - unfold status_of, get_status. rewrite Hch. simpl. by rewrite Hgo.
  - specialize (Hsame 1). rewrite Hch in Hsame. unfold status_of, get_status.
    destruct (channels_data (saved_window (on_config_saved new applied)) !! 1)
      as [ch'|]; [|done].
    destruct Hsame as [Hstatus _]. simpl. by rewrite Hstatus, Hgo.
Defined.

(** X8.  Apply and Return needs all eight channels: when the table the
    view copied lacks the channel of one of its rows, [save_changes]
    raises [KeyError] before it emits anything, so nothing is saved. *)
Theorem apply_fails_on_a_missing_channel (w : ChannelConfigWidget)
    (row : Z * (string * string)) :
  row ∈ widgets w → temp_channels_data w !! row.1 = None → save_changes w = None.
Proof.
  intros Hin Hnone. unfold save_changes.
  destruct (foldl save_changes_row (Some (temp_channels_data w)) (widgets w))
    as [new|] eqn:Hfold; [|done].
  destruct (foldl_save_changes_row_Some _ _ _ Hfold) as [_ Hrows].
  destruct (Hrows row Hin) as [ch Hch]. congruence.
Qed.

Lemma apply_fails_on_a_missing_channel_witness :
  let w := show_channel_config_view example_loaded initial_config_widget in
  (4, ("", "White")) ∈ widgets w ∧ temp_channels_data w !! 4 = None ∧
  save_changes w = None.
Proof.
  intros w.
  assert (Hin : (4, ("", "White")) ∈ widgets w).
  { assert (Hw : widgets w !! 3%nat = Some (4, ("", "White")))
      by (vm_compute; reflexivity).
    by apply list_elem_of_lookup_2 in Hw. }
  assert (Hnone : temp_channels_data w !! (4, ("", "White")).1 = None)
    by (vm_compute; reflexivity).
  split_and!; [exact Hin|exact Hnone|].
  exact (apply_fails_on_a_missing_channel w (4, ("", "White")) Hin Hnone).
Defined.

Lemma substring_all (text : string) (n : nat) :
  (String.length text ≤ n)%nat → String.substring 0 n text = text.
Proof.
  revert n. induction text as [|a text IH]; intros [|n] Hlen; simpl in *;
    [done|done|lia|].
  rewrite IH; [done|lia].
Qed.

(** X9.  Opening the configuration view and applying it without an edit
    is the identity on the channel table, provided every row's channel
    exists, its label fits the name edit (12 characters) and its colour
    fields are those of its colour name in [COLOR_OPTIONS_PY]. *)
Theorem apply_without_edits_keeps_the_table (channels : gmap Z Channel)
    (w : ChannelConfigWidget) :
  (∀ row, row ∈ widgets w →
     ∃ ch, channels !! row.1 = Some ch ∧
           (String.length (label ch) ≤ 12)%nat ∧
           color_option (colorName ch) = Some (colorHex ch, textColorHex ch)) →
  save_changes (update_config channels w) = Some channels.
Proof.
  unfold save_changes. cbn [update_config temp_channels_data widgets].
  rewrite foldl_fmap.
  induction (widgets w) as [|row rows IH]; intros Hrows; [done|].
  cbn [foldl].
  destruct (Hrows row) as (ch & Hch & Hlen & Hcolor); [apply list_elem_of_here|].
  rewrite Hch, Hcolor. unfold save_changes_row at 2. simpl.
  rewrite Hcolor. simpl. rewrite Hch. simpl.
  unfold name_edit_set_text. rewrite (substring_all _ _ Hlen).
  replace (mkChannel _ _ _ _ _ _) with ch by by destruct ch.
  rewrite insert_id by done.
  apply IH. intros row' Hin. apply Hrows. by apply list_elem_of_further.
Qed.

Lemma apply_without_edits_keeps_the_table_witness :
  let channels :=
    channels_data (state_of (handle_new_config (initial_window "tx_1a2b3c4d"))) in
  save_changes (update_config channels initial_config_widget) = Some channels.
Proof.
  intros channels.
  apply apply_without_edits_keeps_the_table. intros row Hin.
  exists (default_channel (Z.to_nat row.1)).
  assert (Hrows : widgets initial_config_widget =
            (λ i, (i, ("", "White"))) <$> [1; 2; 3; 4; 5; 6; 7; 8]) by reflexivity.
  rewrite Hrows in Hin. clear Hrows. cbn [fmap list_fmap] in Hin.
  repeat (apply elem_of_cons in Hin as [->|Hin]);
    [..|by apply elem_of_nil in Hin];
    (split_and!; [vm_compute; reflexivity|vm_compute; lia|vm_compute; reflexivity]).
Defined.

(** ** Saving and loading *)

Lemma channels_data_load_config file st :
  channels_data (state_of (load_config file st)) = loaded_channels file st.
Proof. by destruct (load_config_done file st) as (a & g & -> & _). Qed.

Lemma current_cue_index_load_config file st :
  current_cue_index (state_of (load_config file st)) =
  if decide (loaded_cues file = []) then -1 else 0.
Proof. by destruct (load_config_done file st) as (a & g & -> & _). Qed.

Lemma lookup_saved_channels_loaded st st0 c :
  channels_data (state_of (load_config (Some (config_to_save st)) st0)) !! c =
    (λ ch, mkChannel (label ch) (colorName ch) (colorHex ch) (textColorHex ch)
                     (Some idle) (Some [])) <$> channels_data st !! c.
Proof.
  rewrite channels_data_load_config.
  unfold loaded_channels, config_to_save. cbn [doc_channels].
  rewrite !lookup_fmap. by destruct (channels_data st !! c).
Qed.

(** X10.  The live state is never persisted: saving any window and
    loading the document leaves every saved channel with its label and
    colours but idle and with an empty subscriber list, whatever it was
    when saved, and the cues in sorted order. *)
Theorem saved_show_loads_idle (st st0 : TransmitterWindow) (c : Z) :
  channels_data (state_of (load_config (Some (config_to_save st)) st0)) !! c =
    (λ ch, mkChannel (label ch) (colorName ch) (colorHex ch) (textColorHex ch)
                     (Some idle) (Some [])) <$> channels_data st !! c ∧
  cues (state_of (load_config (Some (config_to_save st)) st0)) = sort_cues (cues st).
Proof.
  split; [apply lookup_saved_channels_loaded|by rewrite cues_load_config].
Qed.

(** X11.  Save then load is a round trip on a loaded show: the document
    saved from a freshly loaded window loads back to the same channel
    table, the same cue list and the same cue pointer. *)
Theorem save_then_load_round_trip (file : option ShowDocument)
    (st0 st1 : TransmitterWindow) :
  let st := state_of (load_config file st0) in
  let st' := state_of (load_config (Some (config_to_save st)) st1) in
  channels_data st' = channels_data st ∧ cues st' = cues st ∧
  current_cue_index st' = current_cue_index st.
Proof.
  intros st st'. subst st'.
  assert (Hcues : loaded_cues (Some (config_to_save st)) = cues st).
  { unfold loaded_cues, config_to_save. cbn [doc_cues].
    subst st. rewrite cues_load_config. apply sort_cues_idem. }
  split_and!.
  - apply map_eq. intros c.
    rewrite lookup_saved_channels_loaded.
    subst st. rewrite channels_data_load_config.
    unfold loaded_channels. rewrite !lookup_fmap.
    by destruct (_ !! c).
  - by rewrite cues_load_config.
  - rewrite current_cue_index_load_config, Hcues.
    subst st. by rewrite cues_load_config, current_cue_index_load_config.
Qed.

(** ** Loading over a running show *)

(** X12.  A load does not withdraw requests: a confirmation that answers
    a request issued before the load is credited to the channel the
    request was for, which the load has just made idle, so an idle channel
    shows a confirmed subscriber. *)
Theorem confirmation_after_a_load_is_credited (st : TransmitterWindow)
    (file : option ShowDocument) (r : Uuid) (c : Z) (data : ConfirmationData)
    (ch : Channel) :
  pending_requests st !! r = Some c →
  conf_request_id data = Some r →
  channels_data (state_of (load_config file st)) !! c = Some ch →
  channels_data (on_confirmation_received (Some data)
                   (state_of (load_config file st))) !! c =
    Some (mkChannel (label ch) (colorName ch) (colorHex ch) (textColorHex ch)
                    (Some idle)
                    (Some [default "Unknown Receiver" (conf_receiver_name data)])).
Proof.
  intros Hr Hdata Hch.
  assert (Hpending : pending_requests (state_of (load_config file st)) !! r = Some c)
    by by rewrite load_config_keeps_pending_requests.
  destruct (on_confirmation_received_resolved data r c _ Hdata Hpending) as (-> & _).
  rewrite lookup_alter, decide_True by done. rewrite Hch. simpl.
  rewrite channels_data_load_config in Hch.
  destruct (lookup_loaded_channels _ _ _ _ Hch) as [Hidle Hsubs].
  unfold confirmed_by, get_confirmed, with_confirmed_subscribers.
  rewrite Hsubs, Hidle. done.
Qed.

Lemma confirmation_after_a_load_is_credited_witness :
  let st := run [master_standby 2] example_loaded in
  let data := mkConfirmationData (Some 0%N) None (Some "Stage Left") in
  let ch := mkChannel "Channel 2" "Magenta" "#E91E63" "#FFFFFF" (Some idle) (Some []) in
  pending_requests st !! 0%N = Some 2 ∧
  channels_data (state_of (load_config (Some example_show) st)) !! 2 = Some ch ∧
  channels_data (on_confirmation_received (Some data)
                   (state_of (load_config (Some example_show) st))) !! 2 =
    Some (mkChannel "Channel 2" "Magenta" "#E91E63" "#FFFFFF" (Some idle)
                    (Some ["Stage Left"])).
Proof.
  intros st data ch.
  assert (Hr : pending_requests st !! 0%N = Some 2) by (vm_compute; reflexivity).
  assert (Hch : channels_data (state_of (load_config (Some example_show) st)) !! 2 =
                Some ch) by (vm_compute; reflexivity).
  split_and!; [exact Hr|exact Hch|].
  exact (confirmation_after_a_load_is_credited st (Some example_show) 0%N 2 data ch
           Hr eq_refl Hch).
Defined.

(** X13.  A load does not disarm: when a cue was armed and the loaded
    show has cues, the window comes up armed on the first cue of the new
    show with GO CUE enabled and ARM CUE disabled. *)
Theorem load_keeps_the_armed_flag (st : TransmitterWindow)
    (file : option ShowDocument) :
  is_current_cue_armed st = true → loaded_cues file ≠ [] →
  is_current_cue_armed (state_of (load_config file st)) = true ∧
  current_cue_index (state_of (load_config file st)) = 0 ∧
  btn_go_cue_enabled (state_of (load_config file st)) = true ∧
  btn_arm_cue_enabled (state_of (load_config file st)) = false.
Proof.
  intros Harmed Hcues.
  unfold load_config, update_cue_header_display.
  assert (Hsorted : sort_cues (cues match file with
            | Some config => set_cues (set_channels_data st (doc_channels config))
                                      (doc_cues config)
            | None => create_default_config st
            end) = loaded_cues file) by by destruct file.
  cbn [cues set_cues set_current_cue_index set_channels_data
       update_all_channel_displays set_channel_widgets current_cue_index
       is_current_cue_armed].
  rewrite Hsorted.
  rewrite (decide_False (P := loaded_cues file = [])) by done.
  rewrite decide_True by done.
  destruct (loaded_cues file) as [|cue rest] eqn:Hloaded; [done|].
  simpl. by destruct file; simpl; rewrite Harmed.
Qed.

Lemma load_keeps_the_armed_flag_witness :
  let st := run [cue_arm] example_loaded in
  is_current_cue_armed st = true ∧ loaded_cues (Some single_cue_show) ≠ [] ∧
  btn_go_cue_enabled (state_of (load_config (Some single_cue_show) st)) = true.
Proof.
  intros st.
  assert (Harmed : is_current_cue_armed st = true) by (vm_compute; reflexivity).
  assert (Hcues : loaded_cues (Some single_cue_show) ≠ []) by (vm_compute; discriminate).
  split_and!; [exact Harmed|exact Hcues|].
  exact (proj1 (proj2 (proj2 (load_keeps_the_armed_flag st (Some single_cue_show)
                                 Harmed Hcues)))).
Defined.

(** ** Stepping through the cue list *)

Lemma pointer_moved_and_back st i j :
  j = current_cue_index st →
  set_cue_buttons
    (set_is_current_cue_armed
       (set_current_cue_index
          (set_cue_buttons
             (set_is_current_cue_armed (set_current_cue_index st i) false) true false)
          j) false) true false =
  set_cue_buttons (set_is_current_cue_armed st false) true false.
Proof. intros ->. by destruct st. Qed.

(** X15.  With the pointer on a cue, Prev undoes Next and Next undoes
    Prev: either way round the pointer is back where it was, the cue is
    disarmed, ARM CUE is enabled and GO CUE disabled; and as many presses
    of Next as there are cues bring the pointer back as well. *)
Theorem next_and_prev_undo_each_other (st : TransmitterWindow) :
  0 ≤ current_cue_index st < Z.of_nat (length (cues st)) →
  run [cue_next; cue_prev] st = run [cue_prev; cue_next] st ∧
  current_cue_index (run [cue_next; cue_prev] st) = current_cue_index st ∧
  is_current_cue_armed (run [cue_next; cue_prev] st) = false ∧
  btn_arm_cue_enabled (run [cue_next; cue_prev] st) = true ∧
  btn_go_cue_enabled (run [cue_next; cue_prev] st) = false ∧
  current_cue_index (next_times (length (cues st)) st) = current_cue_index st.
Proof.
  intros Hidx.
  assert (Hnp : run [cue_next; cue_prev] st =
                set_cue_buttons (set_is_current_cue_armed st false) true false).
  { unfold run. cbn [foldl step]. rewrite (next_cue_in_range st Hidx). cbn [state_of].
    rewrite prev_cue_in_range
      by (cbn [current_cue_index cues set_cue_buttons set_is_current_cue_armed
               set_current_cue_index]; case_decide; lia).
    cbn [state_of current_cue_index cues set_cue_buttons set_is_current_cue_armed
         set_current_cue_index].
    apply pointer_moved_and_back. repeat case_decide; lia. }
  assert (Hpn : run [cue_prev; cue_next] st =
                set_cue_buttons (set_is_current_cue_armed st false) true false).
  { unfold run. cbn [foldl step]. rewrite (prev_cue_in_range st Hidx). cbn [state_of].
    rewrite next_cue_in_range
      by (cbn [current_cue_index cues set_cue_buttons set_is_current_cue_armed
               set_current_cue_index]; case_decide; lia).
    cbn [state_of current_cue_index cues set_cue_buttons set_is_current_cue_armed
         set_current_cue_index].
    apply pointer_moved_and_back. repeat case_decide; lia. }
  rewrite Hnp, Hpn. split_and!; try done.
  assert (Hiter : ∀ k,
            cues (next_times k st) = cues st ∧
            current_cue_index (next_times k st) =
              (current_cue_index st + Z.of_nat k) `mod` Z.of_nat (length (cues st))).
  { induction k as [|k [Hcues Hk]].
    - cbn. split; [done|]. rewrite Z.add_0_r, Z.mod_small; lia.
    - assert (Hrange : 0 ≤ current_cue_index (next_times k st)
                         < Z.of_nat (length (cues st)))
        by (rewrite Hk; apply Z.mod_pos_bound; lia).
      unfold next_times. rewrite Nat.iter_succ.
      fold (next_times k st). rewrite next_cue_in_range by (rewrite Hcues; lia).
      cbn [state_of current_cue_index cues set_cue_buttons set_is_current_cue_armed
           set_current_cue_index].
      rewrite Hcues. split; [done|].
      replace (current_cue_index st + Z.of_nat (S k))
        with ((current_cue_index st + Z.of_nat k) + 1) by lia.
      rewrite <- Z.add_mod_idemp_l by lia. rewrite <- Hk.
      case_decide.
      + rewrite Z.mod_small by lia. lia.
      + replace (current_cue_index (next_times k st) + 1)
          with (Z.of_nat (length (cues st))) by lia.
        rewrite Z.mod_same by lia. lia. }
  destruct (Hiter (length (cues st))) as [_ ->].
  rewrite <- Z.add_mod_idemp_r, Z.mod_same, Z.add_0_r, Z.mod_small; lia.
Qed.

Lemma next_and_prev_undo_each_other_witness :
  0 ≤ current_cue_index example_loaded < Z.of_nat (length (cues example_loaded)) ∧
  current_cue_index (run [cue_next; cue_prev] example_loaded) =
    current_cue_index example_loaded.
Proof.
  assert (Hidx : 0 ≤ current_cue_index example_loaded
                   < Z.of_nat (length (cues example_loaded))) by (vm_compute; done).
  split; [exact Hidx|].
  exact (proj1 (proj2 (next_and_prev_undo_each_other example_loaded Hidx))).
Defined.

(** X16.  GO CUE fires once: pressed on an armed cue it disarms, moves
    the pointer to the next cue (to the first after the last), enables
    ARM CUE and disables GO CUE, so a second press changes nothing. *)
Theorem go_cue_fires_once (st : TransmitterWindow) :
  well_formed st →
  is_current_cue_armed st = true → btn_go_cue_enabled st = true →
  0 ≤ current_cue_index st < Z.of_nat (length (cues st)) →
  is_current_cue_armed (step cue_go st) = false ∧
  btn_go_cue_enabled (step cue_go st) = false ∧
  btn_arm_cue_enabled (step cue_go st) = true ∧
  current_cue_index (step cue_go st) =
    (if decide (current_cue_index st < Z.of_nat (length (cues st)) - 1)
     then current_cue_index st + 1 else 0) ∧
  step cue_go (step cue_go st) = step cue_go st.
Proof.
  intros Hwf Harmed Hbtn Hidx.
  assert (Hfields : is_current_cue_armed (step cue_go st) = false ∧
    btn_go_cue_enabled (step cue_go st) = false ∧
    btn_arm_cue_enabled (step cue_go st) = true ∧
    current_cue_index (step cue_go st) =
      (if decide (current_cue_index st < Z.of_nat (length (cues st)) - 1)
       then current_cue_index st + 1 else 0)).
  { cbn [step]. unfold btn_go_cue_clicked. rewrite Hbtn. unfold go_current_cue.
    rewrite decide_False by (intros [?|?]; [congruence|lia]).
    destruct (py_index_in_range (cues st) (current_cue_index st) Hidx) as [cue ->].
    destruct (for_each_status_change_spec (channelsInCue cue) go st Hwf)
      as (st1 & -> & _ & _ & Hsq & _).
    cbn [and_then].
    destruct Hsq as [Hcues Hindex _ _ _ _].
    rewrite next_cue_in_range
      by (cbn [current_cue_index cues set_is_current_cue_armed]; rewrite Hcues, Hindex; lia).
    cbn [state_of current_cue_index cues set_cue_buttons set_is_current_cue_armed
         set_current_cue_index is_current_cue_armed btn_go_cue_enabled
         btn_arm_cue_enabled].
    by rewrite Hcues, Hindex. }
  destruct Hfields as (Hdisarmed & Hgo & Harm & Hpointer).
  split_and!; try done.
  cbn [step]. unfold btn_go_cue_clicked at 1.
  change (state_of (btn_go_cue_clicked st)) with (step cue_go st).
  by rewrite Hgo.
Qed.

Lemma go_cue_fires_once_witness :
  let st := run [cue_arm] example_loaded in
  well_formed st ∧ is_current_cue_armed st = true ∧ btn_go_cue_enabled st = true ∧
  step cue_go (step cue_go st) = step cue_go st.
Proof.
  intros st.
  assert (Hwf : well_formed st) by apply run_well_formed, example_loaded_well_formed.
  assert (Harmed : is_current_cue_armed st = true) by (vm_compute; reflexivity).
  assert (Hbtn : btn_go_cue_enabled st = true) by (vm_compute; reflexivity).
  assert (Hidx : 0 ≤ current_cue_index st < Z.of_nat (length (cues st)))
    by (vm_compute; done).
  split_and!; [exact Hwf|exact Harmed|exact Hbtn|].
  exact (proj2 (proj2 (proj2 (proj2 (go_cue_fires_once st Hwf Harmed Hbtn Hidx))))).
Defined.

(** ** Transmitter and receiver together *)

(** X17.  The standby handshake completes: the message a change to a
    standby status publishes, handled by any receiver subscribed to that
    channel, makes that receiver's confirm press answer on the
    transmitter's confirmations topic, and handling the answer puts the
    receiver's name on the subscriber list of the channel, which is still
    in the standby status. *)
Theorem standby_handshake_completes (tx : TransmitterWindow) (c : Z) (new : Status)
    (ch : Channel) (rx : ReceiverWindow) :
  well_formed tx → channels_data tx !! c = Some ch → is_standby new = true →
  subscribed_channel_id rx = c →
  ∃ tx' payload,
    handle_status_change c new tx = Done tx' ∧
    last (published tx') = Some (channel_status_topic c, payload) ∧
    let rx' := handle_confirm_press
                 (handle_mqtt_message (channel_status_topic c) (Some payload) rx) in
    ∃ ch', channels_data (deliver (drop (length (sent rx)) (sent rx')) tx') !! c =
             Some ch' ∧
           receiver_name rx ∈ get_confirmed ch' ∧ status ch' = Some new.
Proof.
  intros Hwf Hc Hnew Hsub.
  pose proof (handle_status_change_core c new ch tx Hc) as Hcore.
  destruct (handle_status_change_finish c new ch tx (wf_pointer _ Hwf) Hc)
    as (tx' & Hdone & Hfin).
  rewrite Hdone in Hcore. cbn [state_of] in Hcore.
  destruct (scf_published _ _ _ _ _ Hfin) as (payload & Hpub & Hdata & Hid & Htopic).
  rewrite Hnew in Hid, Htopic.
  exists tx', payload. split; [done|]. split; [by rewrite Hpub, last_snoc|].
  assert (Hpending : pending_requests tx' !! uuid_next tx = Some c).
  { rewrite (scc_pending _ _ _ _ _ Hcore). unfold pending_after. rewrite Hnew.
    apply lookup_insert_eq. }
  assert (Hch : channels_data tx' !! c = Some (with_status new ch)).
  { rewrite (scc_channels _ _ _ _ _ Hcore). apply lookup_insert_eq. }
  assert (Hsent : sent (handle_confirm_press
             (handle_mqtt_message (channel_status_topic c) (Some payload) rx)) =
           sent rx ++ [(confirmations_topic (transmitter_id tx'),
                        mkConfirmationPayload (uuid_next tx) (receiver_id rx)
                                              (receiver_name rx))]).
  { unfold handle_mqtt_message. rewrite Hsub, decide_True by done.
    unfold update_display_from_data, handle_confirm_press. rewrite Hdata.
    change (get_status (with_status new ch)) with new.
    rewrite (scc_tx _ _ _ _ _ Hcore).
    destruct new; try done; simpl; by rewrite Hid, Htopic. }
  cbn zeta. rewrite Hsent, drop_app_length.
  destruct (deliver_one (uuid_next tx) (receiver_id rx) (receiver_name rx) c
              (with_status new ch) tx' [] Hpending Hch) as (tx1 & -> & Hch1 & _).
  exists (confirmed_by (receiver_name rx) (with_status new ch)).
  split; [exact Hch1|]. split; [apply elem_of_confirmed_by|].
  by rewrite (proj1 (confirmed_by_fields _ _)).
Qed.

Lemma standby_handshake_completes_witness :
  let rx := initial_receiver "rx_77" "Stage Left" 2 in
  ∃ tx' payload,
    handle_status_change 2 standby_master example_loaded = Done tx' ∧
    last (published tx') = Some (channel_status_topic 2, payload) ∧
    let rx' := handle_confirm_press
                 (handle_mqtt_message (channel_status_topic 2) (Some payload) rx) in
    ∃ ch', channels_data (deliver (drop (length (sent rx)) (sent rx')) tx') !! 2 =
             Some ch' ∧
           receiver_name rx ∈ get_confirmed ch' ∧ status ch' = Some standby_master.
Proof.
  intros rx.
  assert (Hc : ∃ ch, channels_data example_loaded !! 2 = Some ch)
    by (vm_compute; eexists; reflexivity).
  destruct Hc as [ch Hc].
  exact (standby_handshake_completes example_loaded 2 standby_master ch rx
           example_loaded_well_formed Hc eq_refl eq_refl).
Defined.

(** ** The receiver *)

(** X18.  The last status message decides what a confirm press answers.
    Whatever the receiver held or had confirmed before, after a status
    message for its channel a press sends one confirmation for the
    request of that message when the status is a standby status (and the
    message carries a request id and a response topic), and sends nothing
    otherwise; a second press sends nothing more. *)
Theorem last_status_message_decides_the_answer (rx : ReceiverWindow)
    (data : StatusPayload) :
  let rx' := handle_mqtt_message (channel_status_topic (subscribed_channel_id rx))
                                 (Some data) rx in
  sent (handle_confirm_press rx') =
    sent rx ++
    (if is_standby (get_status (payload_channel data)) then
       match response_topic data, request_id data with
       | Some topic, Some rid =>
         [(topic, mkConfirmationPayload rid (receiver_id rx) (receiver_name rx))]
       | _, _ => []
       end
     else []) ∧
  handle_confirm_press (handle_confirm_press rx') = handle_confirm_press rx'.
Proof.
  cbn zeta. unfold handle_mqtt_message. rewrite decide_True by done.
  unfold update_display_from_data, handle_confirm_press.
  destruct (get_status (payload_channel data)); simpl;
    rewrite ?app_nil_r; try done;
    destruct (response_topic data), (request_id data); simpl;
    by rewrite ?app_nil_r.
Qed.

(** X19.  Saving the receiver settings does not withdraw a captured
    request: a confirm press after a rename or a move to another channel
    still answers the request of the old channel, under the new name, and
    status messages of the old channel are no longer handled. *)
Theorem settings_change_keeps_the_captured_request (rx : ReceiverWindow)
    (name broker_ip : string) (channel_id : Z) (rid : Uuid) (topic : Topic) :
  current_request_id rx = Some rid → current_response_topic rx = Some topic →
  is_confirmed rx = false →
  let rx' := (save_settings name channel_id broker_ip rx).1 in
  sent (handle_confirm_press rx') =
    sent rx ++ [(topic, mkConfirmationPayload rid (receiver_id rx) name)] ∧
  (channel_id ≠ subscribed_channel_id rx →
   ∀ decoded, handle_mqtt_message (channel_status_topic (subscribed_channel_id rx))
                                  decoded rx' = rx').
Proof.
  intros Hrid Htopic Hconfirmed. cbn zeta. split.
  - unfold save_settings, handle_confirm_press. simpl.
    by rewrite Hrid, Htopic, Hconfirmed.
  - intros Hmoved [data|]; [|done]. unfold handle_mqtt_message, save_settings.
    cbn [fst subscribed_channel_id].
    rewrite decide_False; [done|]. intros [= Heq]. by apply Hmoved.
Qed.

Lemma settings_change_keeps_the_captured_request_witness :
  let rx := mkReceiver "rx_77" "Stage Left" 2 (Some 0%N)
              (Some (confirmations_topic "tx_1a2b3c4d")) false true [] in
  sent (handle_confirm_press (save_settings "Fly Floor" 5 "localhost" rx).1) =
    [(confirmations_topic "tx_1a2b3c4d",
      mkConfirmationPayload 0%N "rx_77" "Fly Floor")].
Proof.
  intros rx.
  exact (proj1 (settings_change_keeps_the_captured_request rx "Fly Floor" "localhost" 5
                  0%N (confirmations_topic "tx_1a2b3c4d") eq_refl eq_refl eq_refl)).
Defined.

(** ** The countdown of a column widget *)

Lemma countdown_ticks_add n m w :
  countdown_ticks (n + m) w = countdown_ticks n (countdown_ticks m w).
Proof. unfold countdown_ticks. by rewrite Nat.iter_add. Qed.

Lemma countdown_ticks_stopped n w :
  countdown_timer_active w = false → countdown_ticks n w = w.
Proof.
  intros Hstopped. induction n as [|n IH]; [done|].
  unfold countdown_ticks in *. rewrite Nat.iter_succ, IH.
  unfold countdown_tick. by rewrite Hstopped.
Qed.

(** X20.  A column widget shown a channel in Go counts down from
    [GO_DURATION_MS // 1000]: after [n] timeouts of its one-second timer,
    [n] up to 5, the label reads GO! (5 - n) and the timer still runs; the
    sixth timeout stops the timer and leaves GO! (0), and later timeouts
    change nothing.  Showing the channel again restarts the count at 5. *)
Theorem countdown_runs_from_five_to_zero (data : Channel)
    (w : ChannelColumnWidget) (n : nat) :
  get_status data = go →
  let shown := countdown_ticks n (update_display data w) in
  status_label shown = "GO! (" +:+ pretty (5 - Z.of_nat (n `min` 5)) +:+ ")" ∧
  countdown_timer_active shown = bool_decide (n ≤ 5)%nat ∧
  update_display data shown = update_display data w.
Proof.
  intros Hgo. cbn zeta.
  assert (Hfirst : update_display data w = mkChannelColumnWidget go 5 true "GO! (5)").
  { unfold update_display. rewrite Hgo. done. }
  rewrite Hfirst.
  assert (Hagain : ∀ w', update_display data w' =
                         mkChannelColumnWidget go 5 true "GO! (5)").
  { intros w'. unfold update_display. rewrite Hgo. done. }
  rewrite Hagain. split_and!; [| |done].
  - destruct (decide (n ≤ 5)%nat) as [Hn|Hn].
    + do 6 (destruct n as [|n]; [vm_compute; reflexivity|]). lia.
    + replace n with ((n - 6) + 6)%nat by lia.
      rewrite countdown_ticks_add, countdown_ticks_stopped by (vm_compute; reflexivity).
      replace (((n - 6) + 6) `min` 5)%nat with 5%nat by lia.
      vm_compute. reflexivity.
  - destruct (decide (n ≤ 5)%nat) as [Hn|Hn].
    + rewrite bool_decide_eq_true_2 by done.
      do 6 (destruct n as [|n]; [vm_compute; reflexivity|]). lia.
    + rewrite bool_decide_eq_false_2 by done.
      replace n with ((n - 6) + 6)%nat by lia.
      by rewrite countdown_ticks_add, countdown_ticks_stopped by (vm_compute; reflexivity).
Qed.

Lemma countdown_runs_from_five_to_zero_witness :
  let w := mkChannelColumnWidget idle 0 false "IDLE" in
  status_label (countdown_ticks 3 (update_display (with_status go channel_2_standing_by) w))
    = "GO! (2)".
Proof.
  intros w.
  exact (proj1 (countdown_runs_from_five_to_zero (with_status go channel_2_standing_by)
                  w 3 eq_refl)).
Defined.

(** ** The standby buttons *)

(** X21.  Master Standby is a toggle: pressed twice on a configured
    channel that was not in StandbyMaster, it leaves the channel idle,
    with no pending request mapping to it (the one the first press issued
    and any older one are revoked) and every other channel as it was. *)
Theorem master_standby_twice_returns_to_idle (st : TransmitterWindow) (c : Z)
    (ch : Channel) :
  well_formed st → channels_data st !! c = Some ch →
  is_Some (channel_widgets st !! c) → get_status ch ≠ standby_master →
  channels_data (run [master_standby c; master_standby c] st) !! c =
    Some (with_status idle ch) ∧
  (∀ r, pending_requests (run [master_standby c; master_standby c] st) !! r ≠ Some c) ∧
  (∀ c', c' ≠ c →
     channels_data (run [master_standby c; master_standby c] st) !! c' =
     channels_data st !! c').
Proof.
  intros Hwf Hc [w Hw] Hstatus.
  assert (Hshown : w = get_status ch) by by eapply (wf_widgets _ Hwf).
  pose proof (handle_status_change_core c standby_master ch st Hc) as Hcore.
  destruct (handle_status_change_finish c standby_master ch st (wf_pointer _ Hwf) Hc)
    as (st1 & Hdone & Hfin).
  rewrite Hdone in Hcore. cbn [state_of] in Hcore.
  assert (Hc1 : channels_data st1 !! c = Some (with_status standby_master ch)).
  { rewrite (scc_channels _ _ _ _ _ Hcore). apply lookup_insert_eq. }
  assert (Hw1 : channel_widgets st1 !! c = Some standby_master).
  { rewrite (scf_widgets _ _ _ _ _ Hfin), Hw, Hc1. done. }
  assert (Hrun : run [master_standby c; master_standby c] st =
                 state_of (handle_status_change c idle st1)).
  { unfold run. cbn [foldl step].
    assert (Hfirst : master_sb_clicked c st = Done st1).
    { unfold master_sb_clicked. rewrite Hw, decide_False by congruence. exact Hdone. }
    rewrite Hfirst. cbn [state_of].
    unfold master_sb_clicked. by rewrite Hw1, decide_True. }
  rewrite Hrun.
  pose proof (handle_status_change_core c idle _ st1 Hc1) as Hcore2.
  split_and!.
  - rewrite (scc_channels _ _ _ _ _ Hcore2), lookup_insert_eq. by destruct ch.
  - intros r. rewrite (scc_pending _ _ _ _ _ Hcore2). unfold pending_after. simpl.
    rewrite lookup_revoke_requests.
    destruct (pending_requests st1 !! r) as [c'|]; [|done].
    destruct (decide (c' = c)); congruence.
  - intros c' Hne.
    rewrite (scc_channels _ _ _ _ _ Hcore2), lookup_insert_ne by done.
    by rewrite (scc_channels _ _ _ _ _ Hcore), lookup_insert_ne.
Qed.

Lemma master_standby_twice_returns_to_idle_witness :
  ∃ ch, channels_data example_loaded !! 2 = Some ch ∧
        channels_data (run [master_standby 2; master_standby 2] example_loaded) !! 2 =
          Some (with_status idle ch).
Proof.
  assert (Hc : ∃ ch, channels_data example_loaded !! 2 = Some ch ∧
                     get_status ch ≠ standby_master)
    by (vm_compute; eexists; split; [reflexivity|discriminate]).
  assert (Hw : is_Some (channel_widgets example_loaded !! 2))
    by (vm_compute; eexists; reflexivity).
  destruct Hc as (ch & Hc & Hstatus). exists ch. split; [exact Hc|].
  exact (proj1 (master_standby_twice_returns_to_idle example_loaded 2 ch
                  example_loaded_well_formed Hc Hw Hstatus)).
Defined.

(** ** Before a show exists *)

(** X22.  When the start-up load was cancelled the window has no
    channels and no cues, and it is inert: no sequence of clicks,
    confirmations and timeouts changes anything but the clock; in
    particular nothing is published and no request is issued. *)
Theorem nothing_happens_without_a_show (tx_id : string) (l : list Intent) :
  ∃ t, run l (initial_window tx_id) = set_clock (initial_window tx_id) t.
Proof.
  induction l as [|i l [t IH]] using rev_ind.
  - by exists 0.
  - rewrite run_snoc, IH.
    destruct i as [c|c| | | | | |d|decoded];
      try (exists t; cbn [step]; reflexivity).
    + exists t. cbn [step]. unfold master_sb_clicked.
      destruct (channel_widgets _ !! c); [|done].
      by case_decide; rewrite handle_status_change_unconfigured by apply lookup_empty.
    + exists t. cbn [step]. unfold solo_op_clicked.
      destruct (channel_widgets _ !! c); [|done].
      by case_decide; rewrite handle_status_change_unconfigured by apply lookup_empty.
    + by exists (t + Z.max 0 d).
    + exists t. cbn [step]. apply on_confirmation_received_unresolved.
      destruct decoded as [data|]; [|done]. simpl.
      destruct (conf_request_id data); [|done]. apply lookup_empty.
Qed.

(** X23.  A solo cue runs its course: on a configured channel that is
    not in StandbySolo, two presses of the solo button (Solo Standby, then
    Solo GO) put the channel in Go, and once the GO duration has passed
    the channel is idle again with its subscriber list cleared. *)
Theorem solo_cue_runs_its_course (st : TransmitterWindow) (c : Z) (ch : Channel) :
  well_formed st → channels_data st !! c = Some ch →
  is_Some (channel_widgets st !! c) → get_status ch ≠ standby_solo →
  status_of (run [solo_standby c; solo_standby c] st) c = Some go ∧
  ∀ d, GO_DURATION_MS ≤ d →
    channels_data (run [solo_standby c; solo_standby c; time_passes d] st) !! c =
      Some (reverted ch).
Proof.
  intros Hwf Hc [w Hw] Hstatus.
  assert (Hshown : w = get_status ch) by by eapply (wf_widgets _ Hwf).
  pose proof (handle_status_change_core c standby_solo ch st Hc) as Hcore.
  destruct (handle_status_change_finish c standby_solo ch st (wf_pointer _ Hwf) Hc)
    as (st1 & Hdone & Hfin).
  destruct (handle_status_change_well_formed c standby_solo st Hwf)
    as (st1' & Hdone' & Hwf1).
  rewrite Hdone in Hdone'. injection Hdone' as <-.
  rewrite Hdone in Hcore. cbn [state_of] in Hcore.
  assert (Hc1 : channels_data st1 !! c = Some (with_status standby_solo ch)).
  { rewrite (scc_channels _ _ _ _ _ Hcore). apply lookup_insert_eq. }
  assert (Hw1 : channel_widgets st1 !! c = Some standby_solo).
  { rewrite (scf_widgets _ _ _ _ _ Hfin), Hw, Hc1. done. }
  pose proof (handle_status_change_core c go _ st1 Hc1) as Hcore2.
  destruct (handle_status_change_finish c go _ st1 (wf_pointer _ Hwf1) Hc1)
    as (st2 & Hdone2 & Hfin2).
  destruct (handle_status_change_well_formed c go st1 Hwf1)
    as (st2' & Hdone2' & Hwf2).
  rewrite Hdone2 in Hdone2'. injection Hdone2' as <-.
  rewrite Hdone2 in Hcore2. cbn [state_of] in Hcore2.
  assert (Hrun : run [solo_standby c; solo_standby c] st = st2).
  { unfold run. cbn [foldl step].
    assert (Hfirst : solo_op_clicked c st = Done st1).
    { unfold solo_op_clicked. rewrite Hw, decide_False by congruence. exact Hdone. }
    rewrite Hfirst. cbn [state_of].
    unfold solo_op_clicked. by rewrite Hw1, decide_True, Hdone2. }
  assert (Hc2 : channels_data st2 !! c =
                Some (with_status go (with_status standby_solo ch))).
  { rewrite (scc_channels _ _ _ _ _ Hcore2). apply lookup_insert_eq. }
  split.
  - rewrite Hrun. unfold status_of. by rewrite Hc2.
  - intros d Hd.
    change (run [solo_standby c; solo_standby c; time_passes d] st)
      with (elapse d (run [solo_standby c; solo_standby c] st)).
    rewrite Hrun.
    destruct (elapse_spec d st2 Hwf2) as (_ & _ & _ & _ & _ & Hch).
    rewrite Hch, Hc2. rewrite decide_True; [by destruct ch as [? ? ? ? ? []]|].
    split; [|done].
    apply list_elem_of_fmap. exists (clock st2 + GO_DURATION_MS, c). split; [done|].
    apply list_elem_of_filter. split; [unfold timer_due; simpl; lia|].
    rewrite (scf_timers _ _ _ _ _ Hfin2), decide_True by done.
    rewrite (scc_clock _ _ _ _ _ Hcore2).
    apply elem_of_app. right. apply list_elem_of_here.
Qed.

Lemma solo_cue_runs_its_course_witness :
  ∃ ch, channels_data example_loaded !! 2 = Some ch ∧
        status_of (run [solo_standby 2; solo_standby 2] example_loaded) 2 = Some go ∧
        channels_data (run [solo_standby 2; solo_standby 2; time_passes 5000]
                           example_loaded) !! 2 = Some (reverted ch).
Proof.
  assert (Hc : ∃ ch, channels_data example_loaded !! 2 = Some ch ∧
                     get_status ch ≠ standby_solo)
    by (vm_compute; eexists; split; [reflexivity|discriminate]).
  assert (Hw : is_Some (channel_widgets example_loaded !! 2))
    by (vm_compute; eexists; reflexivity).
  destruct Hc as (ch & Hc & Hstatus). exists ch. split; [exact Hc|].
  destruct (solo_cue_runs_its_course example_loaded 2 ch
              example_loaded_well_formed Hc Hw Hstatus) as [Hgo Hback].
  split; [exact Hgo|]. apply Hback. unfold GO_DURATION_MS. lia.
Defined.

(** ** Leaving standby through a status change *)

(** X27.  A status change revokes: when [handle_status_change] gives a
    configured channel in a standby state a status that is not a standby
    state, no pending request maps to the channel any more once the call
    has run (also when the call raises afterwards), so a confirmation
    carrying a request id [r] issued during that standby is dropped and
    leaves the whole state as it is; in a well-formed transmitter this
    stays so however many intents are processed before the confirmation
    arrives. *)
Theorem leaving_standby_revokes_requests (st : TransmitterWindow) (c : Z)
    (ch : Channel) (new : Status) (r : Uuid) (data : ConfirmationData) :
  channels_data st !! c = Some ch →
  is_standby (get_status ch) = true → is_standby new = false →
  pending_requests st !! r = Some c →
  conf_request_id data = Some r →
  let st' := state_of (handle_status_change c new st) in
  (∀ r', pending_requests st' !! r' ≠ Some c) ∧
  on_confirmation_received (Some data) st' = st' ∧
  (well_formed st →
   ∀ later : list Intent,
     on_confirmation_received (Some data) (run later st') = run later st').
Proof.
  intros Hc Hold Hnew Hr Hdata. cbv zeta.
  pose proof (handle_status_change_core c new ch st Hc) as Hcore.
  remember (state_of (handle_status_change c new st)) as st' eqn:Hst'.
  assert (Hpend : pending_requests st' = revoke_requests c (pending_requests st)).
  { rewrite (scc_pending _ _ _ _ _ Hcore). unfold pending_after.
    by rewrite Hold, Hnew. }
  assert (Hgone : pending_requests st' !! r = None).
  { rewrite Hpend, lookup_revoke_requests, Hr. by rewrite decide_True. }
  split_and!.
  - intros r'. rewrite Hpend, lookup_revoke_requests.
    destruct (pending_requests st !! r') as [c'|]; [|done].
    destruct (decide (c' = c)); congruence.
  - apply on_confirmation_received_unresolved. simpl. by rewrite Hdata.
  - intros Hwf later.
    destruct (handle_status_change_well_formed c new st Hwf) as (st1 & Hdone & Hwf1).
    assert (st1 = st') as -> by (by rewrite Hst', Hdone).
    destruct (run_well_formed later st' Hwf1) as (_ & [_ Hext] & _).
    apply on_confirmation_received_unresolved. simpl. rewrite Hdata. simpl.
    destruct (pending_requests (run later st') !! r) as [c'|] eqn:Hlater; [|done].
    exfalso. destruct (Hext r c' Hlater) as [Hback|Hfresh].
    { by rewrite Hgone in Hback. }
    pose proof (wf_requests _ Hwf r c Hr) as Hissued.
    rewrite (scc_uuid _ _ _ _ _ Hcore), Hnew in Hfresh. lia.
Qed.

Lemma leaving_standby_revokes_requests_witness :
  let st := run [master_standby 2] example_loaded in
  let data := mkConfirmationData (Some 0%N) (Some "rx-1") (Some "Stage Left") in
  let st' := state_of (handle_status_change 2 idle st) in
  pending_requests st !! 0%N = Some 2 ∧
  (∀ r', pending_requests st' !! r' ≠ Some 2) ∧
  on_confirmation_received (Some data) st' = st'.
Proof.
  cbv zeta.
  assert (Hp : pending_requests (run [master_standby 2] example_loaded) !! 0%N = Some 2)
    by (vm_compute; reflexivity).
  assert (Hc : channels_data (run [master_standby 2] example_loaded) !! 2 =
               Some channel_2_standing_by)
    by (vm_compute; reflexivity).
  split; [exact Hp|].
  destruct (leaving_standby_revokes_requests
              (run [master_standby 2] example_loaded) 2 channel_2_standing_by idle 0%N
              (mkConfirmationData (Some 0%N) (Some "rx-1") (Some "Stage Left"))
              Hc eq_refl eq_refl Hp eq_refl) as (Hnone & Hdrop & _).
  split; [exact Hnone|exact Hdrop].
Defined.

(** ** The revert at expiry *)

Lemma revert_go_to_idle_published c st :
  well_formed st →
  ∃ msgs, published (state_of (revert_go_to_idle c st)) = published st ++ msgs ∧
    ((channels_data st !! c ≫= status) = Some go →
     ∃ payload, msgs = [(channel_status_topic c, payload)] ∧
                status (payload_channel payload) = Some idle).
Proof.
  intros Hwf. unfold revert_go_to_idle.
  destruct (channels_data st !! c) as [ch|] eqn:Hc;
    [|exists []; by rewrite app_nil_r].
  destruct (decide (status ch = Some go)) as [Hgo|Hgo];
    [|exists []; split; [by rewrite app_nil_r|simpl; by intros ?]].
  set (st1 := match confirmed_subscribers ch with Some _ => _ | None => st end).
  assert (Hptr1 : pointer_ok st1).
  { subst st1. destruct (confirmed_subscribers ch); exact (wf_pointer _ Hwf). }
  assert (Hc1 : is_Some (channels_data st1 !! c)).
  { subst st1. destruct (confirmed_subscribers ch); simpl;
      [rewrite lookup_insert_eq|rewrite Hc]; by eexists. }
  assert (Hpub1 : published st1 = published st).
  { subst st1. by destruct (confirmed_subscribers ch). }
  destruct Hc1 as [ch1 Hc1].
  destruct (handle_status_change_finish c idle ch1 st1 Hptr1 Hc1)
    as (st' & -> & Hfin).
  destruct (scf_published _ _ _ _ _ Hfin) as (payload & Hp & Hpc & _).
  exists [(channel_status_topic c, payload)]. cbn [state_of].
  split; [by rewrite Hp, Hpub1|]. intros _. exists payload. by rewrite Hpc.
Qed.

Lemma run_timers_published_prefix due st :
  well_formed st → ∃ msgs, published (run_timers due st) = published st ++ msgs.
Proof.
  revert st. induction due as [|tm due IH]; intros st Hwf.
  - exists []. by rewrite app_nil_r.
  - change (run_timers (tm :: due) st)
      with (run_timers due (state_of (revert_go_to_idle tm.2 (set_clock st tm.1)))).
    assert (Hwf0 : well_formed (set_clock st tm.1)) by by apply well_formed_set_clock.
    destruct (revert_go_to_idle_spec tm.2 _ Hwf0) as (st1 & Hdone & Hwf1 & _).
    destruct (revert_go_to_idle_published tm.2 _ Hwf0) as (msgs & Hpub & _).
    rewrite Hdone in *. cbn [state_of] in *.
    destruct (IH st1 Hwf1) as (more & ->). rewrite Hpub.
    exists (msgs ++ more). by rewrite <- (assoc_L (++)).
Qed.

Lemma run_timers_published due st c t :
  well_formed st → (t, c) ∈ due → (channels_data st !! c ≫= status) = Some go →
  ∃ before payload after,
    published (run_timers due st) =
      published st ++ before ++ (channel_status_topic c, payload) :: after ∧
    status (payload_channel payload) = Some idle.
Proof.
  revert st. induction due as [|tm due IH]; intros st Hwf Hin Hgo;
    [by apply elem_of_nil in Hin|].
  change (run_timers (tm :: due) st)
    with (run_timers due (state_of (revert_go_to_idle tm.2 (set_clock st tm.1)))).
  assert (Hwf0 : well_formed (set_clock st tm.1)) by by apply well_formed_set_clock.
  destruct (revert_go_to_idle_spec tm.2 _ Hwf0) as (st1 & Hdone & Hwf1 & _ & _ & _ & Hch1).
  destruct (revert_go_to_idle_published tm.2 _ Hwf0) as (msgs & Hpub & Hmsg).
  rewrite Hdone in *. cbn [state_of] in *.
  destruct (decide (tm.2 = c)) as [Heq|Hne].
  - rewrite Heq in Hmsg. destruct (Hmsg Hgo) as (payload & -> & Hidle).
    destruct (run_timers_published_prefix due st1 Hwf1) as (after & ->).
    exists [], payload, after. split; [|done].
    rewrite Hpub. cbn [published set_clock]. by rewrite <- (assoc_L (++)).
  - apply elem_of_cons in Hin as [Heq|Hin]; [by rewrite <- Heq in Hne|].
    destruct (IH st1 Hwf1 Hin) as (before & payload & after & -> & Hidle).
    { rewrite Hch1. cbn [channels_data set_clock].
      destruct (channels_data st !! c) as [ch|]; [|done]. simpl in *.
      rewrite decide_False; [done|]. intros [? _]. congruence. }
    exists (msgs ++ before), payload, after. split; [|done].
    rewrite Hpub. cbn [published set_clock]. by rewrite <- !(assoc_L (++)).
Qed.

Lemma elapse_published d st c t :
  well_formed st →
  (t, c) ∈ filter (timer_due (clock st + Z.max 0 d)) (timers st) →
  (channels_data st !! c ≫= status) = Some go →
  ∃ before payload after,
    published (elapse d st) =
      published st ++ before ++ (channel_status_topic c, payload) :: after ∧
    status (payload_channel payload) = Some idle.
Proof.
  intros Hwf Hin Hgo. unfold elapse.
  set (st0 := set_timers st _).
  exact (run_timers_published _ st0 c t (well_formed_set_timers _ _ Hwf) Hin Hgo).
Qed.

(** X28.  In a well-formed transmitter, for a configured channel [c]: a
    status change to Go starts a one-shot timer due [GO_DURATION_MS] =
    5000 ms later; the timer's callback does nothing at all unless the
    channel's status is Go when it runs; if it is, the callback clears the
    subscriber list, sets the status to Idle through
    [handle_status_change] and publishes one status message.  If the
    channel is put in StandbyMaster [d] < 5000 ms after entering Go, the
    timer is still pending then, it has run once 5000 ms have passed, and
    the channel's entry is then exactly what the StandbyMaster change
    left.  If nothing intervenes, the timer runs when the 5000 ms have
    passed: the channel is idle with its subscribers cleared, a status
    message that says so has been published, and the timer is gone. *)
Theorem revert_is_scheduled_and_guarded (st : TransmitterWindow) (c : Z)
    (ch : Channel) :
  well_formed st → channels_data st !! c = Some ch →
  (∃ entered, handle_status_change c go st = Done entered ∧
     timers entered = timers st ++ [(clock st + 5000, c)]) ∧
  (∀ s, (channels_data s !! c ≫= status) ≠ Some go → revert_go_to_idle c s = Done s) ∧
  (status ch = Some go →
   ∃ st' payload,
     revert_go_to_idle c st = Done st' ∧
     channels_data st' !! c = Some (reverted ch) ∧
     status (reverted ch) = Some idle ∧ get_confirmed (reverted ch) = [] ∧
     published st' = published st ++ [(channel_status_topic c, payload)] ∧
     status (payload_channel payload) = Some idle) ∧
  (∀ d, 0 ≤ d < GO_DURATION_MS →
     let entered := state_of (handle_status_change c go st) in
     let standing_by :=
       state_of (handle_status_change c standby_master (elapse d entered)) in
     let expired := elapse (GO_DURATION_MS - d) standing_by in
     (clock st + 5000, c) ∈ timers standing_by ∧
     clock expired = clock st + 5000 ∧
     ((clock st + 5000, c) ∉ timers expired) ∧
     status_of standing_by c = Some standby_master ∧
     status_of expired c = Some standby_master ∧
     channels_data expired !! c = channels_data standing_by !! c) ∧
  (let entered := state_of (handle_status_change c go st) in
   let expired := elapse GO_DURATION_MS entered in
   status_of entered c = Some go ∧
   channels_data expired !! c = Some (reverted ch) ∧
   status_of expired c = Some idle ∧
   ((clock st + 5000, c) ∉ timers expired) ∧
   ∃ before payload after,
     published expired =
       published entered ++ before ++ (channel_status_topic c, payload) :: after ∧
     status (payload_channel payload) = Some idle).
Proof.
  intros Hwf Hc.
  destruct (handle_status_change_finish c go ch st (wf_pointer _ Hwf) Hc)
    as (entered & Hentered & Hfin).
  pose proof (scf_timers _ _ _ _ _ Hfin) as Htimers. simpl in Htimers.
  split_and!.
  - by exists entered.
  - apply revert_go_to_idle_guard.
  - intros Hgo.
    destruct (revert_go_to_idle_spec c st Hwf) as (st' & Hdone & _ & _ & _ & _ & Hch').
    assert (Hpub : ∃ payload,
      published st' = published st ++ [(channel_status_topic c, payload)] ∧
      status (payload_channel payload) = Some idle).
    { revert Hdone. unfold revert_go_to_idle. rewrite Hc, decide_True by done.
      set (st1 := match confirmed_subscribers ch with Some _ => _ | None => st end).
      assert (Hptr1 : pointer_ok st1).
      { subst st1. destruct (confirmed_subscribers ch); exact (wf_pointer _ Hwf). }
      assert (Hc1 : is_Some (channels_data st1 !! c)).
      { subst st1. destruct (confirmed_subscribers ch); simpl;
          [rewrite lookup_insert_eq|rewrite Hc]; by eexists. }
      assert (Hpub1 : published st1 = published st).
      { subst st1. by destruct (confirmed_subscribers ch). }
      destruct Hc1 as [ch1 Hc1].
      destruct (handle_status_change_finish c idle ch1 st1 Hptr1 Hc1)
        as (st'' & -> & Hfin').
      intros [= ->]. destruct (scf_published _ _ _ _ _ Hfin')
        as (payload & Hp & Hpc & _).
      exists payload. rewrite Hp, Hpub1, Hpc. done. }
    destruct Hpub as (payload & Hpub & Hidle).
    exists st', payload. split_and!; try done.
    + rewrite Hch', Hc. by rewrite decide_True.
    + unfold reverted, get_confirmed.
      destruct (confirmed_subscribers ch) eqn:Hsubs; simpl; [done|by rewrite Hsubs].
  - intros d Hd. cbv zeta. rewrite Hentered. cbn [state_of].
    unfold GO_DURATION_MS in *.
    destruct (handle_status_change_well_formed c go st Hwf) as (? & Heq & Hwf1).
    rewrite Hentered in Heq. injection Heq as <-.
    pose proof (handle_status_change_core c go ch st Hc) as Hcore.
    rewrite Hentered in Hcore. cbn [state_of] in Hcore.
    pose proof (scc_clock _ _ _ _ _ Hcore) as Hclock.
    destruct (elapse_spec d entered Hwf1) as (Hwf2 & _ & _ & Hclk2 & Htm2 & Hch2).
    rewrite Hclock, Z.max_r in Hclk2, Htm2 by lia.
    assert (Hc2 : is_Some (channels_data (elapse d entered) !! c)).
    { rewrite Hch2, (scc_channels _ _ _ _ _ Hcore), lookup_insert_eq. by eexists. }
    destruct Hc2 as [ch2 Hc2].
    destruct (handle_status_change_finish c standby_master ch2 _ (wf_pointer _ Hwf2) Hc2)
      as (standing_by & Hsb & Hfin3).
    pose proof (handle_status_change_core c standby_master ch2 _ Hc2) as Hcore3.
    rewrite Hsb in *. cbn [state_of] in *.
    destruct (handle_status_change_well_formed c standby_master _ Hwf2)
      as (? & Heq & Hwf3).
    rewrite Hsb in Heq. injection Heq as <-.
    pose proof (scf_timers _ _ _ _ _ Hfin3) as Htm3.
    rewrite decide_False in Htm3 by done.
    pose proof (scc_clock _ _ _ _ _ Hcore3) as Hclk3.
    pose proof (scc_channels _ _ _ _ _ Hcore3) as Hch3.
    destruct (elapse_spec (5000 - d) standing_by Hwf3)
      as (_ & _ & _ & Hclk4 & Htm4 & Hch4).
    rewrite Hclk3, Hclk2, Z.max_r in Hclk4, Htm4 by lia.
    replace (clock st + d + (5000 - d)) with (clock st + 5000) in * by lia.
    assert (Hsm : channels_data standing_by !! c = Some (with_status standby_master ch2)).
    { by rewrite Hch3, lookup_insert_eq. }
    assert (Hkeep : channels_data (elapse (5000 - d) standing_by) !! c =
                    channels_data standing_by !! c).
    { rewrite Hch4, Hsm. by rewrite decide_False by (by intros [_ ?]). }
    split_and!.
    + rewrite Htm3, Htm2, Htimers. apply list_elem_of_filter. split.
      * unfold timer_due. simpl. lia.
      * apply elem_of_app. right. apply list_elem_of_here.
    + exact Hclk4.
    + rewrite Htm4. intros [Hnot _]%list_elem_of_filter.
      apply Hnot. unfold timer_due. simpl. lia.
    + unfold status_of. by rewrite Hsm.
    + unfold status_of. by rewrite Hkeep, Hsm.
    + exact Hkeep.
  - cbv zeta. rewrite Hentered. cbn [state_of].
    unfold GO_DURATION_MS in *.
    destruct (handle_status_change_well_formed c go st Hwf) as (? & Heq & Hwf1).
    rewrite Hentered in Heq. injection Heq as <-.
    pose proof (handle_status_change_core c go ch st Hc) as Hcore.
    rewrite Hentered in Hcore. cbn [state_of] in Hcore.
    pose proof (scc_clock _ _ _ _ _ Hcore) as Hclock.
    assert (Hin_go : channels_data entered !! c = Some (with_status go ch)).
    { by rewrite (scc_channels _ _ _ _ _ Hcore), lookup_insert_eq. }
    assert (Hdue : (clock st + 5000, c) ∈
                   filter (timer_due (clock entered + 0 `max` 5000)) (timers entered)).
    { apply list_elem_of_filter. split; [unfold timer_due; simpl; lia|].
      rewrite Htimers. apply elem_of_app. right. apply list_elem_of_here. }
    destruct (elapse_spec 5000 entered Hwf1) as (_ & _ & _ & _ & Htm & Hch).
    assert (Hexpired : channels_data (elapse 5000 entered) !! c = Some (reverted ch)).
    { rewrite Hch, Hin_go, decide_True; [by destruct ch as [? ? ? ? ? []]|].
      split; [|done]. apply list_elem_of_fmap. by exists (clock st + 5000, c). }
    split_and!.
    + unfold status_of. by rewrite Hin_go.
    + exact Hexpired.
    + unfold status_of. by rewrite Hexpired.
    + rewrite Htm. intros [Hnot _]%list_elem_of_filter.
      apply Hnot. unfold timer_due. simpl. lia.
    + apply (elapse_published 5000 entered c (clock st + 5000) Hwf1 Hdue).
      by rewrite Hin_go.
Qed.

Lemma revert_is_scheduled_and_guarded_witness :
  let entered := state_of (handle_status_change 1 go example_loaded) in
  let standing_by :=
    state_of (handle_status_change 1 standby_master (elapse 2000 entered)) in
  let expired := elapse (GO_DURATION_MS - 2000) standing_by in
  well_formed example_loaded ∧
  (clock example_loaded + 5000, 1) ∈ timers standing_by ∧
  ((clock example_loaded + 5000, 1) ∉ timers expired) ∧
  status_of expired 1 = Some standby_master ∧
  channels_data expired !! 1 = channels_data standing_by !! 1.
Proof.
  cbv zeta.
  assert (Hc : channels_data example_loaded !! 1 =
               Some (mkChannel "Channel 1" "Cyan" "#00BCD4" "#000000"
                               (Some idle) (Some [])))
    by (vm_compute; reflexivity).
  pose proof example_loaded_well_formed as Hwf.
  generalize dependent example_loaded. intros st Hc Hwf.
  destruct (revert_is_scheduled_and_guarded st 1 _ Hwf Hc) as (_ & _ & _ & Hrace & _).
  destruct (Hrace 2000 ltac:(unfold GO_DURATION_MS; lia))
    as (Hin & _ & Hout & _ & Hst & Hkeep).
  split; [exact Hwf|]. split; [exact Hin|]. split; [exact Hout|].
  split; [exact Hst|exact Hkeep].
Defined.

(** ** Editing the cue list *)

Lemma cues_handle_cue_action_add num key lbl selected st :
  cues (state_of (handle_cue_action_add (Accepted num key lbl selected) st)) =
  sort_cues (cues st ++ [mkCue (Some (uuid_next st)) num key lbl selected]).
Proof. unfold handle_cue_action_add. simpl. by rewrite cues_show_cues_view. Qed.

(** What an accepted edit leaves: the list with the edited cue written
    into its row (when the button's cue is in the list) and into the
    first row with its id, sorted. *)
Lemma cues_handle_cue_action_edit_live row data num key lbl selected st :
  cues st !! row = Some data →
  let updated := mkCue (Some (default (uuid_next st) (cue_id data))) num key lbl selected in
  cues (state_of (handle_cue_action_edit (live_row row)
                    (Accepted num key lbl selected) st)) =
  sort_cues (replace_first_by_id updated (<[row := updated]> (cues st))).
Proof.
  intros Hrow. cbv zeta. unfold handle_cue_action_edit. rewrite Hrow.
  by destruct (cue_id data); simpl; rewrite cues_show_cues_view.
Qed.

Lemma cues_handle_cue_action_edit_stale data num key lbl selected st :
  let updated := mkCue (Some (default (uuid_next st) (cue_id data))) num key lbl selected in
  cues (state_of (handle_cue_action_edit (stale_cue data)
                    (Accepted num key lbl selected) st)) =
  sort_cues (replace_first_by_id updated (cues st)).
Proof.
  cbv zeta. unfold handle_cue_action_edit.
  by destruct (cue_id data); simpl; rewrite cues_show_cues_view.
Qed.

Lemma length_cues_handle_cue_action_edit button result st :
  length (cues (state_of (handle_cue_action_edit button result st))) =
  length (cues st).
Proof.
  destruct result as [num key lbl selected|];
    [|unfold handle_cue_action_edit;
      by destruct button as [row|data]; [destruct (cues st !! row)|]].
  destruct button as [row|data].
  - destruct (cues st !! row) as [data|] eqn:Hrow.
    + rewrite (cues_handle_cue_action_edit_live row data _ _ _ _ st Hrow).
      by rewrite sort_cues_length, length_replace_first_by_id, length_insert.
    + unfold handle_cue_action_edit. by rewrite Hrow.
  - rewrite cues_handle_cue_action_edit_stale.
    by rewrite sort_cues_length, length_replace_first_by_id.
Qed.



(** X29.  A load leaves the cues of the file, and an accepted Add the
    old cues and the new one, each cue as often as before.  While every
    cue number is a number (no cue carries the float NaN), the cue list
    is sorted ascending by [cueNumberFloat] after a load, after a cue is
    added and after a cue is edited, whether the Edit button's cue is
    still in the list or not.  On a non-empty list
    [next_cue] clears the armed flag and moves the pointer one forward,
    or to 0 from the last position (or from any position at or past the
    end); for an in-range pointer that is (index + 1) modulo the length.
    Loading cues stored with keys 3, 1, 2.5 gives a traversal that
    visits 1, 2.5, 3 and then 1 again. *)
Theorem cue_list_sorted_and_traversal_circular :
  (∀ file st,
     let stored := match file with Some config => doc_cues config | None => [] end in
     cues (state_of (load_config file st)) ≡ₚ stored ∧
     (Forall has_number stored → cues_sorted (cues (state_of (load_config file st))))) ∧
  (∀ num key lbl selected st,
     let added := state_of (handle_cue_action_add (Accepted num key lbl selected) st) in
     cues added ≡ₚ cues st ++ [mkCue (Some (uuid_next st)) num key lbl selected] ∧
     (key ≠ float_nan → Forall has_number (cues st) → cues_sorted (cues added))) ∧
  (∀ row num key lbl selected st, key ≠ float_nan → Forall has_number (cues st) →
     is_Some (cues st !! row) →
     cues_sorted
       (cues (state_of (handle_cue_action_edit (live_row row)
                          (Accepted num key lbl selected) st)))) ∧
  (∀ data num key lbl selected st, key ≠ float_nan → Forall has_number (cues st) →
     cues_sorted
       (cues (state_of (handle_cue_action_edit (stale_cue data)
                          (Accepted num key lbl selected) st)))) ∧
  (∀ st, cues st ≠ [] →
     is_current_cue_armed (state_of (next_cue st)) = false ∧
     current_cue_index (state_of (next_cue st)) =
       (if decide (current_cue_index st < Z.of_nat (length (cues st)) - 1)
        then current_cue_index st + 1 else 0) ∧
     (0 ≤ current_cue_index st < Z.of_nat (length (cues st)) →
      current_cue_index (state_of (next_cue st)) =
        (current_cue_index st + 1) `mod` Z.of_nat (length (cues st)))) ∧
  (let visit n := current_key (run (replicate n cue_next) example_loaded) in
   cueNumberFloat <$> doc_cues example_show = float_finite <$> [3; 1; 5 # 2]%Q ∧
   visit <$> [0; 1; 2; 3]%nat =
     Some ∘ float_finite <$> [1; 5 # 2; 3; 1]%Q).
Proof.
  split_and!.
  - intros file st. cbv zeta. rewrite cues_load_config. unfold loaded_cues.
    split; [apply sort_cues_Permutation|]. intros Hnum. by apply sort_cues_sorted.
  - intros num key lbl sel st. cbv zeta. rewrite cues_handle_cue_action_add.
    split; [apply sort_cues_Permutation|]. intros Hkey Hnum.
    apply sort_cues_sorted, Forall_app. split; [done|]. by repeat constructor.
  - intros row num key lbl sel st Hkey Hnum [data Hrow].
    rewrite (cues_handle_cue_action_edit_live row data _ _ _ _ st Hrow).
    apply sort_cues_sorted, Forall_replace_first_by_id; [done|].
    by apply Forall_insert.
  - intros data num key lbl sel st Hkey Hnum.
    rewrite cues_handle_cue_action_edit_stale.
    by apply sort_cues_sorted, Forall_replace_first_by_id.
  - intros st Hne.
    assert (Hnext : is_current_cue_armed (state_of (next_cue st)) = false ∧
      current_cue_index (state_of (next_cue st)) =
      (if decide (current_cue_index st < Z.of_nat (length (cues st)) - 1)
       then current_cue_index st + 1 else 0)).
    { unfold next_cue, update_cue_header_display.
      rewrite decide_False by (by destruct (cues st)).
      destruct (decide (current_cue_index st < _)); simpl;
        destruct (decide _); simpl; try destruct (py_index _ _); done. }
    destruct Hnext as [Harmed Hidx]. split_and!; [done|done|].
    intros Hin. rewrite Hidx. destruct (decide _) as [Hlt|Hge].
    + rewrite Z.mod_small; lia.
    + replace (current_cue_index st + 1) with (Z.of_nat (length (cues st))) by lia.
      rewrite Z_mod_same_full. done.
  - cbv zeta. split; vm_compute; reflexivity.
Qed.

Lemma cue_list_sorted_and_traversal_circular_witness :
  let edited := state_of (handle_cue_action_edit (live_row 1)
                            (Accepted "0.5" (float_finite (1 # 2)) "Preset" [1])
                            example_loaded) in
  (Forall has_number (cues example_loaded) ∧ is_Some (cues example_loaded !! 1%nat)) ∧
  cues_sorted (cues edited) ∧
  (cues example_loaded ≠ [] ∧
   is_current_cue_armed (state_of (next_cue example_loaded)) = false).
Proof.
  cbv zeta.
  assert (Hne : cues example_loaded ≠ [])
    by (intros H; vm_compute in H; discriminate H).
  assert (Hnum : Forall has_number (cues example_loaded))
    by (apply (bool_decide_unpack _); vm_compute; exact I).
  assert (Hrow : is_Some (cues example_loaded !! 1%nat))
    by (eexists; vm_compute; reflexivity).
  destruct cue_list_sorted_and_traversal_circular as (_ & _ & Hedit & _ & Hnext & _).
  split_and!; [exact Hnum|exact Hrow| |exact Hne|exact (proj1 (Hnext example_loaded Hne))].
  apply Hedit; [discriminate|exact Hnum|exact Hrow].
Defined.

(** X30.  No cue action removes a cue.  Delete, once confirmed, looks up
    [QDialog.DialogCode.DestructiveRole], which does not exist, and
    raises before the dialog is closed, so the dialog never returns a
    delete result.  Cancelling an edit reaches the same lookup in
    [handle_cue_action] and raises, leaving the window as it was.  Adding
    and editing never shorten the cue list, whatever the dialog
    returns. *)
Theorem cue_actions_never_remove_a_cue (st : TransmitterWindow) :
  (∀ answer_yes, on_delete answer_yes = None) ∧
  (∀ data, handle_cue_action_edit (stale_cue data) Rejected st = Raised st) ∧
  (∀ row, is_Some (cues st !! row) →
     handle_cue_action_edit (live_row row) Rejected st = Raised st) ∧
  (∀ button result,
     (length (cues st) ≤
      length (cues (state_of (handle_cue_action_edit button result st))))%nat) ∧
  (∀ result,
     (length (cues st) ≤
      length (cues (state_of (handle_cue_action_add result st))))%nat).
Proof.
  split_and!.
  - by intros [].
  - done.
  - intros row [data Hrow]. unfold handle_cue_action_edit. by rewrite Hrow.
  - intros button result. by rewrite length_cues_handle_cue_action_edit.
  - intros [num key lbl sel|].
    + rewrite cues_handle_cue_action_add, sort_cues_length, length_app. simpl. lia.
    + done.
Qed.

Lemma cue_actions_never_remove_a_cue_witness :
  is_Some (cues example_loaded !! 2%nat) ∧
  handle_cue_action_edit (live_row 2) Rejected example_loaded = Raised example_loaded.
Proof.
  assert (Hrow : is_Some (cues example_loaded !! 2%nat))
    by (eexists; vm_compute; reflexivity).
  split; [exact Hrow|].
  exact (proj1 (proj2 (proj2 (cue_actions_never_remove_a_cue example_loaded))) 2%nat Hrow).
Defined.

(** ** Everything the operator can do *)


(** ** The cue pointer and the cue list *)







